(** * TelDrive driver: the resumable chunked upload [Put]

    A shallow embedding of [drivers/teldrive/driver.go] (method [Put] and the
    helper [getMD5Hash]) together with the Go library functions it calls, and
    the properties of the upload orchestrator proved about it; then the
    operations [List], [Link], [MakeDir], [Remove], [Rename] and [Move] of
    the same file, with the paths of the objects they return.

    Conventions.
    - Go's [int64] and [int] (64-bit platforms) are integers of [Z] kept in
      range by [wrap64]; Go's [/] on integers is [Z.quot] (truncation toward
      zero), a zero divisor is a run-time panic.
    - Go strings are byte strings: [string] of 8-bit [ascii] characters.
    - The network, the UUID generator and the byte source are the environment
      of [Put]: their answers are inputs of the model, and every call [Put]
      makes is recorded, in order, in a trace of events. The HTTP client
      [d.client], with the cookie it carries, belongs to the network: the
      model records the URL, the query and the body of a call, not its
      headers.
    - The argument of the progress callback, a [float64] ratio in the source,
      is the exact rational number of [Q] (rounding left out). *)

From Stdlib Require Import ZArith List String Ascii QArith Lia DecimalString.
From Stdlib Require DecimalN DecimalPos.
From Stdlib Require Import Sorting.Permutation Sorting.Sorted.
From stdpp Require Import base tactics option list gmap.

Local Open Scope Z_scope.

(** ** Machine integers *)

Definition min_int64 : Z := - 2 ^ 63.
Definition max_int64 : Z := 2 ^ 63 - 1.

(** Two's complement wrap-around of a 64-bit signed integer. *)
Definition wrap64 (z : Z) : Z := (z + 2 ^ 63) mod 2 ^ 64 - 2 ^ 63.

Definition in_int64 (z : Z) : Prop := min_int64 <= z <= max_int64.

Definition add64 (a b : Z) : Z := wrap64 (a + b).
Definition sub64 (a b : Z) : Z := wrap64 (a - b).
Definition mul64 (a b : Z) : Z := wrap64 (a * b).

(** [a / b] on [int64]: [None] is the division-by-zero panic. *)
Definition div64 (a b : Z) : option Z :=
  if b =? 0 then None else Some (wrap64 (Z.quot a b)).

(** ** Bytes and text *)

Definition byte_of_ascii (c : ascii) : Z := Z.of_N (N_of_ascii c).

Fixpoint bytes_of_string (s : string) : list Z :=
  match s with
  | EmptyString => []
  | String c s' => byte_of_ascii c :: bytes_of_string s'
  end.

Fixpoint string_of_chars (l : list ascii) : string :=
  match l with
  | [] => EmptyString
  | c :: l' => String c (string_of_chars l')
  end.

(** [strings.Join]-like concatenation of pieces. *)
Fixpoint concat_strings (l : list string) : string :=
  match l with
  | [] => EmptyString
  | s :: l' => String.append s (concat_strings l')
  end.

(** ** crypto/md5 and encoding/hex, as called by [getMD5Hash] (RFC 1321) *)

Module MD5.

Definition w32 (z : Z) : Z := z mod 2 ^ 32.

Definition rotl32 (x c : Z) : Z :=
  w32 (Z.lor (Z.shiftl x c) (Z.shiftr x (32 - c))).

Definition not32 (x : Z) : Z := Z.lxor x 4294967295.

Definition K : list Z :=
  [ 3614090360; 3905402710; 606105819; 3250441966;
    4118548399; 1200080426; 2821735955; 4249261313;
    1770035416; 2336552879; 4294925233; 2304563134;
    1804603682; 4254626195; 2792965006; 1236535329;
    4129170786; 3225465664; 643717713; 3921069994;
    3593408605; 38016083; 3634488961; 3889429448;
    568446438; 3275163606; 4107603335; 1163531501;
    2850285829; 4243563512; 1735328473; 2368359562;
    4294588738; 2272392833; 1839030562; 4259657740;
    2763975236; 1272893353; 4139469664; 3200236656;
    681279174; 3936430074; 3572445317; 76029189;
    3654602809; 3873151461; 530742520; 3299628645;
    4096336452; 1126891415; 2878612391; 4237533241;
    1700485571; 2399980690; 4293915773; 2240044497;
    1873313359; 4264355552; 2734768916; 1309151649;
    4149444226; 3174756917; 718787259; 3951481745 ].

Definition shifts : list Z :=
  [ 7; 12; 17; 22; 7; 12; 17; 22; 7; 12; 17; 22; 7; 12; 17; 22;
    5; 9; 14; 20; 5; 9; 14; 20; 5; 9; 14; 20; 5; 9; 14; 20;
    4; 11; 16; 23; 4; 11; 16; 23; 4; 11; 16; 23; 4; 11; 16; 23;
    6; 10; 15; 21; 6; 10; 15; 21; 6; 10; 15; 21; 6; 10; 15; 21 ].

Record state := State { sa : Z; sb : Z; sc : Z; sd : Z }.

Definition init : state :=
  State 1732584193 4023233417 2562383102 271733878.

(** One of the 64 operations on a block of sixteen words [m]. *)
Definition round (m : list Z) (i : nat) (s : state) : state :=
  let '(State a b c d) := s in
  let q := (i / 16)%nat in
  let f :=
    match q with
    | 0%nat => Z.lor (Z.land b c) (Z.land (not32 b) d)
    | 1%nat => Z.lor (Z.land d b) (Z.land (not32 d) c)
    | 2%nat => Z.lxor (Z.lxor b c) d
    | _ => Z.lxor c (Z.lor b (not32 d))
    end in
  let g :=
    match q with
    | 0%nat => i
    | 1%nat => ((5 * i + 1) mod 16)%nat
    | 2%nat => ((3 * i + 5) mod 16)%nat
    | _ => ((7 * i) mod 16)%nat
    end in
  let x := w32 (f + a + nth i K 0 + nth g m 0) in
  State d (w32 (b + rotl32 x (nth i shifts 0))) b c.

Definition le_word (b0 b1 b2 b3 : Z) : Z :=
  b0 + 256 * b1 + 65536 * b2 + 16777216 * b3.

(** The sixteen little-endian words of a 64-byte block. *)
Fixpoint words (n : nat) (l : list Z) : list Z :=
  match n with
  | O => []
  | S n' =>
      match l with
      | b0 :: b1 :: b2 :: b3 :: l' => le_word b0 b1 b2 b3 :: words n' l'
      | _ => []
      end
  end.

Definition block (s : state) (bytes : list Z) : state :=
  let m := words 16 bytes in
  let r := fold_left (fun acc i => round m i acc) (seq 0 64) s in
  State (w32 (sa s + sa r)) (w32 (sb s + sb r))
        (w32 (sc s + sc r)) (w32 (sd s + sd r)).

Fixpoint blocks (n : nat) (s : state) (l : list Z) : state :=
  match n with
  | O => s
  | S n' => blocks n' (block s (firstn 64 l)) (skipn 64 l)
  end.

Definition le_bytes (n : nat) (z : Z) : list Z :=
  map (fun i => Z.shiftr z (8 * Z.of_nat i) mod 256) (seq 0 n).

(** Padding: one [0x80] byte, zeros up to 56 modulo 64, then the bit
    length of the message on eight little-endian bytes. *)
Definition pad (msg : list Z) : list Z :=
  let len := Z.of_nat (length msg) in
  let zeros := Z.to_nat ((55 - len) mod 64) in
  msg ++ 128 :: repeat 0 zeros ++ le_bytes 8 ((8 * len) mod 2 ^ 64).

(** [md5.Sum]: the sixteen bytes of the digest. *)
Definition Sum (msg : list Z) : list Z :=
  let p := pad msg in
  let s := blocks (length p / 64) init p in
  le_bytes 4 (sa s) ++ le_bytes 4 (sb s) ++ le_bytes 4 (sc s) ++ le_bytes 4 (sd s).

End MD5.

Definition hex_digit (z : Z) : ascii :=
  nth (Z.to_nat z)
      ["0"; "1"; "2"; "3"; "4"; "5"; "6"; "7";
       "8"; "9"; "a"; "b"; "c"; "d"; "e"; "f"]%char "0"%char.

(** [hex.EncodeToString]. *)
Fixpoint EncodeToString (bytes : list Z) : string :=
  match bytes with
  | [] => EmptyString
  | b :: bytes' =>
      String (hex_digit (b / 16)) (String (hex_digit (b mod 16)) (EncodeToString bytes'))
  end.

(** [getMD5Hash] of the driver. *)
Definition getMD5Hash (text : string) : string :=
  EncodeToString (MD5.Sum (bytes_of_string text)).

(** ** strconv, fmt and path, as called by [Put] *)

Definition dec_digits (z : Z) : string :=
  NilZero.string_of_uint (N.to_uint (Z.abs_N z)).

(** [strconv.Itoa] and the verb [%d] of [fmt.Sprintf]. *)
Definition Itoa (z : Z) : string :=
  if z <? 0 then String "-" (dec_digits z) else dec_digits z.

Definition zero_pad (width : nat) (s : string) : string :=
  String.append (string_of_chars (repeat "0"%char (width - String.length s))) s.

(** The verb [%03d]: at least three characters, zeros after the sign. *)
Definition Sprintf_03d (z : Z) : string :=
  if z <? 0 then String "-" (zero_pad 2 (dec_digits z))
  else zero_pad 3 (dec_digits z).

(** [strconv.FormatBool]. *)
Definition FormatBool (b : bool) : string :=
  if b then "true"%string else "false"%string.

Definition is_digit (c : ascii) : bool :=
  (48 <=? byte_of_ascii c) && (byte_of_ascii c <=? 57).

Inductive uint_result :=
| UintOk (n : Z)
| UintSyntax
| UintRange.

(** The digit loop of [strconv.ParseUint] in base 10 on 64 bits. *)
Fixpoint parse_uint (s : string) (n : Z) : uint_result :=
  match s with
  | EmptyString => UintOk n
  | String c s' =>
      if is_digit c then
        if n >=? (2 ^ 64 - 1) / 10 + 1 then UintRange
        else
          let n1 := n * 10 + (byte_of_ascii c - 48) in
          if n1 >? 2 ^ 64 - 1 then UintRange else parse_uint s' n1
      else UintSyntax
  end.

(** [strconv.ParseInt(s, 10, 64)], the value only: [Put] drops the error.
    It is 0 on a syntax error and the nearest bound on a range error. *)
Definition ParseInt (s : string) : Z :=
  match s with
  | EmptyString => 0
  | String c s' =>
      let neg := Ascii.eqb c "-" in
      let body := if Ascii.eqb c "+" || neg then s' else s in
      match body with
      | EmptyString => 0
      | _ =>
          match parse_uint body 0 with
          | UintSyntax => 0
          | UintRange => if neg then min_int64 else max_int64
          | UintOk un =>
              if negb neg && (un >=? 2 ^ 63) then max_int64
              else if neg && (un >? 2 ^ 63) then min_int64
              else if neg then - un else un
          end
      end
  end.

(** Components of a path between slashes. *)
Fixpoint split_slash (s : string) (cur : string) : list string :=
  match s with
  | EmptyString => [cur]
  | String c s' =>
      if Ascii.eqb c "/" then cur :: split_slash s' EmptyString
      else split_slash s' (String.append cur (String c EmptyString))
  end.

Fixpoint join_slash (l : list string) : string :=
  match l with
  | [] => EmptyString
  | [s] => s
  | s :: l' => String.append s (String "/" (join_slash l'))
  end.

(** One component of [path.Clean]; [kept] holds the components kept so
    far, last one first. *)
Definition clean_component (rooted : bool) (kept : list string) (c : string)
  : list string :=
  if String.eqb c "" || String.eqb c "." then kept
  else if String.eqb c ".." then
    match kept with
    | top :: rest => if String.eqb top ".." then c :: kept else rest
    | [] => if rooted then [] else [c]
    end
  else c :: kept.

(** [path.Clean]. *)
Definition Clean (p : string) : string :=
  match p with
  | EmptyString => "."%string
  | String c _ =>
      let rooted := Ascii.eqb c "/" in
      let kept := fold_left (clean_component rooted) (split_slash p EmptyString) [] in
      let body := join_slash (rev kept) in
      let out := if rooted then String "/" body else body in
      if String.eqb out "" then "."%string else out
  end.

(** [path.Join] of two elements. *)
Definition Join (a b : string) : string :=
  if String.eqb a "" && String.eqb b "" then EmptyString
  else if String.eqb a "" then Clean b
  else Clean (String.append a (String "/" b)).

(** ** Data of the driver *)

(** [time.Time], as an opaque instant. *)
Definition Time := Z.

Module PartFile.
Record t := Make {
  Name : string;
  PartId : Z;
  PartNo : Z;
  TotalParts : Z;
  Size : Z;
  ChannelID : Z;
  Encrypted : bool;
  Salt : string
}.
End PartFile.

Module FilePart.
Record t := Make { ID : Z; Salt : string }.
End FilePart.

Module FileInfo.
Record t := Make {
  Id : string;
  Name : string;
  MimeType : string;
  Size : Z;
  ParentId : string;
  Type_ : string;
  ModTime : Time
}.
End FileInfo.

Module CreateFileRequest.
Record t := Make {
  Name : string;
  Type_ : string;
  Path : string;
  Size : Z;
  ChannelID : Z;
  Encrypted : bool;
  Parts : list FilePart.t;
  ModTime : Time
}.
End CreateFileRequest.

Module Object.
Record t := Make {
  ID : string;
  Name : string;
  Size : Z;
  ModTime : Time;
  IsFolder : bool;
  Path : string;
  ParentID : string
}.
End Object.

(** The driver instance: the fields of [Addition] and the user id set by
    [Init]. *)
Module TelDrive.
Record t := Make {
  AccessToken : string;
  ApiHost : string;
  UploadHost : string;
  ChannelID : string;
  ChunkSize : Z;
  RandomChunkName : bool;
  EncryptFiles : bool;
  UploadConcurrency : Z;
  userId : Z
}.
End TelDrive.

(** ** The environment of [Put] *)

(** The byte source behind [model.FileStreamer]: it still delivers [avail]
    bytes, then ends, with [io.EOF] or with the read error [broken]. *)
Record Stream := MkStream {
  avail : Z;
  broken : option string
}.

Module FileStreamer.
Record t := Make {
  Name : string;
  Size : Z;
  ModTime : Time;
  reader : Stream
}.
End FileStreamer.

(** What a resty call gives back: an error, or a response with its status,
    its text ([resp.String()]) and what [json.Unmarshal] makes of its body
    ([inl] its error, [inr] the decoded value). *)
Inductive reply (A : Type) :=
| TransportError (err : string)
| Response (StatusCode : Z) (body : string) (decoded : string + A).

Arguments TransportError {A} err.
Arguments Response {A} StatusCode body decoded.

(** The query parameters of a chunk upload, as [url.Values] holds them. *)
Record UploadQuery := MkQuery {
  q_partName : string;
  q_fileName : string;
  q_partNo : string;
  q_channelId : string;
  q_encrypted : string
}.

(** The remote service and the UUID generator. [post_upload] sees the URL,
    the query and the number of body bytes it received; [new_uuid k] is the
    text of the UUID drawn while chunk [k] is prepared. A run asks each
    question once (the uploads differ by their part number), so answers that
    are functions of the question describe any service. *)
Record Remote := MkRemote {
  get_uploads : string -> reply (list PartFile.t);
  post_upload : string -> UploadQuery -> Z -> reply PartFile.t;
  post_files : CreateFileRequest.t -> reply FileInfo.t;
  new_uuid : Z -> string
}.

(** The calls [Put] makes, in the order it makes them. *)
Inductive event :=
| EvGetUploads (path : string)
| EvDiscard (chunkNo : Z) (n : Z) (written : Z)
| EvProgress (percent : Q)
| EvPostUpload (chunkNo : Z) (url : string) (query : UploadQuery) (n : Z) (sent : Z)
| EvPostFiles (req : CreateFileRequest.t).

(** The errors [Put] returns, one constructor per [fmt.Errorf] of the
    source (lines 286, 360, 364, 371, 375, 411, 415 and 422), with the value
    it formats; none of the formats takes the chunk number. *)
Inductive put_error :=
| ErrUnknownSize
| ErrUploadTransport (err : string)
| ErrUploadStatus (body : string)
| ErrUploadDecode (err : string)
| ErrUploadNoPartId
| ErrCreateTransport (err : string)
| ErrCreateStatus (body : string)
| ErrCreateDecode (err : string).

Inductive outcome :=
| Returned (obj : Object.t)
| Failed (err : put_error)
| Panicked.

(** ** io *)

(** Bytes a reader limited to [n] bytes takes from the source. *)
Definition limited (src : Stream) (n : Z) : Z := Z.max 0 (Z.min n (avail src)).

Definition advance (src : Stream) (k : Z) : Stream :=
  MkStream (avail src - k) (broken src).

(** [io.CopyN(io.Discard, src, n)]: the source after the call, the number of
    bytes written and the error. A short copy reports the source's read
    error, or [io.EOF]. *)
Definition CopyN_Discard (src : Stream) (n : Z) : Stream * (Z * option string) :=
  if n <=? 0 then (src, (0, None))
  else
    let w := limited src n in
    (advance src w,
     (w, if w =? n then None
         else Some (match broken src with Some e => e | None => "EOF"%string end))).

(** The body [io.LimitReader(file, n)] of an upload. [Put] hands it to the
    request and does not read it itself: the HTTP client takes the bytes
    from the source while it sends them. A request that gets its answer has
    read the body to its end, so it has taken the bytes the limit allows,
    which is what [read_body] gives. A request that fails on the way may
    have taken fewer; [Put] then returns at once and reads the source no
    more, and no property below depends on the exact count of an upload
    whose answer is rejected: it is used as an upper bound only. *)
Definition read_body (src : Stream) (n : Z) : Stream * Z :=
  let w := limited src n in (advance src w, w).

(** ** sort.Slice by part number *)

Fixpoint insert_part (p : PartFile.t) (l : list PartFile.t) : list PartFile.t :=
  match l with
  | [] => [p]
  | q :: l' =>
      if PartFile.PartNo p <=? PartFile.PartNo q then p :: l
      else q :: insert_part p l'
  end.

(** [sort.Slice(parts, func(i, j) { parts[i].PartNo < parts[j].PartNo })].
    The result is the sorted arrangement; where part numbers repeat the
    source's order among equals is the one of an insertion sort (what
    [sort.Slice] runs on fewer than twelve elements). On longer slices
    [sort.Slice] does not fix the order among equal numbers; the properties
    below are about the order by part number and that the result is a
    rearrangement, which hold of any such order. *)
Fixpoint sort_Slice (l : list PartFile.t) : list PartFile.t :=
  match l with
  | [] => []
  | p :: l' => insert_part p (sort_Slice l')
  end.

(** ** Put *)

(** Lines 298-308: the parts the registry already holds, keyed by part
    number; none unless the call succeeds with status 200 and a body that
    decodes. *)
Definition existingChunks_of (r : reply (list PartFile.t)) : gmap Z PartFile.t :=
  match r with
  | Response status _ (inr parts) =>
      if status =? 200 then
        fold_left (fun m part => <[PartFile.PartNo part := part]> m) parts ∅
      else ∅
  | _ => ∅
  end.

(** The argument of the progress callback:
    [float64(uploadedSize) / float64(fileSize) * 100], as the exact ratio.
    The conversions and the two operations of [float64] round to nearest, so
    they keep the order of the values, and the quotient of a number by itself
    is exactly 1: order and the value 100 are the same for the exact ratio
    and for its [float64]. With [fileSize = 0], where Go computes a NaN or an
    infinity, the ratio is taken as 0; the loop runs on an empty file only
    when the chunk size is negative, and nothing is proved of that value. *)
Definition percent_of (uploadedSize fileSize : Z) : Q :=
  (inject_Z uploadedSize / inject_Z fileSize * 100)%Q.

(** The variables of the chunk loop. *)
Record loop_state := MkLoop {
  file : Stream;
  partsToCommit : list PartFile.t;
  uploadedSize : Z;
  trace : list event
}.

Definition uploadID_of (parentPath fileName : string) (fileSize userId : Z) : string :=
  getMD5Hash (concat_strings
    [parentPath; ":"; fileName; ":"; Itoa fileSize; ":"; Itoa userId]%string).

Section ChunkLoop.

Variable d : TelDrive.t.
Variable net : Remote.
Variable fileName : string.
Variable fileSize : Z.
Variable uploadID : string.
Variable chunkSize totalChunks : Z.
Variable existingChunks : gmap Z PartFile.t.

(** Lines 329-334. *)
Definition chunkName_of (chunkNo : Z) : string :=
  if TelDrive.RandomChunkName d then getMD5Hash (new_uuid net chunkNo)
  else if totalChunks >? 1 then
    concat_strings [fileName; ".part."; Sprintf_03d chunkNo]%string
  else fileName.

(** Lines 339-342. *)
Definition uploadURL : string :=
  if String.eqb (TelDrive.UploadHost d) "" then
    String.append (TelDrive.ApiHost d) (String.append "/api/uploads/" uploadID)
  else
    String.append (TelDrive.UploadHost d) (String.append "/api/uploads/" uploadID).

(** Lines 324-327: the limit of the body of chunk [chunkNo]. *)
Definition chunk_limit (chunkNo uploaded : Z) : Z :=
  if chunkNo =? totalChunks then sub64 fileSize uploaded else chunkSize.

(** Lines 345-350. *)
Definition query_of (chunkNo : Z) : UploadQuery :=
  MkQuery (chunkName_of chunkNo) fileName (Itoa chunkNo) (TelDrive.ChannelID d)
          (FormatBool (TelDrive.EncryptFiles d)).

(** The body of the loop, lines 315-380: the state after chunk [chunkNo],
    or the error [Put] returns with the state it had reached. *)
Definition chunk_step (chunkNo : Z) (st : loop_state)
  : put_error * loop_state + loop_state :=
  match existingChunks !! chunkNo with
  | Some existing =>
      let '(src, (written, _)) := CopyN_Discard (file st) (PartFile.Size existing) in
      let uploaded := add64 (uploadedSize st) (PartFile.Size existing) in
      inr (MkLoop src
                  (partsToCommit st ++ [existing])
                  uploaded
                  (trace st ++ [EvDiscard chunkNo (PartFile.Size existing) written;
                                EvProgress (percent_of uploaded fileSize)]))
  | None =>
      let n := chunk_limit chunkNo (uploadedSize st) in
      let query := query_of chunkNo in
      let '(src, sent) := read_body (file st) n in
      let tr := trace st ++ [EvPostUpload chunkNo uploadURL query n sent] in
      let stopped := MkLoop src (partsToCommit st) (uploadedSize st) tr in
      match post_upload net uploadURL query sent with
      | TransportError err => inl (ErrUploadTransport err, stopped)
      | Response status body decoded =>
          if negb (status =? 200) then inl (ErrUploadStatus body, stopped)
          else
            match decoded with
            | inl err => inl (ErrUploadDecode err, stopped)
            | inr partInfo =>
                if PartFile.PartId partInfo =? 0 then inl (ErrUploadNoPartId, stopped)
                else
                  let uploaded := add64 (uploadedSize st) n in
                  inr (MkLoop src
                              (partsToCommit st ++ [partInfo])
                              uploaded
                              (tr ++ [EvProgress (percent_of uploaded fileSize)]))
            end
      end
  end.

(** [for chunkNo := 1; chunkNo <= int(totalChunks); chunkNo++]: [todo] is
    the number of iterations left, [chunkNo] the current chunk. *)
Fixpoint chunk_loop (todo : nat) (chunkNo : Z) (st : loop_state)
  : put_error * loop_state + loop_state :=
  match todo with
  | O => inr st
  | S todo' =>
      match chunk_step chunkNo st with
      | inl stop => inl stop
      | inr st' => chunk_loop todo' (chunkNo + 1) st'
      end
  end.

End ChunkLoop.

Definition FilePart_of (part : PartFile.t) : FilePart.t :=
  FilePart.Make (PartFile.PartId part) (PartFile.Salt part).

(** The chunk size in bytes and the number of chunks, lines 291-292;
    [None] when the division panics. *)
Definition chunkSize_of (d : TelDrive.t) : Z :=
  mul64 (mul64 (TelDrive.ChunkSize d) 1024) 1024.

Definition totalChunks_of (fileSize chunkSize : Z) : option Z :=
  div64 (sub64 (add64 fileSize chunkSize) 1) chunkSize.

Definition parentPath_of (dstDir : Object.t) : string :=
  if String.eqb (Object.Path dstDir) "/" then EmptyString else Object.Path dstDir.

(** Lines 384-404: the parts sorted by number, their manifest and the
    create-file request. *)
Definition createFileReq_of (d : TelDrive.t) (dstDir : Object.t) (f : FileStreamer.t)
    (partsToCommit : list PartFile.t) : CreateFileRequest.t :=
  let fileChunks := map FilePart_of (sort_Slice partsToCommit) in
  CreateFileRequest.Make (FileStreamer.Name f) "file"
    (Join (parentPath_of dstDir) (FileStreamer.Name f))
    (FileStreamer.Size f) (ParseInt (TelDrive.ChannelID d)) (TelDrive.EncryptFiles d)
    fileChunks (FileStreamer.ModTime f).

(** Lines 406-434: the create-file call and what [Put] returns after it. *)
Definition commit (net : Remote) (dstDir : Object.t) (f : FileStreamer.t)
    (createFileReq : CreateFileRequest.t) : outcome :=
  match post_files net createFileReq with
  | TransportError err => Failed (ErrCreateTransport err)
  | Response status body decoded =>
      if negb (status =? 200) then Failed (ErrCreateStatus body)
      else
        match decoded with
        | inl err => Failed (ErrCreateDecode err)
        | inr fileInfo =>
            Returned (Object.Make (FileInfo.Id fileInfo) (FileStreamer.Name f)
                        (FileStreamer.Size f) (FileInfo.ModTime fileInfo) false
                        (Join (parentPath_of dstDir) (FileStreamer.Name f))
                        (FileInfo.ParentId fileInfo))
        end
  end.

(** The path of the registry request, line 299. *)
Definition registry_path (d : TelDrive.t) (dstDir : Object.t) (f : FileStreamer.t) : string :=
  String.append "/api/uploads/"
    (uploadID_of (parentPath_of dstDir) (FileStreamer.Name f) (FileStreamer.Size f)
                 (TelDrive.userId d)).

(** The variables of the loop when it starts, lines 298-312. *)
Definition initial_state (d : TelDrive.t) (dstDir : Object.t) (f : FileStreamer.t)
  : loop_state :=
  MkLoop (FileStreamer.reader f) [] 0 [EvGetUploads (registry_path d dstDir f)].

(** The chunk loop of [Put] over [existingChunks], for [totalChunks] chunks. *)
Definition run_loop (d : TelDrive.t) (net : Remote) (dstDir : Object.t)
    (f : FileStreamer.t) (existingChunks : gmap Z PartFile.t) (totalChunks : Z)
  : put_error * loop_state + loop_state :=
  chunk_loop d net (FileStreamer.Name f) (FileStreamer.Size f)
    (uploadID_of (parentPath_of dstDir) (FileStreamer.Name f) (FileStreamer.Size f)
                 (TelDrive.userId d))
    (chunkSize_of d) totalChunks existingChunks
    (Z.to_nat totalChunks) 1 (initial_state d dstDir f).

(** [Put]: what it returns and the calls it made. *)
Definition Put (d : TelDrive.t) (net : Remote) (dstDir : Object.t)
    (f : FileStreamer.t) : outcome * list event :=
  if FileStreamer.Size f <? 0 then (Failed ErrUnknownSize, [])
  else
    match totalChunks_of (FileStreamer.Size f) (chunkSize_of d) with
    | None => (Panicked, [])
    | Some totalChunks =>
        let existingChunks := existingChunks_of (get_uploads net (registry_path d dstDir f)) in
        match run_loop d net dstDir f existingChunks totalChunks with
        | inl (err, st) => (Failed err, trace st)
        | inr st =>
            let createFileReq := createFileReq_of d dstDir f (partsToCommit st) in
            (commit net dstDir f createFileReq,
             trace st ++ [EvPostFiles createFileReq])
        end
    end.

(** ** Reading a trace *)

(** The chunk an event skips or transfers. *)
Definition handled_chunk (e : event) : option Z :=
  match e with
  | EvDiscard k _ _ => Some k
  | EvPostUpload k _ _ _ _ => Some k
  | _ => None
  end.

Definition transferred_chunk (e : event) : option Z :=
  match e with
  | EvPostUpload k _ _ _ _ => Some k
  | _ => None
  end.

(** The length [Put] gives the chunk: the bytes it asks to discard or the
    limit of the body it sends. *)
Definition chunk_length (e : event) : option Z :=
  match e with
  | EvDiscard _ n _ => Some n
  | EvPostUpload _ _ _ n _ => Some n
  | _ => None
  end.

Definition progress_value (e : event) : option Q :=
  match e with
  | EvProgress q => Some q
  | _ => None
  end.

Definition handled_chunks (tr : list event) : list Z := omap handled_chunk tr.
Definition transferred_chunks (tr : list event) : list Z := omap transferred_chunk tr.
Definition chunk_lengths (tr : list event) : list Z := omap chunk_length tr.
Definition progress_values (tr : list event) : list Q := omap progress_value tr.

(** The parts [Put] finds in the registry. *)
Definition registry_of (d : TelDrive.t) (net : Remote) (dstDir : Object.t)
    (f : FileStreamer.t) : gmap Z PartFile.t :=
  existingChunks_of (get_uploads net (registry_path d dstDir f)).

(** The number of chunks [Put] plans for the file. *)
Definition planned_chunks (d : TelDrive.t) (f : FileStreamer.t) : option Z :=
  totalChunks_of (FileStreamer.Size f) (chunkSize_of d).

(** What an event is to the progress: a chunk handled, a value reported;
    [reported n] is [n] chunks, each followed by its report. *)
Inductive mark := Chunk | Report.

Definition mark_of (e : event) : option mark :=
  match e with
  | EvDiscard _ _ _ => Some Chunk
  | EvPostUpload _ _ _ _ _ => Some Chunk
  | EvProgress _ => Some Report
  | _ => None
  end.

Definition marks (tr : list event) : list mark := omap mark_of tr.

Definition reported (n : nat) : list mark := concat (replicate n [Chunk; Report]).

(** The names under which a run sends its chunks. *)
Definition chunk_name (e : event) : option string :=
  match e with
  | EvPostUpload _ _ q _ _ => Some (q_partName q)
  | _ => None
  end.

Definition chunk_names (tr : list event) : list string := omap chunk_name tr.

(** The part ids of the manifest a run commits. *)
Definition manifest_ids (e : event) : option (list Z) :=
  match e with
  | EvPostFiles req => Some (map FilePart.ID (CreateFileRequest.Parts req))
  | _ => None
  end.

Definition committed_ids (tr : list event) : list (list Z) := omap manifest_ids tr.

(** ** Answers to a chunk upload

    How [Put] reads the answer to a chunk upload: [rejected r err] when it
    makes [Put] return [err], [accepted r part] when [Put] keeps [part]. *)

Inductive rejected : reply PartFile.t -> put_error -> Prop :=
| rejected_transport err :
    rejected (TransportError err) (ErrUploadTransport err)
| rejected_status status body decoded :
    status <> 200 -> rejected (Response status body decoded) (ErrUploadStatus body)
| rejected_decode body err :
    rejected (Response 200 body (inl err)) (ErrUploadDecode err)
| rejected_part_id body part :
    PartFile.PartId part = 0 ->
    rejected (Response 200 body (inr part)) ErrUploadNoPartId.

Definition accepted (r : reply PartFile.t) (part : PartFile.t) : Prop :=
  (exists body, r = Response 200 body (inr part)) /\ PartFile.PartId part <> 0.

(** ** A registry that cannot be read *)

(** The registry request fails: a transport error, a status other than
    200, or a body that does not decode. *)
Definition registry_unavailable (r : reply (list PartFile.t)) : Prop :=
  match r with
  | TransportError _ => True
  | Response status _ decoded => status <> 200 \/ exists err, decoded = inl err
  end.

(** The service [net] with the answer [r] to the registry request. *)
Definition with_registry (net : Remote) (r : reply (list PartFile.t)) : Remote :=
  MkRemote (fun _ => r) (post_upload net) (post_files net) (new_uuid net).

(** The registry answers that it holds no part. *)
Definition no_parts : reply (list PartFile.t) := Response 200 "[]" (inr []).

(** ** Part numbers *)

(** Every accepted answer of the run carries the number of the chunk it
    answers. *)
Definition reports_chunk_numbers (net : Remote) (tr : list event) : Prop :=
  forall k u q n sent part,
    EvPostUpload k u q n sent ∈ tr ->
    accepted (post_upload net u q sent) part ->
    PartFile.PartNo part = k.

Definition by_number (a b : PartFile.t) : Prop := PartFile.PartNo a <= PartFile.PartNo b.

Definition by_number_strict (a b : PartFile.t) : Prop :=
  PartFile.PartNo a < PartFile.PartNo b.

(** ** What holds of the loop after every iteration *)

Section LoopInvariant.

Variable d : TelDrive.t.
Variable net : Remote.
Variable fileName : string.
Variable fileSize : Z.
Variable uploadID : string.
Variable totalChunks : Z.
Variable existingChunks : gmap Z PartFile.t.

(** The events of the loop: a discard is for a part the registry holds,
    asks for its recorded size and takes no more; an upload is for a chunk
    the registry lacks and carries the URL and the query of that chunk; the
    registry is asked about this upload; nothing is committed yet. *)
Definition loop_event (e : event) : Prop :=
  match e with
  | EvDiscard k n w =>
      exists p, existingChunks !! k = Some p /\ n = PartFile.Size p /\
                0 <= w <= Z.max 0 n
  | EvPostUpload k u q _ _ =>
      existingChunks !! k = None /\ u = uploadURL d uploadID /\
      q = query_of d net fileName totalChunks k
  | EvPostFiles _ => False
  | EvGetUploads p => p = String.append "/api/uploads/" uploadID
  | EvProgress _ => True
  end.

Definition upload_accepted (e : event) : Prop :=
  match e with
  | EvPostUpload _ u q _ sent => exists part, accepted (post_upload net u q sent) part
  | _ => True
  end.

(** The part [Put] holds for chunk [k]: the registry's, or the one an
    upload of chunk [k] recorded in [tr] was answered with. *)
Definition part_of_chunk (tr : list event) (k : Z) (part : PartFile.t) : Prop :=
  match existingChunks !! k with
  | Some p => part = p
  | None =>
      exists u q n sent,
        EvPostUpload k u q n sent ∈ tr /\ accepted (post_upload net u q sent) part
  end.

(** The state before chunk [k]. *)
Record loop_inv (k : Z) (st : loop_state) : Prop := MkInv {
  inv_pos : 1 <= k;
  inv_handled : handled_chunks (trace st) = seqZ 1 (k - 1);
  inv_events : Forall loop_event (trace st);
  inv_accepted : Forall upload_accepted (trace st);
  inv_parts : Forall2 (part_of_chunk (trace st)) (seqZ 1 (k - 1)) (partsToCommit st);
  inv_count : length (progress_values (trace st)) = Z.to_nat (k - 1);
  inv_last : 1 < k ->
             last (progress_values (trace st))
             = Some (percent_of (uploadedSize st) fileSize)
}.

End LoopInvariant.

(** ** The runs of [Put]

    The four ways a call of [Put] goes, with what is known of the loop in
    each: the size is refused; the planning divides by zero; the loop
    reaches chunk [j] and the upload of that chunk stops it with an error;
    the loop completes and the file is committed. *)

Section Runs.

Variable d : TelDrive.t.
Variable net : Remote.
Variable dstDir : Object.t.
Variable f : FileStreamer.t.

Definition session_of : string :=
  uploadID_of (parentPath_of dstDir) (FileStreamer.Name f) (FileStreamer.Size f)
              (TelDrive.userId d).

Definition inv_of (totalChunks : Z) : Z -> loop_state -> Prop :=
  loop_inv d net (FileStreamer.Name f) (FileStreamer.Size f) session_of totalChunks
           (registry_of d net dstDir f).

Definition step_of (totalChunks : Z) : Z -> loop_state -> put_error * loop_state + loop_state :=
  chunk_step d net (FileStreamer.Name f) (FileStreamer.Size f) session_of
             (chunkSize_of d) totalChunks (registry_of d net dstDir f).

Inductive put_run : outcome -> list event -> Prop :=
| run_refused :
    FileStreamer.Size f < 0 ->
    put_run (Failed ErrUnknownSize) []
| run_panicked :
    0 <= FileStreamer.Size f ->
    planned_chunks d f = None ->
    put_run Panicked []
| run_stopped t j stj err st :
    0 <= FileStreamer.Size f ->
    planned_chunks d f = Some t ->
    1 <= j <= t ->
    inv_of t j stj ->
    chunk_loop d net (FileStreamer.Name f) (FileStreamer.Size f) session_of
               (chunkSize_of d) t (registry_of d net dstDir f)
               (Z.to_nat (j - 1)) 1 (initial_state d dstDir f) = inr stj ->
    step_of t j stj = inl (err, st) ->
    put_run (Failed err) (trace st)
| run_committed t st :
    0 <= FileStreamer.Size f ->
    planned_chunks d f = Some t ->
    run_loop d net dstDir f (registry_of d net dstDir f) t = inr st ->
    inv_of t (1 + Z.of_nat (Z.to_nat t)) st ->
    put_run (commit net dstDir f (createFileReq_of d dstDir f (partsToCommit st)))
            (trace st ++ [EvPostFiles (createFileReq_of d dstDir f (partsToCommit st))]).

End Runs.

(** ** The plan

    The length the plan gives chunk [k] of [totalChunks], the bytes it
    accounts for after [j] chunks, and the sum of a list of lengths. *)

Definition planned_length (fileSize chunkSize totalChunks k : Z) : Z :=
  if k =? totalChunks then fileSize - chunkSize * (totalChunks - 1) else chunkSize.

Definition planned_total (fileSize chunkSize totalChunks j : Z) : Z :=
  if (0 <? j) && (j =? totalChunks) then fileSize else chunkSize * j.

Definition total (l : list Z) : Z := fold_right Z.add 0 l.

(** The parts the registry holds for chunks of the plan have the lengths
    the plan gives these chunks. *)
Definition registry_matches_plan (d : TelDrive.t) (net : Remote) (dstDir : Object.t)
    (f : FileStreamer.t) (totalChunks : Z) : Prop :=
  forall k p,
    1 <= k <= totalChunks ->
    registry_of d net dstDir f !! k = Some p ->
    PartFile.Size p
    = planned_length (FileStreamer.Size f) (chunkSize_of d) totalChunks k.

(** The planning went without overflow, or it left one chunk at most. *)
Definition plan_regular (fileSize chunkSize totalChunks : Z) : Prop :=
  totalChunks <= 1 \/
  (0 < chunkSize /\ fileSize + chunkSize - 1 <= max_int64 /\
   totalChunks = (fileSize + chunkSize - 1) / chunkSize).

(** The state before chunk [k] of a run that follows the plan. *)
Record plan_inv (fileSize chunkSize totalChunks k : Z) (st : loop_state) : Prop := MkPlanInv {
  pinv_uploaded :
    uploadedSize st = planned_total fileSize chunkSize totalChunks (k - 1);
  pinv_lengths :
    chunk_lengths (trace st)
    = map (planned_length fileSize chunkSize totalChunks) (seqZ 1 (k - 1));
  pinv_progress :
    progress_values (trace st)
    = map (fun j => percent_of (planned_total fileSize chunkSize totalChunks j) fileSize)
          (seqZ 1 (k - 1))
}.

(** The configured chunk size in bytes, and the quotient rounded up. *)
Definition chunk_bytes (d : TelDrive.t) : Z := TelDrive.ChunkSize d * 1048576.

Definition ceil_div (a b : Z) : Z := - ((- a) / b).

(** ** Sample inputs

    A driver instance, a destination, a source file and a well-behaved
    service, used to run [Put] on concrete inputs, and services that
    misbehave in one way each. *)

Definition MiB : Z := 1048576.

Definition sample_drive (chunkMB : Z) (random : bool) : TelDrive.t :=
  TelDrive.Make "token" "https://td.example" "" "100123" chunkMB random false 4 7.

Definition root_dir : Object.t := Object.Make "root" "" 0 0 true "/" "".

Definition sample_file (size : Z) : FileStreamer.t :=
  FileStreamer.Make "f.bin" size 1700000000 (MkStream size None).

(** The record the service keeps of a chunk it was sent. *)
Definition stored_part (q : UploadQuery) (sent : Z) : PartFile.t :=
  PartFile.Make (q_partName q) (1000 + ParseInt (q_partNo q)) (ParseInt (q_partNo q))
                0 sent (ParseInt (q_channelId q)) false "".

Definition created_file (req : CreateFileRequest.t) : FileInfo.t :=
  FileInfo.Make "file-1" (CreateFileRequest.Name req) "" (CreateFileRequest.Size req)
                "root" "file" (CreateFileRequest.ModTime req).

Definition sample_uuid (k : Z) : string :=
  String.append "6ba7b810-9dad-41d1-80b4-00c04fd43" (Sprintf_03d k).

(** A service that knows no part of the upload yet. *)
Definition fresh_remote : Remote :=
  MkRemote (fun _ => Response 404 "not found" (inl "unexpected end of JSON input"%string))
           (fun _ q sent => Response 200 "" (inr (stored_part q sent)))
           (fun req => Response 200 "" (inr (created_file req)))
           sample_uuid.

(** The same service once it holds the parts [parts] of the upload. *)
Definition resumed_remote (parts : list PartFile.t) : Remote :=
  MkRemote (fun _ => Response 200 "" (inr parts))
           (post_upload fresh_remote) (post_files fresh_remote) sample_uuid.

(** A part of the upload the service already holds. *)
Definition held_part (k size : Z) : PartFile.t :=
  PartFile.Make "" (1000 + k) k 0 size 100123 false "".

(** The service with every part of a three-chunk upload in its registry. *)
Definition complete_remote : Remote :=
  resumed_remote [held_part 1 MiB; held_part 2 MiB; held_part 3 MiB].

(** A service that holds the first part of an upload made with chunks of
    four MiB. *)
Definition stale_remote : Remote := resumed_remote [held_part 1 (4 * MiB)].

(** A source file of three MiB whose byte source fails at once. *)
Definition broken_file : FileStreamer.t :=
  FileStreamer.Make "f.bin" (3 * MiB) 1700000000 (MkStream 0 (Some "connection reset"%string)).

(** A service that stores the chunks before chunk [bad] and answers the
    upload of chunk [bad], and of the chunks after it, with status 200 and a
    record without part id. *)
Definition no_part_id_from (bad : Z) : Remote :=
  MkRemote (get_uploads fresh_remote)
           (fun u q sent =>
              if ParseInt (q_partNo q) <? bad then post_upload fresh_remote u q sent
              else Response 200 "{}" (inr (PartFile.Make "" 0 0 0 0 0 false "")))
           (post_files fresh_remote) sample_uuid.

(** A service that holds [parts] of the upload and answers an upload with
    the part id alone, without the number of the part. *)
Definition silent_remote (parts : list PartFile.t) : Remote :=
  MkRemote (fun _ => Response 200 "" (inr parts))
           (fun _ q _ =>
              Response 200 ""
                (inr (PartFile.Make "" (1000 + ParseInt (q_partNo q)) 0 0 0 0 false "")))
           (post_files fresh_remote) sample_uuid.

(** ** Answers to the create-file request

    [create_rejected r err] when the answer [r] makes [Put] return [err]
    (lines 410-423). *)

Inductive create_rejected : reply FileInfo.t -> put_error -> Prop :=
| create_transport err :
    create_rejected (TransportError err) (ErrCreateTransport err)
| create_status status body decoded :
    status <> 200 -> create_rejected (Response status body decoded) (ErrCreateStatus body)
| create_decode body err :
    create_rejected (Response 200 body (inl err)) (ErrCreateDecode err).

(** ** The calls of the loop *)

(** An event of the loop, which takes from the source no more than the
    length it names. *)
Definition chunk_event (e : event) : Prop :=
  match e with
  | EvDiscard _ n w => 0 <= w <= Z.max 0 n
  | EvPostUpload _ _ _ n sent => 0 <= sent <= Z.max 0 n
  | EvProgress _ => True
  | _ => False
  end.

(** The chunk an event skips. *)
Definition skipped_chunk (e : event) : option Z :=
  match e with
  | EvDiscard k _ _ => Some k
  | _ => None
  end.

Definition skipped_chunks (tr : list event) : list Z := omap skipped_chunk tr.

(** The bytes an event takes from the source. *)
Definition bytes_taken (e : event) : option Z :=
  match e with
  | EvDiscard _ _ w => Some w
  | EvPostUpload _ _ _ _ sent => Some sent
  | _ => None
  end.

Definition taken_bytes (tr : list event) : list Z := omap bytes_taken tr.

(** An event that takes exactly the length it names. *)
Definition exact_event (e : event) : Prop := bytes_taken e = chunk_length e.

(** The source before chunk [k] of a run on the plan, when it held [A]
    bytes at the start. *)
Definition source_inv (A S cs t k : Z) (st : loop_state) : Prop :=
  avail (file st) = A - planned_total S cs t (k - 1) /\
  Forall exact_event (trace st).

(** ** Decimal numerals and hexadecimal digits *)

(** The number the decimal digits [u] denote after the digits of [acc]. *)
Fixpoint uint_value (u : Decimal.uint) (acc : Z) : Z :=
  match u with
  | Decimal.Nil => acc
  | Decimal.D0 l => uint_value l (10 * acc)
  | Decimal.D1 l => uint_value l (10 * acc + 1)
  | Decimal.D2 l => uint_value l (10 * acc + 2)
  | Decimal.D3 l => uint_value l (10 * acc + 3)
  | Decimal.D4 l => uint_value l (10 * acc + 4)
  | Decimal.D5 l => uint_value l (10 * acc + 5)
  | Decimal.D6 l => uint_value l (10 * acc + 6)
  | Decimal.D7 l => uint_value l (10 * acc + 7)
  | Decimal.D8 l => uint_value l (10 * acc + 8)
  | Decimal.D9 l => uint_value l (10 * acc + 9)
  end.

(** A digit, or a letter from a to f. *)
Definition is_lower_hex (c : ascii) : bool :=
  ((48 <=? byte_of_ascii c) && (byte_of_ascii c <=? 57)) ||
  ((97 <=? byte_of_ascii c) && (byte_of_ascii c <=? 102)).

Definition is_byte (b : Z) : Prop := 0 <= b < 256.

(** ** path.Dir, and paths that are clean *)

Fixpoint has_slash (s : string) : bool :=
  match s with
  | EmptyString => false
  | String c s' => Ascii.eqb c "/" || has_slash s'
  end.

(** [path.Split], the directory: the path up to its last slash, included. *)
Fixpoint dir_part (s : string) : string :=
  match s with
  | EmptyString => EmptyString
  | String c s' =>
      if has_slash s' then String c (dir_part s')
      else if Ascii.eqb c "/" then "/"%string else EmptyString
  end.

(** [path.Dir]. *)
Definition Dir (p : string) : string := Clean (dir_part p).

(** A name that is one component of a path. *)
Definition plain_name (s : string) : Prop :=
  s <> ""%string /\ s <> "."%string /\ s <> ".."%string /\ has_slash s = false.

(** The absolute path of the components [comps]; the root when there is
    none. *)
Definition abs_path (comps : list string) : string := String "/" (join_slash comps).

(** ** The other operations of the driver

    [List], [Link], [MakeDir], [Remove], [Rename] and [Move] of
    [drivers/teldrive/driver.go], and [GetRoot]. Each makes one call at
    most; it is recorded with what the operation returns. *)

(** [model.Obj] as the driver sees it: one of its own objects, or an object
    of another implementation, of which it reads the path. *)
Inductive Obj :=
| Own (o : Object.t)
| Foreign (path : string).

Definition GetPath (o : Obj) : string :=
  match o with
  | Own o => Object.Path o
  | Foreign path => path
  end.

(** [GetRoot]; [now] is the instant [time.Now()] gives. *)
Definition GetRoot (now : Time) : Object.t := Object.Make "root" "" 0 now true "/" "".

(** [model.Link], the fields [Link] sets. *)
Module Link.
Record t := Make {
  URL : string;
  Header : list (string * list string)
}.
End Link.

(** What a resty call gives back to an operation that reads the status and
    the text of the response, and a value of it: the variable passed to
    [SetResult] as it is after the call, or a header. *)
Inductive answer (A : Type) :=
| CallError (err : string)
| Answer (StatusCode : Z) (text : string) (value : A).

Arguments CallError {A} err.
Arguments Answer {A} StatusCode text value.

(** The calls of the operations. *)
Inductive call :=
| GetFiles (path page limit : string)
| GetDownload (id : string)
| PostFolder (path : string)
| DeleteFiles (ids : list string)
| PatchFile (url name : string)
| PostMove (destinationParent : string) (ids : list string).

(** The service behind the operations: its answer to each call. The value
    of [get_files] is [resp.Files], the one of [get_download] the header
    [Location]. *)
Record Service := MkService {
  get_files : string -> string -> string -> answer (list FileInfo.t);
  get_download : string -> answer string;
  post_folder : string -> reply FileInfo.t;
  delete_files : list string -> answer unit;
  patch_file : string -> string -> answer unit;
  post_move : string -> list string -> answer unit
}.

Inductive operation := OpLink | OpMakeDir | OpRemove | OpRename | OpMove.

(** The errors of the operations: the error of the call, returned as it
    is; the message built from the text of a response whose status is not
    200; the error of [json.Unmarshal]; the fixed messages. *)
Inductive op_error :=
| ErrCall (err : string)
| ErrStatus (op : operation) (text : string)
| ErrDecode (err : string)
| ErrInvalidObject
| ErrInvalidSource
| ErrInvalidDestination
| ErrNotFile
| ErrNoLocation.

Definition user_agent : string :=
  "Mozilla/5.0 (Windows NT 10.0; Win64; x64) AppleWebKit/537.36 (KHTML, like Gecko) Chrome/116.0.0.0 Safari/537.36".

Module Ops.

(** Lines 164-167 and 236-239: the path sent for a directory. *)
Definition dir_path (dir : Obj) : string :=
  if String.eqb (GetPath dir) "/" then EmptyString else GetPath dir.

(** Lines 183-192: the object made of an entry of the listing. *)
Definition listed (path : string) (file : FileInfo.t) : Object.t :=
  Object.Make (FileInfo.Id file) (FileInfo.Name file) (FileInfo.Size file)
    (FileInfo.ModTime file) (String.eqb (FileInfo.Type_ file) "folder")
    (String.append path (String.append "/" (FileInfo.Name file)))
    (FileInfo.ParentId file).

(** [List], lines 163-197. The status of the response is not read. *)
Definition List (svc : Service) (dir : Obj) : (op_error + list Object.t) * list call :=
  let path := dir_path dir in
  match get_files svc path "1" "1000" with
  | CallError err => (inl (ErrCall err), [GetFiles path "1" "1000"])
  | Answer _ _ files => (inr (map (listed path) files), [GetFiles path "1" "1000"])
  end.

(** [Link], lines 199-233. *)
Definition Link (svc : Service) (file : Obj) : (op_error + Link.t) * list call :=
  match file with
  | Foreign _ => (inl ErrInvalidObject, [])
  | Own obj =>
      if Object.IsFolder obj then (inl ErrNotFile, [])
      else
        let calls := [GetDownload (Object.ID obj)] in
        match get_download svc (Object.ID obj) with
        | CallError err => (inl (ErrCall err), calls)
        | Answer status text location =>
            if negb (status =? 200) then (inl (ErrStatus OpLink text), calls)
            else if String.eqb location "" then (inl ErrNoLocation, calls)
            else (inr (Link.Make location [("User-Agent"%string, [user_agent])]), calls)
        end
  end.

(** [MakeDir], lines 235-274. *)
Definition MakeDir (svc : Service) (parentDir : Obj) (dirName : string)
  : (op_error + Object.t) * list call :=
  let newPath := Join (dir_path parentDir) dirName in
  let calls := [PostFolder newPath] in
  match post_folder svc newPath with
  | TransportError err => (inl (ErrCall err), calls)
  | Response status text decoded =>
      if negb (status =? 200) then (inl (ErrStatus OpMakeDir text), calls)
      else
        match decoded with
        | inl err => (inl (ErrDecode err), calls)
        | inr fileInfo =>
            (inr (Object.Make (FileInfo.Id fileInfo) dirName 0 (FileInfo.ModTime fileInfo)
                    true newPath (FileInfo.ParentId fileInfo)), calls)
        end
  end.

(** [Remove], lines 437-458. *)
Definition Remove (svc : Service) (obj : Obj) : option op_error * list call :=
  match obj with
  | Foreign _ => (Some ErrInvalidObject, [])
  | Own telObj =>
      let calls := [DeleteFiles [Object.ID telObj]] in
      match delete_files svc [Object.ID telObj] with
      | CallError err => (Some (ErrCall err), calls)
      | Answer status text _ =>
          if negb (status =? 200) then (Some (ErrStatus OpRemove text), calls)
          else (None, calls)
      end
  end.

(** [Rename], lines 460-486. *)
Definition Rename (svc : Service) (srcObj : Obj) (newName : string)
  : (op_error + Object.t) * list call :=
  match srcObj with
  | Foreign _ => (inl ErrInvalidObject, [])
  | Own telObj =>
      let url := String.append "/api/files/" (Object.ID telObj) in
      let calls := [PatchFile url newName] in
      match patch_file svc url newName with
      | CallError err => (inl (ErrCall err), calls)
      | Answer status text _ =>
          if negb (status =? 200) then (inl (ErrStatus OpRename text), calls)
          else
            (inr (Object.Make (Object.ID telObj) newName (Object.Size telObj)
                    (Object.ModTime telObj) (Object.IsFolder telObj)
                    (Join (Dir (Object.Path telObj)) newName)
                    (Object.ParentID telObj)), calls)
      end
  end.

(** [Move], lines 488-520. *)
Definition Move (svc : Service) (srcObj dstDir : Obj) : (op_error + Object.t) * list call :=
  match srcObj with
  | Foreign _ => (inl ErrInvalidSource, [])
  | Own telObj =>
      match dstDir with
      | Foreign _ => (inl ErrInvalidDestination, [])
      | Own dstDirObj =>
          let calls := [PostMove (Object.ID dstDirObj) [Object.ID telObj]] in
          match post_move svc (Object.ID dstDirObj) [Object.ID telObj] with
          | CallError err => (inl (ErrCall err), calls)
          | Answer status text _ =>
              if negb (status =? 200) then (inl (ErrStatus OpMove text), calls)
              else
                (inr (Object.Make (Object.ID telObj) (Object.Name telObj)
                        (Object.Size telObj) (Object.ModTime telObj)
                        (Object.IsFolder telObj)
                        (Join (Object.Path dstDirObj) (Object.Name telObj))
                        (Object.ID dstDirObj)), calls)
          end
      end
  end.

End Ops.

(** A service that accepts every call; it lists the two entries [a] and
    [b.txt] in every directory. *)
Definition sample_service : Service :=
  MkService
    (fun path _ _ =>
       Answer 200 ""
         [FileInfo.Make "id-a" "a" "" 0 "dir" "folder" 1700000000;
          FileInfo.Make "id-b" "b.txt" "text/plain" 12 "dir" "file" 1700000001])
    (fun id => Answer 200 "" (String.append "https://cdn.example/" id))
    (fun path => Response 200 "" (inr (FileInfo.Make "id-new" "" "" 0 "dir" "folder" 1700000002)))
    (fun _ => Answer 200 "" tt)
    (fun _ _ => Answer 200 "" tt)
    (fun _ _ => Answer 200 "" tt).

(** A registry answer with a part of the plan and a part numbered 7. *)
Definition stray_registry : reply (list PartFile.t) :=
  Response 200 "" (inr [held_part 1 MiB; held_part 7 MiB]).

(** A driver whose channel id is the one of a Telegram channel. *)
Definition channel_drive : TelDrive.t :=
  TelDrive.Make "token" "https://td.example" "" "-1001234567890" 1 false false 4 7.

(** * Properties *)

(** ** The library functions on known values *)

Example md5_empty : getMD5Hash "" = "d41d8cd98f00b204e9800998ecf8427e"%string.
Proof. vm_compute. reflexivity. Qed.

Example md5_abc : getMD5Hash "abc" = "900150983cd24fb0d6963f7d28e17f72"%string.
Proof. vm_compute. reflexivity. Qed.

Example md5_two_blocks :
  getMD5Hash "aaaaaaaaaaaaaaaaaaaaaaaaaaaaaaaaaaaaaaaaaaaaaaaaaaaaaaaa"
  = "3b0c8ac703f828b04c6c197006d17218"%string.
Proof. vm_compute. reflexivity. Qed.

Example Itoa_neg : Itoa (-42) = "-42"%string.
Proof. reflexivity. Qed.

Example Sprintf_03d_7 : Sprintf_03d 7 = "007"%string.
Proof. reflexivity. Qed.

Example Sprintf_03d_1234 : Sprintf_03d 1234 = "1234"%string.
Proof. reflexivity. Qed.

Example ParseInt_examples :
  ParseInt "-100123" = -100123 /\ ParseInt "12a" = 0 /\
  ParseInt "9223372036854775808" = max_int64 /\ ParseInt "+7" = 7.
Proof. vm_compute. repeat split. Qed.

Example Join_examples :
  Join "" "a.bin" = "a.bin"%string /\ Join "/docs" "a.bin" = "/docs/a.bin"%string /\
  Join "/docs/" "../a.bin" = "/a.bin"%string /\ Join "" "" = ""%string.
Proof. vm_compute. repeat split. Qed.

(** ** Machine integers *)

Lemma wrap64_id z : in_int64 z -> wrap64 z = z.
Proof.
  unfold in_int64, min_int64, max_int64, wrap64. intros H.
  rewrite Z.mod_small; lia.
Qed.

Lemma wrap64_range z : in_int64 (wrap64 z).
Proof.
  unfold in_int64, min_int64, max_int64, wrap64.
  pose proof (Z.mod_pos_bound (z + 2 ^ 63) (2 ^ 64)). lia.
Qed.

(** ** io *)

(** A discard takes no more than it is asked for, and exactly that from a
    source that still holds it. *)
Lemma CopyN_Discard_bounds src n :
  0 <= (CopyN_Discard src n).2.1 <= Z.max 0 n.
Proof.
  unfold CopyN_Discard, limited. destruct (n <=? 0) eqn:E; simpl; lia.
Qed.

Lemma CopyN_Discard_exact src n :
  0 < n <= avail src ->
  CopyN_Discard src n = (advance src n, (n, None)).
Proof.
  intros H. unfold CopyN_Discard, limited.
  destruct (n <=? 0) eqn:E; [apply Z.leb_le in E; lia|].
  replace (Z.max 0 (Z.min n (avail src))) with n by lia.
  now rewrite Z.eqb_refl.
Qed.

(** ** The chunk loop *)

Section LoopFacts.

Variable d : TelDrive.t.
Variable net : Remote.
Variable fileName : string.
Variable fileSize : Z.
Variable uploadID : string.
Variable chunkSize totalChunks : Z.
Variable existingChunks : gmap Z PartFile.t.

Abbreviation step := (chunk_step d net fileName fileSize uploadID chunkSize
                             totalChunks existingChunks).
Abbreviation loop := (chunk_loop d net fileName fileSize uploadID chunkSize
                             totalChunks existingChunks).

(** A property kept by every completed iteration holds when the loop
    ends, and holds of the state the failing iteration started from. *)
Lemma loop_invariant (I : Z -> loop_state -> Prop) n :
  forall k0,
    (forall k st st', k0 <= k < k0 + Z.of_nat n ->
                      I k st -> step k st = inr st' -> I (k + 1) st') ->
    forall st st',
      I k0 st -> loop n k0 st = inr st' -> I (k0 + Z.of_nat n) st'.
Proof.
  induction n as [|n IH]; intros k0 Hstep st st' HI Hloop.
  - simpl in Hloop. inversion Hloop; subst. now replace (k0 + Z.of_nat 0) with k0 by lia.
  - simpl in Hloop. destruct (step k0 st) as [stop|st1] eqn:E; [discriminate|].
    replace (k0 + Z.of_nat (S n)) with ((k0 + 1) + Z.of_nat n) by lia.
    eapply IH; [|eapply Hstep; eauto; lia|exact Hloop].
    intros k st0 st0' Hk. apply Hstep. lia.
Qed.

Lemma loop_failure (I : Z -> loop_state -> Prop) n :
  forall k0,
    (forall k st st', k0 <= k < k0 + Z.of_nat n ->
                      I k st -> step k st = inr st' -> I (k + 1) st') ->
    forall st err st',
      I k0 st -> loop n k0 st = inl (err, st') ->
      exists j stj,
        k0 <= j < k0 + Z.of_nat n /\ I j stj /\
        loop (Z.to_nat (j - k0)) k0 st = inr stj /\
        step j stj = inl (err, st').
Proof.
  induction n as [|n IH]; intros k0 Hstep st err st' HI Hloop.
  - discriminate.
  - simpl in Hloop. destruct (step k0 st) as [stop|st1] eqn:E.
    + inversion Hloop; subst. exists k0, st. split; [lia|]. split; [assumption|].
      split; [|assumption]. now replace (k0 - k0) with 0 by lia.
    + destruct (IH (k0 + 1)) with (st := st1) (err := err) (st' := st')
        as (j & stj & Hj & HIj & Hreach & Hs); auto.
      { intros k st0 st0' Hk. apply Hstep. lia. }
      { eapply Hstep; eauto. lia. }
      exists j, stj. split; [lia|]. split; [assumption|]. split; [|assumption].
      replace (Z.to_nat (j - k0)) with (Datatypes.S (Z.to_nat (j - (k0 + 1)))) by lia.
      simpl. now rewrite E.
Qed.

Abbreviation limit := (chunk_limit fileSize chunkSize totalChunks).
Abbreviation query := (query_of d net fileName totalChunks).
Abbreviation url := (uploadURL d uploadID).

(** A chunk the registry holds is skipped. *)
Lemma step_existing k st p :
  existingChunks !! k = Some p ->
  step k st =
    inr (MkLoop (CopyN_Discard (file st) (PartFile.Size p)).1
           (partsToCommit st ++ [p])
           (add64 (uploadedSize st) (PartFile.Size p))
           (trace st ++
              [EvDiscard k (PartFile.Size p)
                         (CopyN_Discard (file st) (PartFile.Size p)).2.1;
               EvProgress (percent_of (add64 (uploadedSize st) (PartFile.Size p))
                                      fileSize)])).
Proof.
  intros H. unfold chunk_step. rewrite H.
  destruct (CopyN_Discard (file st) (PartFile.Size p)) as [src [w e]].
  reflexivity.
Qed.

(** A chunk the registry lacks is sent; the answer is rejected and the
    loop stops, or accepted and the part is kept. *)
Lemma step_missing k st :
  existingChunks !! k = None ->
  let n := limit k (uploadedSize st) in
  let sent := limited (file st) n in
  let ev := EvPostUpload k url (query k) n sent in
  (exists err,
      rejected (post_upload net url (query k) sent) err /\
      step k st = inl (err, MkLoop (advance (file st) sent) (partsToCommit st)
                                   (uploadedSize st) (trace st ++ [ev])))
  \/
  (exists part,
      accepted (post_upload net url (query k) sent) part /\
      step k st = inr (MkLoop (advance (file st) sent)
                         (partsToCommit st ++ [part])
                         (add64 (uploadedSize st) n)
                         ((trace st ++ [ev]) ++
                            [EvProgress (percent_of (add64 (uploadedSize st) n)
                                                    fileSize)]))).
Proof.
  intros H n sent ev. unfold chunk_step. rewrite H.
  fold n. unfold read_body. fold sent. fold ev.
  destruct (post_upload net url (query k) sent) as [err|status body [err|part]] eqn:E.
  - left. eexists. split; [constructor|reflexivity].
  - destruct (status =? 200) eqn:Es; simpl.
    + apply Z.eqb_eq in Es. subst. left. eexists. split; [constructor|reflexivity].
    + apply Z.eqb_neq in Es. left. eexists. split; [now constructor|reflexivity].
  - destruct (status =? 200) eqn:Es; simpl.
    + apply Z.eqb_eq in Es. subst.
      destruct (PartFile.PartId part =? 0) eqn:Ep.
      * apply Z.eqb_eq in Ep. left. eexists. split; [now constructor|reflexivity].
      * apply Z.eqb_neq in Ep. right. exists part. split; [|reflexivity].
        split; [now exists body|assumption].
    + apply Z.eqb_neq in Es. left. eexists. split; [now constructor|reflexivity].
Qed.

Abbreviation Inv := (loop_inv d net fileName fileSize uploadID totalChunks existingChunks).

Lemma seqZ_snoc k : 1 <= k -> seqZ 1 (k + 1 - 1) = seqZ 1 (k - 1) ++ [k].
Proof.
  intros H. replace (k + 1 - 1) with ((k - 1) + 1) by lia.
  rewrite seqZ_app by lia. f_equal.
  replace (1 + (k - 1)) with k by lia. reflexivity.
Qed.

Lemma part_of_chunk_mono tr tr' k part :
  part_of_chunk net existingChunks tr k part ->
  part_of_chunk net existingChunks (tr ++ tr') k part.
Proof.
  unfold part_of_chunk. destruct (existingChunks !! k); [easy|].
  intros (u & q & n & sent & Hin & Hacc). exists u, q, n, sent.
  split; [|assumption]. apply elem_of_app. now left.
Qed.

Lemma step_keeps_inv k st st' : Inv k st -> step k st = inr st' -> Inv (k + 1) st'.
Proof.
  intros [Hpos Hh He Ha Hp Hc Hl] Hstep.
  destruct (existingChunks !! k) as [p|] eqn:Ek.
  - rewrite (step_existing k st p Ek) in Hstep. inversion Hstep; subst; clear Hstep.
    constructor; simpl.
    + lia.
    + unfold handled_chunks in *. rewrite omap_app, Hh, seqZ_snoc by lia. reflexivity.
    + apply Forall_app. split; [assumption|].
      repeat constructor. simpl. exists p. repeat split; auto;
        apply CopyN_Discard_bounds.
    + apply Forall_app. split; [assumption|]. repeat constructor.
    + rewrite seqZ_snoc by lia. apply Forall2_app.
      * eapply Forall2_impl; [exact Hp|]. intros; now apply part_of_chunk_mono.
      * repeat constructor. unfold part_of_chunk. now rewrite Ek.
    + unfold progress_values in *. rewrite omap_app, length_app, Hc. simpl. lia.
    + intros _. unfold progress_values. rewrite omap_app. simpl.
      now rewrite last_snoc.
  - destruct (step_missing k st Ek) as [(err & _ & Hs)|(part & Hacc & Hs)];
      rewrite Hs in Hstep; [discriminate|].
    inversion Hstep; subst; clear Hstep Hs.
    constructor; simpl.
    + lia.
    + unfold handled_chunks in *. rewrite !omap_app, Hh, seqZ_snoc by lia.
      simpl. now rewrite app_nil_r.
    + rewrite !Forall_app. repeat split; [assumption| |]; repeat constructor.
      simpl. auto.
    + rewrite !Forall_app. repeat split; [assumption| |]; repeat constructor.
      simpl. now exists part.
    + rewrite seqZ_snoc by lia. apply Forall2_app.
      * eapply Forall2_impl; [exact Hp|]. intros.
        rewrite <- app_assoc. now apply part_of_chunk_mono.
      * repeat constructor. unfold part_of_chunk. rewrite Ek.
        eexists _, _, _, _. split; [|exact Hacc].
        rewrite <- app_assoc. apply elem_of_app. right. apply elem_of_cons. now left.
    + unfold progress_values in *. rewrite !omap_app, !length_app, Hc. simpl. lia.
    + intros _. unfold progress_values. rewrite omap_app. simpl.
      now rewrite last_snoc.
Qed.

(** A rejected upload is the last event of the trace. *)
Lemma step_stops k st err st' :
  Inv k st -> step k st = inl (err, st') ->
  exists n sent,
    trace st' = trace st ++ [EvPostUpload k url (query k) n sent] /\
    rejected (post_upload net url (query k) sent) err /\
    existingChunks !! k = None.
Proof.
  intros HI Hstep.
  destruct (existingChunks !! k) as [p|] eqn:Ek.
  - rewrite (step_existing k st p Ek) in Hstep. discriminate.
  - destruct (step_missing k st Ek) as [(err' & Hrej & Hs)|(part & _ & Hs)];
      rewrite Hs in Hstep; [|discriminate].
    inversion Hstep; subst. eexists _, _. repeat split; eauto.
Qed.

End LoopFacts.

(** ** The runs of [Put] *)

Lemma initial_inv d net dstDir f t :
  inv_of d net dstDir f t 1 (initial_state d dstDir f).
Proof.
  constructor; simpl; try reflexivity; try lia.
  - repeat constructor.
  - repeat constructor.
  - constructor.
Qed.

Lemma Put_run d net dstDir f :
  put_run d net dstDir f (Put d net dstDir f).1 (Put d net dstDir f).2.
Proof.
  unfold Put.
  destruct (FileStreamer.Size f <? 0) eqn:Hs.
  { apply Z.ltb_lt in Hs. now constructor. }
  apply Z.ltb_ge in Hs.
  destruct (totalChunks_of (FileStreamer.Size f) (chunkSize_of d)) as [t|] eqn:Ht.
  2:{ now constructor. }
  fold (registry_of d net dstDir f).
  destruct (run_loop d net dstDir f (registry_of d net dstDir f) t) as [[err st]|st] eqn:Hl.
  - unfold run_loop in Hl.
    eapply (loop_failure _ _ _ _ _ _ _ _ (inv_of d net dstDir f t)) in Hl
      as (j & stj & Hj & HI & Hreach & Hstep);
      [| intros; eapply step_keeps_inv; eassumption | apply initial_inv ].
    simpl. eapply run_stopped with (t := t) (j := j); eauto. lia.
  - simpl. eapply run_committed; eauto.
    unfold run_loop in Hl.
    eapply (loop_invariant _ _ _ _ _ _ _ _ (inv_of d net dstDir f t)) in Hl;
      [exact Hl | intros; eapply step_keeps_inv; eassumption | apply initial_inv ].
Qed.

(** Every event of a run is an event of its loop, or its create-file
    request. *)
Lemma Put_events d net dstDir f e :
  e ∈ (Put d net dstDir f).2 ->
  exists t,
    planned_chunks d f = Some t /\
    ((exists req, e = EvPostFiles req) \/
     loop_event d net (FileStreamer.Name f) (session_of d dstDir f) t
                (registry_of d net dstDir f) e).
Proof.
  intros Hin.
  destruct (Put_run d net dstDir f)
    as [Hs|Hs Hp|t j stj err st Hs Hp Hj HI Hreach Hstep|t st Hs Hp Hl HI].
  - inversion Hin.
  - inversion Hin.
  - exists t. split; [assumption|]. right.
    destruct (step_stops _ _ _ _ _ _ _ _ _ _ _ _ HI Hstep) as (n & sent & Htr & _ & Hk).
    rewrite Htr in Hin. apply elem_of_app in Hin as [Hin|Hin].
    + destruct HI as [_ _ He _ _ _ _]. rewrite Forall_forall in He. now apply He.
    + apply list_elem_of_singleton in Hin. subst e. simpl. auto.
  - exists t. split; [assumption|].
    apply elem_of_app in Hin as [Hin|Hin].
    + right. destruct HI as [_ _ He _ _ _ _]. rewrite Forall_forall in He. now apply He.
    + apply list_elem_of_singleton in Hin. left. eauto.
Qed.

(** Membership of an event in a trace that is written out. *)
Ltac find_event :=
  repeat first [ apply list_elem_of_here | apply list_elem_of_further ].

(** ** Unknown size *)

(** C8. A file whose reported size is negative is refused with the
    unsupported-size error, and [Put] has made no call at all by then: no
    registry request, no chunk upload, no create-file request. *)
Theorem Put_refuses_unknown_size d net dstDir f :
  FileStreamer.Size f < 0 ->
  Put d net dstDir f = (Failed ErrUnknownSize, []).
Proof.
  intros H. unfold Put. apply Z.ltb_lt in H. now rewrite H.
Qed.

Lemma Put_refuses_unknown_size_witness :
  Put (sample_drive 500 true) fresh_remote root_dir (sample_file (-1))
  = (Failed ErrUnknownSize, []).
Proof.
  apply Put_refuses_unknown_size. simpl. lia.
Defined.

(** ** Session identity *)

(** C7. The session identifier is a function of the destination path, the
    file name, the file size and the owner id alone: two calls of [Put]
    that agree on these four, whatever else differs (configuration,
    service, byte source), address the registry with the same identifier,
    the digest [uploadID_of] of the four values. *)
Theorem session_identity_deterministic d1 d2 net1 net2 dst1 dst2 f1 f2 :
  Object.Path dst1 = Object.Path dst2 ->
  FileStreamer.Name f1 = FileStreamer.Name f2 ->
  FileStreamer.Size f1 = FileStreamer.Size f2 ->
  TelDrive.userId d1 = TelDrive.userId d2 ->
  session_of d1 dst1 f1 = session_of d2 dst2 f2 /\
  (forall p, EvGetUploads p ∈ (Put d1 net1 dst1 f1).2 ->
             p = String.append "/api/uploads/" (session_of d1 dst1 f1)) /\
  (forall p1 p2, EvGetUploads p1 ∈ (Put d1 net1 dst1 f1).2 ->
                 EvGetUploads p2 ∈ (Put d2 net2 dst2 f2).2 -> p1 = p2).
Proof.
  intros Hpath Hname Hsize Huser.
  assert (Hsess : session_of d1 dst1 f1 = session_of d2 dst2 f2).
  { unfold session_of, parentPath_of. now rewrite Hpath, Hname, Hsize, Huser. }
  assert (Hreg : forall d net dst f p,
             EvGetUploads p ∈ (Put d net dst f).2 ->
             p = String.append "/api/uploads/" (session_of d dst f)).
  { intros d net dst f p Hin.
    destruct (Put_events _ _ _ _ _ Hin) as (t & _ & [[req Hreq]|Hev]);
      [discriminate|exact Hev]. }
  split; [assumption|]. split; [now apply Hreg|].
  intros p1 p2 H1 H2.
  rewrite (Hreg _ _ _ _ _ H1), (Hreg _ _ _ _ _ H2). now rewrite Hsess.
Qed.

Lemma session_identity_deterministic_witness :
  session_of (sample_drive 500 true) root_dir (sample_file (3 * MiB))
  = session_of (sample_drive 1 false) root_dir
               (FileStreamer.Make "f.bin" (3 * MiB) 0 (MkStream 0 None)) /\
  EvGetUploads "/api/uploads/f73870b4e829f481ae252741a2aab187"
    ∈ (Put (sample_drive 500 true) fresh_remote root_dir (sample_file (3 * MiB))).2 /\
  EvGetUploads "/api/uploads/f73870b4e829f481ae252741a2aab187"
    ∈ (Put (sample_drive 1 false) (resumed_remote []) root_dir
           (FileStreamer.Make "f.bin" (3 * MiB) 0 (MkStream 0 None))).2.
Proof.
  destruct (session_identity_deterministic
              (sample_drive 500 true) (sample_drive 1 false)
              fresh_remote (resumed_remote [])
              root_dir root_dir (sample_file (3 * MiB))
              (FileStreamer.Make "f.bin" (3 * MiB) 0 (MkStream 0 None))
              eq_refl eq_refl eq_refl eq_refl) as (H1 & _ & _).
  split; [exact H1|]. split; vm_compute; find_event.
Defined.

(** ** Chunks in order *)

Lemma seqZ_to_nat m n : seqZ m (Z.of_nat (Z.to_nat n)) = seqZ m n.
Proof. unfold seqZ. now rewrite Nat2Z.id. Qed.

(** The chunks a run handles are the first [j] chunks of the plan, in
    order, and all of them once the file is committed. *)
Lemma Put_handled d net dstDir f :
  exists j,
    handled_chunks (Put d net dstDir f).2 = seqZ 1 j /\
    (forall t req, planned_chunks d f = Some t ->
                   EvPostFiles req ∈ (Put d net dstDir f).2 -> seqZ 1 j = seqZ 1 t).
Proof.
  destruct (Put_run d net dstDir f)
    as [Hs|Hs Hp|t j stj err st Hs Hp Hj HI Hreach Hstep|t st Hs Hp Hl HI].
  - exists 0. split; [reflexivity|]. intros t req _ Hin. inversion Hin.
  - exists 0. split; [reflexivity|]. intros t req _ Hin. inversion Hin.
  - exists j.
    destruct (step_stops _ _ _ _ _ _ _ _ _ _ _ _ HI Hstep) as (n & sent & Htr & _ & Hk).
    pose proof (inv_events _ _ _ _ _ _ _ _ _ HI) as He.
    destruct HI as [Hpos Hh _ _ _ _ _].
    split.
    + rewrite Htr. unfold handled_chunks in *. rewrite omap_app, Hh. simpl.
      replace j with ((j - 1) + 1) at 3 by lia. rewrite seqZ_app by lia.
      now replace (1 + (j - 1)) with j by lia.
    + intros t' req _ Hin. exfalso. rewrite Htr in Hin.
      apply elem_of_app in Hin as [Hin|Hin].
      * rewrite Forall_forall in He. exact (He _ Hin).
      * apply list_elem_of_singleton in Hin. discriminate.
  - exists t. destruct HI as [Hpos Hh _ _ _ _ _]. split.
    + unfold handled_chunks in *. rewrite omap_app, Hh. simpl. rewrite app_nil_r.
      replace (1 + Z.of_nat (Z.to_nat t) - 1) with (Z.of_nat (Z.to_nat t)) by lia.
      apply seqZ_to_nat.
    + intros t' req Hp' _. congruence.
Qed.

(** What the answer to the create-file request makes of the run. *)
Lemma commit_outcome net dstDir f req :
  (exists body info,
      post_files net req = Response 200 body (inr info) /\
      commit net dstDir f req
      = Returned (Object.Make (FileInfo.Id info) (FileStreamer.Name f)
                    (FileStreamer.Size f) (FileInfo.ModTime info) false
                    (Join (parentPath_of dstDir) (FileStreamer.Name f))
                    (FileInfo.ParentId info))) \/
  (exists err, create_rejected (post_files net req) err /\
               commit net dstDir f req = Failed err).
Proof.
  unfold commit. destruct (post_files net req) as [err|status body [err|info]].
  - right. eexists. split; [constructor|reflexivity].
  - right. destruct (Z.eqb_spec status 200) as [->|Hs]; simpl;
      eexists; (split; [now constructor|reflexivity]).
  - destruct (Z.eqb_spec status 200) as [->|Hs]; simpl.
    + left. eauto.
    + right. eexists. split; [now constructor|reflexivity].
Qed.

Lemma committed_handled d net dstDir f t st :
  inv_of d net dstDir f t (1 + Z.of_nat (Z.to_nat t)) st ->
  handled_chunks (trace st) = seqZ 1 t /\ Forall (upload_accepted net) (trace st).
Proof.
  intros [_ Hh _ Ha _ _ _]. split; [|exact Ha].
  rewrite Hh. replace (1 + Z.of_nat (Z.to_nat t) - 1) with (Z.of_nat (Z.to_nat t)) by lia.
  apply seqZ_to_nat.
Qed.

Lemma transferred_all tr :
  (forall k n w, EvDiscard k n w ∉ tr) -> transferred_chunks tr = handled_chunks tr.
Proof.
  unfold transferred_chunks, handled_chunks.
  induction tr as [|e tr IH]; intros H; [reflexivity|].
  assert (Htl : forall k n w, EvDiscard k n w ∉ tr).
  { intros k n w Hin. apply (H k n w). now apply elem_of_cons; right. }
  specialize (IH Htl).
  destruct e as [p|k n w|q|k u q n sent|req]; cbn; rewrite ?IH; try reflexivity.
  exfalso. apply (H k n w). apply elem_of_cons. now left.
Qed.

(** ** A registry that cannot be read *)

Lemma unavailable_no_parts r : registry_unavailable r -> existingChunks_of r = ∅.
Proof.
  destruct r as [err|status body [err|parts]]; simpl; try reflexivity.
  intros [H|[err H]]; [|discriminate].
  apply Z.eqb_neq in H. now rewrite H.
Qed.

(** C6. When the registry request fails (transport error, status other
    than 200, or a body that does not decode) [Put] does not stop: it goes
    on exactly as it does when the registry answers that it holds no part.
    No chunk is skipped and the chunks are sent in order from the first.
    For a size that is not negative and a plan of [t] chunks the run ends in
    one of two ways. Either every chunk from 1 to [t] has been sent and its
    answer accepted, and the last call is the create-file request, whose
    answer decides what [Put] returns. Or the last call is the upload of a
    chunk [k] of the plan, the chunks before it have been sent and accepted,
    and the answer to that upload is rejected with the error [Put] returns.
    So the run fails only where an upload or the create-file request is
    rejected, never for the registry; and when every upload is accepted,
    every planned chunk is transferred and the file is committed. *)
Theorem registry_failure_is_fresh_start d net dstDir f :
  registry_unavailable (get_uploads net (registry_path d dstDir f)) ->
  Put d net dstDir f = Put d (with_registry net no_parts) dstDir f /\
  (forall k n w, EvDiscard k n w ∉ (Put d net dstDir f).2) /\
  (exists j, transferred_chunks (Put d net dstDir f).2 = seqZ 1 j) /\
  (forall t req, planned_chunks d f = Some t ->
                 EvPostFiles req ∈ (Put d net dstDir f).2 ->
                 transferred_chunks (Put d net dstDir f).2 = seqZ 1 t) /\
  (forall t, 0 <= FileStreamer.Size f -> planned_chunks d f = Some t ->
     (exists before req,
         (Put d net dstDir f).2 = before ++ [EvPostFiles req] /\
         transferred_chunks before = seqZ 1 t /\
         Forall (upload_accepted net) before /\
         (Put d net dstDir f).1 = commit net dstDir f req /\
         (forall err, (Put d net dstDir f).1 = Failed err ->
                      create_rejected (post_files net req) err)) \/
     (exists before k u q n sent err,
         (Put d net dstDir f).2 = before ++ [EvPostUpload k u q n sent] /\
         1 <= k <= t /\
         transferred_chunks before = seqZ 1 (k - 1) /\
         Forall (upload_accepted net) before /\
         rejected (post_upload net u q sent) err /\
         (Put d net dstDir f).1 = Failed err)) /\
  (forall t, 0 <= FileStreamer.Size f -> planned_chunks d f = Some t ->
     (forall k u q n sent,
         EvPostUpload k u q n sent ∈ (Put d net dstDir f).2 ->
         exists part, accepted (post_upload net u q sent) part) ->
     transferred_chunks (Put d net dstDir f).2 = seqZ 1 t /\
     exists req, last (Put d net dstDir f).2 = Some (EvPostFiles req)).
Proof.
  intros Hun.
  assert (Hempty : registry_of d net dstDir f = ∅).
  { unfold registry_of. now apply unavailable_no_parts. }
  assert (Hnone : forall k n w, EvDiscard k n w ∉ (Put d net dstDir f).2).
  { intros k n w Hin.
    destruct (Put_events _ _ _ _ _ Hin) as (t & _ & [[req Hreq]|Hev]); [discriminate|].
    simpl in Hev. destruct Hev as (p & Hp & _). rewrite Hempty in Hp.
    now rewrite lookup_empty in Hp. }
  assert (Hends : forall t, 0 <= FileStreamer.Size f -> planned_chunks d f = Some t ->
     (exists before req,
         (Put d net dstDir f).2 = before ++ [EvPostFiles req] /\
         transferred_chunks before = seqZ 1 t /\
         Forall (upload_accepted net) before /\
         (Put d net dstDir f).1 = commit net dstDir f req /\
         (forall err, (Put d net dstDir f).1 = Failed err ->
                      create_rejected (post_files net req) err)) \/
     (exists before k u q n sent err,
         (Put d net dstDir f).2 = before ++ [EvPostUpload k u q n sent] /\
         1 <= k <= t /\
         transferred_chunks before = seqZ 1 (k - 1) /\
         Forall (upload_accepted net) before /\
         rejected (post_upload net u q sent) err /\
         (Put d net dstDir f).1 = Failed err)).
  { intros t HS Hp.
    assert (Hpart : forall before e,
               (Put d net dstDir f).2 = before ++ [e] ->
               transferred_chunks before = handled_chunks before).
    { intros before e Htr. apply transferred_all. intros k n w Hin.
      apply (Hnone k n w). rewrite Htr. apply elem_of_app. now left. }
    pose proof (Put_run d net dstDir f) as Hrun.
    destruct (Put d net dstDir f) as [out tr]. simpl in *.
    inversion Hrun as [Hs|Hs Hp'|t' j stj err st Hs Hp' Hj HI Hreach Hstep
                      |t' st Hs Hp' Hl HI]; subst.
    - lia.
    - congruence.
    - assert (t' = t) by congruence. subst t'. right.
      destruct (step_stops _ _ _ _ _ _ _ _ _ _ _ _ HI Hstep) as (n & sent & Htr & Hrej & _).
      eexists (trace stj), j, _, _, n, sent, err.
      split; [exact Htr|]. split; [exact Hj|].
      split; [rewrite (Hpart _ _ Htr); exact (inv_handled _ _ _ _ _ _ _ _ _ HI)|].
      split; [exact (inv_accepted _ _ _ _ _ _ _ _ _ HI)|].
      split; [exact Hrej|reflexivity].
    - assert (t' = t) by congruence. subst t'. left.
      destruct (committed_handled _ _ _ _ _ _ HI) as [Hh Ha].
      eexists (trace st), _.
      split; [reflexivity|]. split; [rewrite (Hpart _ _ eq_refl); exact Hh|].
      split; [exact Ha|]. split; [reflexivity|].
      intros err Herr.
      destruct (commit_outcome net dstDir f (createFileReq_of d dstDir f (partsToCommit st)))
        as [(body & info & _ & Hc)|(err' & Hrej & Hc)]; rewrite Hc in Herr;
        [discriminate|].
      inversion Herr; subst err'. exact Hrej. }
  split; [|split; [assumption|]].
  - unfold Put. unfold registry_of in Hempty.
    destruct (FileStreamer.Size f <? 0); [reflexivity|].
    destruct (totalChunks_of (FileStreamer.Size f) (chunkSize_of d)); [|reflexivity].
    rewrite Hempty. reflexivity.
  - rewrite (transferred_all _ Hnone).
    destruct (Put_handled d net dstDir f) as (j & Hj & Hall).
    split; [now exists j|].
    split; [intros t req Hp Hin; rewrite Hj; eapply Hall; eauto|].
    split; [exact Hends|].
    intros t HS Hp Hacc.
    destruct (Hends t HS Hp)
      as [(before & req & Htr & Hh & _)
         |(before & k & u & q & n & sent & err & Htr & _ & _ & _ & Hrej & _)].
    + split.
      * rewrite <- (transferred_all _ Hnone), Htr.
        unfold transferred_chunks in *. rewrite omap_app, Hh. simpl. apply app_nil_r.
      * exists req. rewrite Htr. apply last_snoc.
    + exfalso.
      destruct (Hacc k u q n sent) as (part & [body Hb] & Hid).
      { rewrite Htr. apply elem_of_app. right. apply list_elem_of_here. }
      rewrite Hb in Hrej. inversion Hrej; subst; congruence.
Qed.

Lemma registry_failure_is_fresh_start_witness :
  Put (sample_drive 1 false) fresh_remote root_dir (sample_file (3 * MiB))
  = Put (sample_drive 1 false) (with_registry fresh_remote no_parts) root_dir
        (sample_file (3 * MiB)) /\
  exists before req,
    (Put (sample_drive 1 false) fresh_remote root_dir (sample_file (3 * MiB))).2
    = before ++ [EvPostFiles req] /\
    transferred_chunks before = [1; 2; 3] /\
    (Put (sample_drive 1 false) fresh_remote root_dir (sample_file (3 * MiB))).1
    = commit fresh_remote root_dir (sample_file (3 * MiB)) req.
Proof.
  destruct (registry_failure_is_fresh_start
              (sample_drive 1 false) fresh_remote root_dir (sample_file (3 * MiB)))
    as (H1 & _ & _ & _ & H5 & _).
  { simpl. left. lia. }
  split; [exact H1|].
  destruct (H5 3)
    as [(before & req & Htr & Hh & _ & Hout & _)
       |(before & k & u & q & n & sent & err & _ & _ & _ & _ & _ & Hout)].
  - vm_compute. discriminate.
  - reflexivity.
  - exists before, req. split; [exact Htr|]. split; [exact Hh|exact Hout].
  - vm_compute in Hout. discriminate.
Defined.

(** ** A rejected chunk upload *)

Lemma rejected_functional r e1 e2 : rejected r e1 -> rejected r e2 -> e1 = e2.
Proof.
  intros H1 H2. inversion H1; subst; inversion H2; subst; congruence.
Qed.

Lemma rejected_not_accepted r err part : rejected r err -> accepted r part -> False.
Proof.
  intros Hr [[body Hb] Hid]. subst r. inversion Hr; subst; congruence.
Qed.

Lemma upload_is_handled tr k u q n sent :
  EvPostUpload k u q n sent ∈ tr -> k ∈ handled_chunks tr.
Proof.
  intros Hin. unfold handled_chunks. apply list_elem_of_omap.
  exists (EvPostUpload k u q n sent). split; [assumption|reflexivity].
Qed.

(** C2, as the code has it. When the answer to the upload of a chunk is
    rejected (transport error, status other than 200, a record whose part
    id is zero or missing, or a body that does not decode) [Put] stops at
    once: that upload is the last event of the run, so no later chunk is
    attempted and no create-file request is made, every upload of the run
    is for that chunk or an earlier one, and [Put] returns the error made
    from the rejected answer alone. *)
Theorem rejected_upload_aborts d net dstDir f k u q n sent err :
  EvPostUpload k u q n sent ∈ (Put d net dstDir f).2 ->
  rejected (post_upload net u q sent) err ->
  (Put d net dstDir f).1 = Failed err /\
  (exists before, (Put d net dstDir f).2 = before ++ [EvPostUpload k u q n sent]) /\
  (forall req, EvPostFiles req ∉ (Put d net dstDir f).2) /\
  (forall k' u' q' n' sent',
      EvPostUpload k' u' q' n' sent' ∈ (Put d net dstDir f).2 -> k' <= k).
Proof.
  intros Hin Hrej.
  assert (Hold : forall t j st, inv_of d net dstDir f t j st ->
                                EvPostUpload k u q n sent ∈ trace st -> False).
  { intros t j st HI Hin'. destruct HI as [_ _ _ Ha _ _ _].
    rewrite Forall_forall in Ha. destruct (Ha _ Hin') as [part Hacc].
    eapply rejected_not_accepted; eauto. }
  destruct (Put_run d net dstDir f)
    as [Hs|Hs Hp|t j stj err' st Hs Hp Hj HI Hreach Hstep|t st Hs Hp Hl HI].
  - inversion Hin.
  - inversion Hin.
  - destruct (step_stops _ _ _ _ _ _ _ _ _ _ _ _ HI Hstep) as (n0 & sent0 & Htr & Hrej' & Hk).
    rewrite Htr in *.
    apply elem_of_app in Hin as [Hin|Hin]; [exfalso; eapply Hold; eauto|].
    apply list_elem_of_singleton in Hin. inversion Hin; subst k u q n sent.
    pose proof (rejected_functional _ _ _ Hrej Hrej'). subst err'.
    split; [reflexivity|]. split; [now exists (trace stj)|]. split.
    + intros req Hreq. apply elem_of_app in Hreq as [Hreq|Hreq].
      * destruct HI as [_ _ He _ _ _ _]. rewrite Forall_forall in He. exact (He _ Hreq).
      * apply list_elem_of_singleton in Hreq. discriminate.
    + intros k' u' q' n' sent' Hin'. apply elem_of_app in Hin' as [Hin'|Hin'].
      * apply upload_is_handled in Hin'.
        destruct HI as [_ Hh _ _ _ _ _]. rewrite Hh in Hin'.
        apply elem_of_seqZ in Hin'. lia.
      * apply list_elem_of_singleton in Hin'. inversion Hin'. lia.
  - exfalso. apply elem_of_app in Hin as [Hin|Hin]; [eapply Hold; eauto|].
    apply list_elem_of_singleton in Hin. discriminate.
Qed.

Lemma rejected_upload_aborts_witness :
  (Put (sample_drive 1 false) (no_part_id_from 2) root_dir (sample_file (3 * MiB))).1
  = Failed ErrUploadNoPartId /\
  transferred_chunks
    (Put (sample_drive 1 false) (no_part_id_from 2) root_dir (sample_file (3 * MiB))).2
  = [1; 2] /\
  forall req,
    EvPostFiles req ∉
      (Put (sample_drive 1 false) (no_part_id_from 2) root_dir (sample_file (3 * MiB))).2.
Proof.
  destruct (rejected_upload_aborts
              (sample_drive 1 false) (no_part_id_from 2) root_dir (sample_file (3 * MiB))
              2 "https://td.example/api/uploads/f73870b4e829f481ae252741a2aab187"
              (MkQuery "f.bin.part.002" "f.bin" "2" "100123" "false") MiB MiB
              ErrUploadNoPartId) as (H1 & _ & H3 & _).
  - vm_compute. find_event.
  - vm_compute. now constructor.
  - split; [exact H1|]. split; [reflexivity|exact H3].
Defined.

(** C2, the part that fails: the error [Put] returns does not tell which
    chunk was rejected. The upload that answers without part id returns the
    same error whether it is chunk 1 or chunk 2 that it rejects. *)
Lemma rejected_upload_error_is_anonymous :
  (Put (sample_drive 1 false) (no_part_id_from 1) root_dir (sample_file (3 * MiB))).1
  = Failed ErrUploadNoPartId /\
  transferred_chunks
    (Put (sample_drive 1 false) (no_part_id_from 1) root_dir (sample_file (3 * MiB))).2
  = [1] /\
  (Put (sample_drive 1 false) (no_part_id_from 2) root_dir (sample_file (3 * MiB))).1
  = Failed ErrUploadNoPartId /\
  transferred_chunks
    (Put (sample_drive 1 false) (no_part_id_from 2) root_dir (sample_file (3 * MiB))).2
  = [1; 2].
Proof. vm_compute. repeat split. Qed.

(** ** Skipping a chunk *)

Lemma transferred_none tr :
  (forall k u q n sent, EvPostUpload k u q n sent ∉ tr) -> transferred_chunks tr = [].
Proof.
  unfold transferred_chunks.
  induction tr as [|e tr IH]; intros H; [reflexivity|].
  assert (Htl : forall k u q n sent, EvPostUpload k u q n sent ∉ tr).
  { intros k u q n sent Hin. apply (H k u q n sent). now apply elem_of_cons; right. }
  specialize (IH Htl).
  destruct e as [p|k n w|q|k u q n sent|req]; cbn; rewrite ?IH; try reflexivity.
  exfalso. apply (H k u q n sent). apply elem_of_cons. now left.
Qed.

(** C10. When the registry holds chunk [k], the iteration never fails,
    whatever the byte source does: [Put] drops the result of the discard.
    If the source holds fewer bytes than the recorded size, the discard
    writes fewer bytes and reports an error ([io.EOF] or the source's read
    error), and still the part is kept, [uploadedSize] grows by the whole
    recorded size (it is exactly their sum when that fits [int64]), the
    progress is reported from it, and the loop goes on with chunk [k + 1].
    So a run whose chunks are all in the registry reaches the create-file
    request without sending anything, whatever the byte source delivers. *)
Theorem skip_ignores_discard_outcome d net dstDir f t k p st todo :
  registry_of d net dstDir f !! k = Some p ->
  let r := CopyN_Discard (file st) (PartFile.Size p) in
  let uploaded := add64 (uploadedSize st) (PartFile.Size p) in
  let st' :=
    MkLoop r.1 (partsToCommit st ++ [p]) uploaded
           (trace st ++ [EvDiscard k (PartFile.Size p) r.2.1;
                         EvProgress (percent_of uploaded (FileStreamer.Size f))]) in
  step_of d net dstDir f t k st = inr st' /\
  chunk_loop d net (FileStreamer.Name f) (FileStreamer.Size f) (session_of d dstDir f)
             (chunkSize_of d) t (registry_of d net dstDir f) (S todo) k st
  = chunk_loop d net (FileStreamer.Name f) (FileStreamer.Size f) (session_of d dstDir f)
               (chunkSize_of d) t (registry_of d net dstDir f) todo (k + 1) st' /\
  (in_int64 (uploadedSize st + PartFile.Size p) ->
   uploaded = uploadedSize st + PartFile.Size p) /\
  (0 <= avail (file st) < PartFile.Size p ->
   r.2.1 = avail (file st) /\ r.2.1 < PartFile.Size p /\ exists e, r.2.2 = Some e) /\
  ((forall j, 1 <= j <= t -> is_Some (registry_of d net dstDir f !! j)) ->
   0 <= FileStreamer.Size f -> planned_chunks d f = Some t ->
   transferred_chunks (Put d net dstDir f).2 = [] /\
   exists req, last (Put d net dstDir f).2 = Some (EvPostFiles req)).
Proof.
  intros Hk r uploaded st'.
  assert (Hstep : step_of d net dstDir f t k st = inr st').
  { unfold step_of. now rewrite (step_existing _ _ _ _ _ _ _ _ k st p Hk). }
  split; [exact Hstep|]. split.
  { simpl. unfold step_of in Hstep. now rewrite Hstep. }
  split.
  { intros Hr. unfold uploaded, add64. now apply wrap64_id. }
  split.
  { intros [H0 Hlt]. unfold r, CopyN_Discard.
    destruct (PartFile.Size p <=? 0) eqn:E; [apply Z.leb_le in E; lia|].
    simpl. unfold limited.
    replace (Z.max 0 (Z.min (PartFile.Size p) (avail (file st)))) with (avail (file st)) by lia.
    split; [reflexivity|]. split; [assumption|].
    destruct (avail (file st) =? PartFile.Size p) eqn:E'; [apply Z.eqb_eq in E'; lia|].
    eauto. }
  intros Hall Hs Hp.
  destruct (Put_run d net dstDir f)
    as [Hs'|Hs' Hp'|t' j stj err' st0 Hs' Hp' Hj HI Hreach Hstop|t' st0 Hs' Hp' Hl HI].
  - lia.
  - congruence.
  - exfalso. assert (t' = t) by congruence. subst t'.
    destruct (step_stops _ _ _ _ _ _ _ _ _ _ _ _ HI Hstop) as (n0 & sent0 & _ & _ & Hnone).
    destruct (Hall j Hj) as [q Hq]. unfold registry_of in *. congruence.
  - assert (t' = t) by congruence. subst t'. split.
    + apply transferred_none. intros j u q n sent Hin.
      apply elem_of_app in Hin as [Hin|Hin];
        [|apply list_elem_of_singleton in Hin; discriminate].
      pose proof (upload_is_handled _ _ _ _ _ _ Hin) as Hj.
      destruct HI as [_ Hh He _ _ _ _]. rewrite Hh in Hj.
      apply elem_of_seqZ in Hj.
      rewrite Forall_forall in He. destruct (He _ Hin) as (Hnone & _).
      destruct (Hall j) as [q' Hq]; [lia|]. unfold registry_of in *. congruence.
    + eexists. apply last_snoc.
Qed.

Lemma skip_ignores_discard_outcome_witness :
  (CopyN_Discard (FileStreamer.reader broken_file) MiB).2
  = (0, Some "connection reset"%string) /\
  (exists st',
      step_of (sample_drive 1 false) complete_remote root_dir broken_file 3 1
              (initial_state (sample_drive 1 false) root_dir broken_file)
      = inr st' /\ uploadedSize st' = MiB) /\
  transferred_chunks (Put (sample_drive 1 false) complete_remote root_dir broken_file).2
  = [] /\
  exists req,
    last (Put (sample_drive 1 false) complete_remote root_dir broken_file).2
    = Some (EvPostFiles req).
Proof.
  destruct (skip_ignores_discard_outcome
              (sample_drive 1 false) complete_remote root_dir broken_file 3 1
              (held_part 1 MiB)
              (initial_state (sample_drive 1 false) root_dir broken_file) 0)
    as (H1 & _ & H3 & _ & H5).
  { vm_compute. reflexivity. }
  split; [reflexivity|]. split.
  { eexists. split; [exact H1|]. apply H3. vm_compute. split; discriminate. }
  apply H5; [|vm_compute; discriminate|reflexivity].
  intros j Hj. assert (Hc : j = 1 \/ j = 2 \/ j = 3) by lia.
  destruct Hc as [->|[->| ->]]; vm_compute; eauto.
Defined.

(** ** Sorting the parts *)

Lemma insert_part_perm p l : Permutation (insert_part p l) (p :: l).
Proof.
  induction l as [|q l IH]; simpl; [reflexivity|].
  destruct (PartFile.PartNo p <=? PartFile.PartNo q); [reflexivity|].
  rewrite IH. apply perm_swap.
Qed.

Lemma sort_Slice_perm l : Permutation (sort_Slice l) l.
Proof.
  induction l as [|p l IH]; simpl; [reflexivity|].
  rewrite insert_part_perm. now constructor.
Qed.

Lemma insert_part_sorted p l :
  StronglySorted by_number l -> StronglySorted by_number (insert_part p l).
Proof.
  induction 1 as [|q l Hs IH Hq]; simpl.
  - repeat constructor.
  - destruct (PartFile.PartNo p <=? PartFile.PartNo q) eqn:E.
    + apply Z.leb_le in E. constructor; [now constructor|].
      constructor; [exact E|].
      eapply Forall_impl; [exact Hq|]. unfold by_number. intros; simpl in *; lia.
    + apply Z.leb_gt in E. constructor; [assumption|].
      rewrite Forall_forall in *. intros x Hx.
      apply list_elem_of_In in Hx.
      apply (Permutation_in _ (insert_part_perm p l)) in Hx as [->|Hx].
      * unfold by_number. lia.
      * apply Hq. now apply list_elem_of_In.
Qed.

(** The model of [sort.Slice] does sort: its result is an arrangement of
    the parts in ascending part number. *)
Lemma sort_Slice_sorted l : StronglySorted by_number (sort_Slice l).
Proof.
  induction l as [|p l IH]; simpl; [constructor|]. now apply insert_part_sorted.
Qed.

(** Parts whose numbers increase strictly are left as they are ... *)
Lemma sort_Slice_increasing l :
  StronglySorted by_number_strict l -> sort_Slice l = l.
Proof.
  induction 1 as [|p l Hs IH Hp]; simpl; [reflexivity|].
  rewrite IH. destruct l as [|q l]; [reflexivity|]. simpl.
  apply Forall_cons in Hp as [Hq _]. unfold by_number_strict in Hq.
  assert (E : (PartFile.PartNo p <=? PartFile.PartNo q) = true) by (apply Z.leb_le; lia).
  now rewrite E.
Qed.

(** ... and by any sort at all: they have one sorted arrangement only, so
    the order [sort.Slice] leaves among equal numbers plays no part. *)
Lemma sorted_arrangement_unique l l' :
  StronglySorted by_number_strict l ->
  Permutation l l' -> StronglySorted by_number l' -> l' = l.
Proof.
  intros Hl. revert l'. induction Hl as [|p l Hs IH Hp]; intros l' Hperm Hl'.
  - now apply Permutation_nil in Hperm.
  - destruct l' as [|x l']; [now apply Permutation_sym, Permutation_nil in Hperm|].
    assert (Hx : x = p).
    { assert (Hin : In x (p :: l)).
      { apply (Permutation_in _ (Permutation_sym Hperm)). now left. }
      destruct Hin as [->|Hin]; [reflexivity|exfalso].
      assert (Hlt : by_number_strict p x).
      { rewrite Forall_forall in Hp. apply Hp. now apply list_elem_of_In. }
      assert (Hin' : In p (x :: l')).
      { apply (Permutation_in _ Hperm). now left. }
      destruct Hin' as [->|Hin'].
      - unfold by_number_strict in Hlt. lia.
      - inversion Hl' as [|? ? _ Hall]; subst. rewrite Forall_forall in Hall.
        assert (by_number x p) by (apply Hall; now apply list_elem_of_In).
        unfold by_number, by_number_strict in *. lia. }
    subst x. f_equal. apply IH.
    + now apply Permutation_cons_inv in Hperm.
    + now inversion Hl'.
Qed.

Lemma numbered_increasing l m n :
  map PartFile.PartNo l = seqZ m n -> StronglySorted by_number_strict l.
Proof.
  revert m n. induction l as [|p l IH]; intros m n H; [constructor|].
  assert (Hn : 0 < n).
  { destruct (Z_lt_le_dec 0 n); [assumption|]. rewrite seqZ_nil in H by lia. discriminate. }
  rewrite seqZ_cons in H by lia. simpl in H. inversion H as [[Hp Hl]].
  constructor; [eapply IH; exact Hl|].
  rewrite Forall_forall. intros x Hx. unfold by_number_strict.
  assert (Hin : PartFile.PartNo x ∈ map PartFile.PartNo l).
  { apply list_elem_of_In, in_map. now apply list_elem_of_In. }
  rewrite Hl in Hin. apply elem_of_seqZ in Hin. lia.
Qed.

(** ** The manifest *)

(** A part of the registry sits under its own number. *)
Lemma existing_PartNo r k p :
  existingChunks_of r !! k = Some p -> PartFile.PartNo p = k.
Proof.
  destruct r as [err|status body [err|parts]]; simpl;
    try (rewrite lookup_empty; discriminate).
  destruct (status =? 200); [|rewrite lookup_empty; discriminate].
  assert (Hgen : forall (m : gmap Z PartFile.t),
             (forall k p, m !! k = Some p -> PartFile.PartNo p = k) ->
             forall k p,
               fold_left (fun m part => <[PartFile.PartNo part := part]> m) parts m !! k
               = Some p -> PartFile.PartNo p = k).
  { induction parts as [|part parts IH]; intros m Hm k' p'; simpl; [apply Hm|].
    apply IH. intros k0 p0 H0.
    destruct (decide (PartFile.PartNo part = k0)) as [<-|Hne].
    - rewrite lookup_insert_eq in H0. congruence.
    - rewrite lookup_insert_ne in H0 by assumption. now apply Hm. }
  apply Hgen. intros k0 p0 H0. rewrite lookup_empty in H0. discriminate.
Qed.

Lemma parts_numbered net r tr ks parts :
  reports_chunk_numbers net tr ->
  Forall2 (part_of_chunk net (existingChunks_of r) tr) ks parts ->
  map PartFile.PartNo parts = ks.
Proof.
  intros Hrep. induction 1 as [|k part ks parts Hpart _ IH]; [reflexivity|].
  simpl. f_equal; [|exact IH].
  unfold part_of_chunk in Hpart.
  destruct (existingChunks_of r !! k) as [p|] eqn:E.
  - subst part. eapply existing_PartNo; eauto.
  - destruct Hpart as (u & q & n & sent & Hin & Hacc). eapply Hrep; eauto.
Qed.

(** A run that makes the create-file request has completed its loop, and
    the request is made from the parts the loop collected. *)
Lemma Put_committed d net dstDir f t req :
  planned_chunks d f = Some t ->
  EvPostFiles req ∈ (Put d net dstDir f).2 ->
  exists st,
    inv_of d net dstDir f t (1 + Z.of_nat (Z.to_nat t)) st /\
    (Put d net dstDir f).2 = trace st ++ [EvPostFiles req] /\
    req = createFileReq_of d dstDir f (partsToCommit st) /\
    (Put d net dstDir f).1 = commit net dstDir f req.
Proof.
  intros Hp Hin.
  destruct (Put_run d net dstDir f)
    as [Hs|Hs Hp'|t' j stj err st Hs Hp' Hj HI Hreach Hstep|t' st Hs Hp' Hl HI].
  - inversion Hin.
  - inversion Hin.
  - exfalso.
    destruct (step_stops _ _ _ _ _ _ _ _ _ _ _ _ HI Hstep) as (n & sent & Htr & _ & _).
    rewrite Htr in Hin. apply elem_of_app in Hin as [Hin|Hin].
    + destruct HI as [_ _ He _ _ _ _]. rewrite Forall_forall in He. exact (He _ Hin).
    + apply list_elem_of_singleton in Hin. discriminate.
  - assert (t' = t) by congruence. subst t'.
    apply elem_of_app in Hin as [Hin|Hin].
    + exfalso. destruct HI as [_ _ He _ _ _ _]. rewrite Forall_forall in He.
      exact (He _ Hin).
    + apply list_elem_of_singleton in Hin. inversion Hin as [Hreq].
      exists st. split; [exact HI|]. split; [reflexivity|]. split; reflexivity.
Qed.

Lemma committed_parts d net dstDir f t st :
  inv_of d net dstDir f t (1 + Z.of_nat (Z.to_nat t)) st ->
  forall tr',
    Forall2 (part_of_chunk net (registry_of d net dstDir f) (trace st ++ tr'))
            (seqZ 1 t) (partsToCommit st).
Proof.
  intros HI tr'. destruct HI as [_ _ _ _ Hparts _ _].
  replace (1 + Z.of_nat (Z.to_nat t) - 1) with (Z.of_nat (Z.to_nat t)) in Hparts by lia.
  rewrite seqZ_to_nat in Hparts.
  eapply Forall2_impl; [exact Hparts|]. intros; now apply part_of_chunk_mono.
Qed.

(** The manifest of a committed run: the parts of chunks 1 to the last,
    arranged by the numbers they carry; in chunk order when every accepted
    answer carries the number of its chunk. *)
Lemma commit_manifest d net dstDir f t req :
  planned_chunks d f = Some t ->
  EvPostFiles req ∈ (Put d net dstDir f).2 ->
  exists parts,
    Forall2 (part_of_chunk net (registry_of d net dstDir f) (Put d net dstDir f).2)
            (seqZ 1 t) parts /\
    CreateFileRequest.Parts req = map FilePart_of (sort_Slice parts) /\
    (reports_chunk_numbers net (Put d net dstDir f).2 ->
     map PartFile.PartNo parts = seqZ 1 t /\ sort_Slice parts = parts).
Proof.
  intros Hp Hin.
  destruct (Put_committed _ _ _ _ _ _ Hp Hin) as (st & HI & Htr & Hreq & _).
  pose proof (committed_parts _ _ _ _ _ _ HI [EvPostFiles req]) as Hparts.
  rewrite <- Htr in Hparts.
  exists (partsToCommit st). split; [exact Hparts|]. split; [now subst req|].
  intros Hrep.
  assert (Hno : map PartFile.PartNo (partsToCommit st) = seqZ 1 t).
  { eapply parts_numbered; eauto. }
  split; [exact Hno|].
  apply sort_Slice_increasing. eapply numbered_increasing; eauto.
Qed.

(** C4, as the code has it. When [Put] makes the create-file request,
    the manifest has one entry for each planned chunk. If moreover every
    accepted answer of the run carries the number of the chunk it answers
    (the code sorts by the numbers the service reports, it does not set
    them), the manifest lists, in ascending chunk number and without gap or
    repetition, the part of chunk 1, of chunk 2, ... of the last chunk,
    whichever were reused from the registry and whichever were sent; the
    parts have one sorted arrangement only. *)
Theorem manifest_in_chunk_order d net dstDir f t req :
  planned_chunks d f = Some t ->
  EvPostFiles req ∈ (Put d net dstDir f).2 ->
  length (CreateFileRequest.Parts req) = Z.to_nat t /\
  (reports_chunk_numbers net (Put d net dstDir f).2 ->
   exists parts,
     Forall2 (part_of_chunk net (registry_of d net dstDir f) (Put d net dstDir f).2)
             (seqZ 1 t) parts /\
     map PartFile.PartNo parts = seqZ 1 t /\
     CreateFileRequest.Parts req = map FilePart_of parts /\
     (forall sorted, Permutation parts sorted -> StronglySorted by_number sorted ->
                     sorted = parts)).
Proof.
  intros Hp Hin.
  destruct (commit_manifest _ _ _ _ _ _ Hp Hin) as (parts & Hparts & Hreq & Hord).
  split.
  - rewrite Hreq, length_map, (Permutation_length (sort_Slice_perm _)).
    rewrite <- (Forall2_length _ _ _ Hparts). apply length_seqZ.
  - intros Hrep. destruct (Hord Hrep) as [Hno Hsort]. exists parts.
    repeat split; auto.
    + now rewrite Hreq, Hsort.
    + intros sorted Hperm Hsorted. eapply sorted_arrangement_unique; eauto.
      eapply numbered_increasing; eauto.
Qed.

(** The answers of a run that is written out carry the numbers of their
    chunks. *)
Ltac check_numbers :=
  let Hin := fresh "Hin" in
  let Hacc := fresh "Hacc" in
  let body := fresh "body" in
  let Hb := fresh "Hb" in
  intros ? ? ? ? ? ? Hin Hacc; vm_compute in Hin;
  repeat (apply elem_of_cons in Hin as [Hin|Hin];
          [ try discriminate;
            inversion Hin; subst;
            destruct Hacc as [[body Hb] _]; vm_compute in Hb;
            inversion Hb; reflexivity | ]);
  inversion Hin.

Lemma manifest_in_chunk_order_witness :
  exists req parts,
    EvPostFiles req ∈
      (Put (sample_drive 1 false) (resumed_remote [held_part 2 MiB]) root_dir
           (sample_file (3 * MiB))).2 /\
    length (CreateFileRequest.Parts req) = 3%nat /\
    map PartFile.PartNo parts = [1; 2; 3] /\
    CreateFileRequest.Parts req = map FilePart_of parts.
Proof.
  edestruct (manifest_in_chunk_order
               (sample_drive 1 false) (resumed_remote [held_part 2 MiB]) root_dir
               (sample_file (3 * MiB)) 3) as [Hlen Hord].
  - reflexivity.
  - vm_compute. find_event.
  - destruct Hord as (parts & _ & Hno & Hreq & _); [check_numbers|].
    eexists _, parts. split; [vm_compute; find_event|].
    split; [exact Hlen|]. split; [exact Hno|exact Hreq].
Defined.

(** C4, the part that fails: the manifest follows the part numbers the
    service reports, not the chunks. With chunk 2 in the registry and a
    service that answers the uploads of chunks 1 and 3 with a part id and no
    part number, the part of chunk 3 is committed before the part of chunk 2
    (part id 1000 + k is the part of chunk k). *)
Lemma manifest_follows_reported_numbers :
  handled_chunks
    (Put (sample_drive 1 false) (silent_remote [held_part 2 MiB]) root_dir
         (sample_file (3 * MiB))).2 = [1; 2; 3] /\
  transferred_chunks
    (Put (sample_drive 1 false) (silent_remote [held_part 2 MiB]) root_dir
         (sample_file (3 * MiB))).2 = [1; 3] /\
  committed_ids
    (Put (sample_drive 1 false) (silent_remote [held_part 2 MiB]) root_dir
         (sample_file (3 * MiB))).2 = [[1001; 1003; 1002]].
Proof. vm_compute. repeat split. Qed.

(** ** Parts of the registry *)

(** The chunks a run sends are, among the chunks it handles, those the
    registry lacks. *)
Lemma transferred_filter d net dstDir f :
  transferred_chunks (Put d net dstDir f).2
  = filter (fun k => registry_of d net dstDir f !! k = None)
           (handled_chunks (Put d net dstDir f).2).
Proof.
  assert (Hev : forall e, e ∈ (Put d net dstDir f).2 ->
                match e with
                | EvDiscard k _ _ => is_Some (registry_of d net dstDir f !! k)
                | EvPostUpload k _ _ _ _ => registry_of d net dstDir f !! k = None
                | _ => True
                end).
  { intros e Hin.
    destruct (Put_events _ _ _ _ _ Hin) as (t & _ & [[req ->]|Hev]); [exact I|].
    destruct e; simpl in *; auto.
    - destruct Hev as (p & Hp & _). now exists p.
    - tauto. }
  unfold transferred_chunks, handled_chunks.
  induction (Put d net dstDir f).2 as [|e tr IH]; [reflexivity|].
  assert (He := Hev e (list_elem_of_here _ _)).
  assert (IH' := IH (fun e' H => Hev e' (list_elem_of_further _ _ _ H))).
  destruct e as [p|k n w|q|k u q n sent|req]; cbn; auto.
  - case_decide as Hd; [|exact IH'].
    destruct He as [p Hp]. congruence.
  - case_decide as Hd; [now f_equal|contradiction].
Qed.

Lemma handled_event tr k :
  k ∈ handled_chunks tr ->
  (exists n w, EvDiscard k n w ∈ tr) \/ (exists u q n sent, EvPostUpload k u q n sent ∈ tr).
Proof.
  unfold handled_chunks. rewrite list_elem_of_omap. intros (e & Hin & He).
  destruct e; simpl in He; try discriminate; inversion He; subst; eauto 6.
Qed.

(** C1, as the code has it. A chunk [k] that the registry holds is
    never sent, and when the run comes to it, it is skipped: [Put] asks the
    source to discard exactly the recorded length of the part (the discard
    takes no more than that); the chunks sent are chunks of the plan that
    the registry lacks. In a run that reaches the create-file request every
    chunk of the plan has been handled, the parts of the registry for
    chunks of the plan are in the manifest, and every chunk of the plan that
    the registry lacks has been sent. With three chunks planned and only
    chunk 1 in the registry, chunks 2 and 3 are sent, the manifest has three
    entries, and when the answers carry the numbers 2 and 3 it is the part
    of chunk 1, then the part of chunk 2, then the part of chunk 3. *)
Theorem registry_parts_are_skipped d net dstDir f t :
  planned_chunks d f = Some t ->
  (forall k p,
      registry_of d net dstDir f !! k = Some p ->
      (forall u q n sent, EvPostUpload k u q n sent ∉ (Put d net dstDir f).2) /\
      (k ∈ handled_chunks (Put d net dstDir f).2 ->
       exists w, EvDiscard k (PartFile.Size p) w ∈ (Put d net dstDir f).2 /\
                 0 <= w <= Z.max 0 (PartFile.Size p))) /\
  (forall k u q n sent,
      EvPostUpload k u q n sent ∈ (Put d net dstDir f).2 ->
      1 <= k <= t /\ registry_of d net dstDir f !! k = None) /\
  (forall req,
      EvPostFiles req ∈ (Put d net dstDir f).2 ->
      (forall k, 1 <= k <= t -> k ∈ handled_chunks (Put d net dstDir f).2) /\
      (forall k p, 1 <= k <= t -> registry_of d net dstDir f !! k = Some p ->
                   FilePart_of p ∈ CreateFileRequest.Parts req) /\
      (forall k, 1 <= k <= t -> registry_of d net dstDir f !! k = None ->
                 exists u q n sent, EvPostUpload k u q n sent ∈ (Put d net dstDir f).2) /\
      (t = 3 ->
       (forall k, 1 <= k <= 3 -> is_Some (registry_of d net dstDir f !! k) <-> k = 1) ->
       transferred_chunks (Put d net dstDir f).2 = [2; 3] /\
       length (CreateFileRequest.Parts req) = 3%nat /\
       (reports_chunk_numbers net (Put d net dstDir f).2 ->
        exists p1 r2 r3,
          registry_of d net dstDir f !! 1 = Some p1 /\
          part_of_chunk net (registry_of d net dstDir f) (Put d net dstDir f).2 2 r2 /\
          part_of_chunk net (registry_of d net dstDir f) (Put d net dstDir f).2 3 r3 /\
          CreateFileRequest.Parts req
          = [FilePart_of p1; FilePart_of r2; FilePart_of r3]))).
Proof.
  intros Hp.
  assert (Hev : forall e, e ∈ (Put d net dstDir f).2 ->
                (exists r, e = EvPostFiles r) \/
                loop_event d net (FileStreamer.Name f) (session_of d dstDir f) t
                           (registry_of d net dstDir f) e).
  { intros e He. destruct (Put_events _ _ _ _ _ He) as (t' & Hp' & H).
    assert (t' = t) by congruence. now subst t'. }
  assert (Hup : forall k u q n sent,
             EvPostUpload k u q n sent ∈ (Put d net dstDir f).2 ->
             1 <= k <= t /\ registry_of d net dstDir f !! k = None).
  { intros k u q n sent Hk. split.
    - destruct (Put_run d net dstDir f)
        as [Hs|Hs Hp'|t' j stj err st Hs Hp' Hj HI Hreach Hstep|t' st Hs Hp' Hl HI];
        try (inversion Hk; fail); assert (t' = t) by congruence; subst t'.
      + destruct (step_stops _ _ _ _ _ _ _ _ _ _ _ _ HI Hstep) as (n0 & sent0 & Htr & _ & _).
        rewrite Htr in Hk. apply elem_of_app in Hk as [Hk|Hk].
        * apply upload_is_handled in Hk. destruct HI as [_ Hh _ _ _ _ _].
          rewrite Hh in Hk. apply elem_of_seqZ in Hk. lia.
        * apply list_elem_of_singleton in Hk. inversion Hk; subst. lia.
      + apply elem_of_app in Hk as [Hk|Hk];
          [|apply list_elem_of_singleton in Hk; discriminate].
        apply upload_is_handled in Hk. destruct HI as [_ Hh _ _ _ _ _].
        rewrite Hh in Hk. apply elem_of_seqZ in Hk. lia.
    - destruct (Hev _ Hk) as [[r Hr]|Hl]; [discriminate|]. simpl in Hl. tauto. }
  assert (Hdiscard : forall k n w,
             EvDiscard k n w ∈ (Put d net dstDir f).2 ->
             exists p, registry_of d net dstDir f !! k = Some p /\
                       n = PartFile.Size p /\ 0 <= w <= Z.max 0 n).
  { intros k n w Hd. destruct (Hev _ Hd) as [[r Hr]|Hl]; [discriminate|exact Hl]. }
  split; [|split; [exact Hup|]].
  - intros k p Hreg. split.
    + intros u q n sent Hu. destruct (Hup _ _ _ _ _ Hu) as [_ Hnone]. congruence.
    + intros Hk.
      destruct (handled_event _ _ Hk) as [(n & w & Hd)|(u & q & n & sent & Hu)].
      * destruct (Hdiscard _ _ _ Hd) as (p' & Hp' & -> & Hw).
        assert (p' = p) by congruence. subst p'. eauto.
      * destruct (Hup _ _ _ _ _ Hu) as [_ Hnone]. congruence.
  - intros req Hin.
    destruct (commit_manifest _ _ _ _ _ _ Hp Hin) as (parts & Hparts & Hreq & Hord).
    destruct (Put_handled d net dstDir f) as (j & Hj & Hall).
    rewrite (Hall _ _ Hp Hin) in Hj. clear Hall j.
    assert (Hhandled : forall k, 1 <= k <= t -> k ∈ handled_chunks (Put d net dstDir f).2).
    { intros k Hk. rewrite Hj. apply elem_of_seqZ. lia. }
    split; [exact Hhandled|]. split; [|split].
    + intros k p Hk Hreg.
      rewrite Hreq. apply list_elem_of_fmap_2.
      apply list_elem_of_In. apply (Permutation_in _ (Permutation_sym (sort_Slice_perm _))).
      apply list_elem_of_In.
      assert (Hlk : seqZ 1 t !! Z.to_nat (k - 1) = Some k).
      { apply lookup_seqZ. split; lia. }
      destruct (Forall2_lookup_l _ _ _ _ _ Hparts Hlk) as (part & Hpart & Hpc).
      unfold part_of_chunk in Hpc. rewrite Hreg in Hpc. subst part.
      apply list_elem_of_lookup. eauto.
    + intros k Hk Hnone.
      destruct (handled_event _ _ (Hhandled k Hk)) as [(n & w & Hd)|Hu]; [|exact Hu].
      destruct (Hdiscard _ _ _ Hd) as (p' & Hp' & _). congruence.
    + intros -> Honly.
      assert (H1 : is_Some (registry_of d net dstDir f !! 1)) by (apply Honly; lia).
      assert (H2 : registry_of d net dstDir f !! 2 = None).
      { destruct (registry_of d net dstDir f !! 2) eqn:E; [|reflexivity].
        assert (2 = 1) by (apply Honly; [lia|eauto]). lia. }
      assert (H3 : registry_of d net dstDir f !! 3 = None).
      { destruct (registry_of d net dstDir f !! 3) eqn:E; [|reflexivity].
        assert (3 = 1) by (apply Honly; [lia|eauto]). lia. }
      destruct H1 as [p1 H1].
      change (seqZ 1 3) with [1; 2; 3] in *.
      split; [|split].
      * rewrite transferred_filter, Hj.
        rewrite filter_cons_False by (rewrite H1; discriminate).
        rewrite filter_cons_True by assumption.
        rewrite filter_cons_True by assumption. reflexivity.
      * rewrite Hreq, length_map, (Permutation_length (sort_Slice_perm _)).
        now rewrite <- (Forall2_length _ _ _ Hparts).
      * intros Hrep. destruct (Hord Hrep) as [_ Hsort].
        rewrite Hsort in Hreq.
        inversion Hparts as [|? a ? l1 Ha Hr1]; subst.
        inversion Hr1 as [|? b ? l2 Hb Hr2]; subst.
        inversion Hr2 as [|? c ? l3 Hc Hr3]; subst.
        inversion Hr3; subst.
        exists p1, b, c. repeat split; auto.
        unfold part_of_chunk in Ha. rewrite H1 in Ha. now subst a.
Qed.

Lemma registry_parts_are_skipped_witness :
  (exists w,
      EvDiscard 1 MiB w ∈
        (Put (sample_drive 1 false) (resumed_remote [held_part 1 MiB]) root_dir
             (sample_file (3 * MiB))).2) /\
  transferred_chunks
    (Put (sample_drive 1 false) (resumed_remote [held_part 1 MiB]) root_dir
         (sample_file (3 * MiB))).2 = [2; 3] /\
  committed_ids
    (Put (sample_drive 1 false) (resumed_remote [held_part 1 MiB]) root_dir
         (sample_file (3 * MiB))).2 = [[1001; 1002; 1003]].
Proof.
  edestruct (registry_parts_are_skipped
               (sample_drive 1 false) (resumed_remote [held_part 1 MiB]) root_dir
               (sample_file (3 * MiB)) 3) as (Hskip & _ & Hcommit).
  - reflexivity.
  - edestruct Hcommit as (Hhandled & _ & _ & Hscenario); [vm_compute; find_event|].
    destruct (Hskip 1 (held_part 1 MiB)) as (_ & Hdiscard); [vm_compute; reflexivity|].
    destruct Hdiscard as (w & Hw & _); [apply Hhandled; lia|].
    destruct Hscenario as (Hsent & _ & _); [reflexivity| |].
    { intros k Hk. assert (Hc : k = 1 \/ k = 2 \/ k = 3) by lia.
      destruct Hc as [->|[->| ->]]; vm_compute; split;
        try reflexivity; try discriminate; eauto;
        intros [x Hx]; discriminate. }
    split; [exists w; exact Hw|]. split; [exact Hsent|reflexivity].
Defined.

(** C1, the part that fails: with three chunks planned and only chunk 1
    in the registry, chunks 2 and 3 are sent, but a service that answers
    the uploads without part number gets the part of chunk 1 committed last
    (part id 1000 + k is the part of chunk k). *)
Lemma reused_part_committed_last :
  planned_chunks (sample_drive 1 false) (sample_file (3 * MiB)) = Some 3 /\
  transferred_chunks
    (Put (sample_drive 1 false) (silent_remote [held_part 1 MiB]) root_dir
         (sample_file (3 * MiB))).2 = [2; 3] /\
  committed_ids
    (Put (sample_drive 1 false) (silent_remote [held_part 1 MiB]) root_dir
         (sample_file (3 * MiB))).2 = [[1002; 1003; 1001]].
Proof. vm_compute. repeat split. Qed.

(** ** The plan *)

Lemma wrap64_spec z : exists q, wrap64 z = z - 2 ^ 64 * q /\ in_int64 (wrap64 z).
Proof.
  exists ((z + 2 ^ 63) / 2 ^ 64). split; [|apply wrap64_range].
  unfold wrap64. rewrite Z.mod_eq by lia. lia.
Qed.

(** The chunk size in bytes is a multiple of 1024, whatever the setting. *)
Lemma chunkSize_multiple d :
  exists m, chunkSize_of d = 1024 * m /\ in_int64 (chunkSize_of d).
Proof.
  unfold chunkSize_of, mul64.
  destruct (wrap64_spec (wrap64 (TelDrive.ChunkSize d * 1024) * 1024)) as (q & Hq & Hr).
  exists (wrap64 (TelDrive.ChunkSize d * 1024) - 2 ^ 54 * q). split; [|exact Hr].
  rewrite Hq. lia.
Qed.

Lemma quot_small a b : 0 <= a -> 0 < b -> a < 2 * b -> Z.quot a b <= 1.
Proof.
  intros. rewrite Z.quot_div_nonneg by lia.
  assert (a / b < 2); [|lia]. apply Z.div_lt_upper_bound; lia.
Qed.

Lemma quot_nonpos_l a b : a <= 0 -> 0 < b -> Z.quot a b <= 0 /\ a <= Z.quot a b.
Proof.
  intros. replace a with (- (- a)) by lia. rewrite Z.quot_opp_l by lia.
  rewrite Z.quot_div_nonneg by lia.
  pose proof (Z.div_pos (-a) b).
  assert (- a / b <= - a) by (apply Z.div_le_upper_bound; nia).
  lia.
Qed.

(** Lines 291-292 on every input: either the sum [fileSize + chunkSize - 1]
    fits [int64] with a positive chunk size, and the number of chunks is the
    rounded-up quotient, or one chunk at most is planned. *)
Lemma planning_regular d S t :
  0 <= S -> in_int64 S ->
  totalChunks_of S (chunkSize_of d) = Some t ->
  plan_regular S (chunkSize_of d) t.
Proof.
  intros HS HSr. destruct (chunkSize_multiple d) as (m & Hm & Hcr).
  unfold plan_regular.
  generalize dependent (chunkSize_of d). intros cs Hm Hcr.
  unfold totalChunks_of, div64, sub64, add64.
  destruct (cs =? 0) eqn:E; [discriminate|]. apply Z.eqb_neq in E.
  intros Ht. inversion Ht as [Ht']; clear Ht.
  destruct (wrap64_spec (S + cs)) as (q1 & H1 & R1).
  destruct (wrap64_spec (wrap64 (S + cs) - 1)) as (q2 & H2 & R2).
  set (x := wrap64 (wrap64 (S + cs) - 1)) in *.
  unfold in_int64, min_int64, max_int64 in *.
  destruct (Z_lt_le_dec 0 cs) as [Hpos|Hneg].
  - destruct (Z_le_gt_dec (S + cs - 1) (2 ^ 63 - 1)) as [Hfit|Hover].
    + right. assert (Hx : x = S + cs - 1) by lia.
      rewrite Hx. rewrite Z.quot_div_nonneg by lia.
      split; [lia|]. split; [lia|].
      apply wrap64_id. unfold in_int64, min_int64, max_int64.
      pose proof (Z.div_pos (S + cs - 1) cs).
      assert ((S + cs - 1) / cs <= S + cs - 1) by (apply Z.div_le_upper_bound; nia).
      lia.
    + left. assert (Hx : x = S + cs - 2 ^ 64 - 1) by lia.
      destruct (quot_nonpos_l x cs) as [Hq1 Hq2]; [lia|lia|].
      rewrite wrap64_id by (unfold in_int64, min_int64, max_int64; lia). lia.
  - left. assert (Hc : cs <= -1024) by lia.
    destruct (Z_lt_le_dec x 0) as [Hx|Hx].
    + assert (Hxv : x = S + cs - 1) by lia.
      assert (Hq : Z.quot x cs <= 1 /\ 0 <= Z.quot x cs).
      { replace x with (- (- x)) by lia. replace cs with (- (- cs)) by lia.
        rewrite Z.quot_opp_opp by lia. split.
        - apply quot_small; lia.
        - rewrite Z.quot_div_nonneg by lia. apply Z.div_pos; lia. }
      rewrite wrap64_id by (unfold in_int64, min_int64, max_int64; lia). lia.
    + assert (Hq : Z.quot x cs <= 0 /\ - x <= Z.quot x cs).
      { replace cs with (- (- cs)) by lia. rewrite Z.quot_opp_r by lia.
        rewrite Z.quot_div_nonneg by lia.
        pose proof (Z.div_pos x (- cs)).
        assert (x / - cs <= x) by (apply Z.div_le_upper_bound; nia). lia. }
      rewrite wrap64_id by (unfold in_int64, min_int64, max_int64; lia). lia.
Qed.

Section PlanFacts.

Variables S cs t : Z.
Hypothesis Hregular : plan_regular S cs t.
Hypothesis HS : 0 <= S.
Hypothesis HSr : in_int64 S.

(** Before the last chunk the plan has accounted for less than the file. *)
Lemma before_last k : 1 <= k < t -> 0 < cs /\ cs * k < S.
Proof.
  intros Hk. destruct Hregular as [Ht|(Hcs & Hfit & Ht)]; [lia|].
  split; [assumption|].
  pose proof (Z.mul_div_le (S + cs - 1) cs Hcs) as Hle. rewrite <- Ht in Hle.
  assert (cs * k <= cs * (t - 1)) by nia. lia.
Qed.

Lemma last_start : 1 <= t -> 0 <= cs * (t - 1) <= S.
Proof.
  intros Ht'. destruct (Z.eq_dec t 1) as [->|Hne]; [lia|].
  destruct (before_last (t - 1)) as [Hcs Hlt]; [lia|]. nia.
Qed.

Lemma planned_total_before k :
  1 <= k <= t -> planned_total S cs t (k - 1) = cs * (k - 1).
Proof.
  intros Hk. unfold planned_total.
  destruct (k - 1 =? t) eqn:E; [apply Z.eqb_eq in E; lia|].
  now rewrite andb_false_r.
Qed.

Lemma in_int64_between a : 0 <= a <= S -> in_int64 a.
Proof. unfold in_int64, min_int64, max_int64 in *. lia. Qed.

(** The limit of the body of chunk [k] is the planned length. *)
Lemma limit_planned k :
  1 <= k <= t ->
  chunk_limit S cs t k (planned_total S cs t (k - 1)) = planned_length S cs t k.
Proof.
  intros Hk. unfold chunk_limit, planned_length.
  destruct (k =? t) eqn:E; [|reflexivity].
  apply Z.eqb_eq in E. subst k. rewrite planned_total_before by lia.
  unfold sub64. apply wrap64_id. apply in_int64_between.
  pose proof (last_start ltac:(lia)). lia.
Qed.

(** Adding the planned length of chunk [k] accounts for [k] chunks. *)
Lemma next_total k :
  1 <= k <= t ->
  add64 (planned_total S cs t (k - 1)) (planned_length S cs t k)
  = planned_total S cs t k.
Proof.
  intros Hk. rewrite planned_total_before by lia.
  unfold planned_length, planned_total, add64.
  assert (E0 : (0 <? k) = true) by (apply Z.ltb_lt; lia). rewrite E0. simpl.
  destruct (k =? t) eqn:E.
  - apply Z.eqb_eq in E. subst k.
    replace (cs * (t - 1) + (S - cs * (t - 1))) with S by lia.
    now apply wrap64_id.
  - apply Z.eqb_neq in E.
    replace (cs * (k - 1) + cs) with (cs * k) by lia.
    apply wrap64_id, in_int64_between.
    destruct (before_last k) as [Hcs Hlt]; [lia|]. nia.
Qed.

(** The bytes accounted for never decrease along the plan. *)
Lemma planned_total_mono i j :
  1 <= i <= j -> j <= t ->
  planned_total S cs t i <= planned_total S cs t j.
Proof.
  intros Hi Hj. unfold planned_total.
  assert (Ei : (0 <? i) = true) by (apply Z.ltb_lt; lia).
  assert (Ej : (0 <? j) = true) by (apply Z.ltb_lt; lia).
  rewrite Ei, Ej. simpl.
  destruct (Z.eqb_spec j t) as [E2|E2]; destruct (Z.eqb_spec i t) as [E1|E1]; try lia.
  - destruct (before_last i) as [Hcs Hlt]; lia.
  - destruct (before_last j) as [Hcs Hlt]; [lia|]. nia.
Qed.

End PlanFacts.

(** An iteration of a run whose reused parts have the planned lengths
    keeps the run on the plan. *)
Lemma step_keeps_plan d net fileName uploadID S cs t existing k st st' :
  plan_regular S cs t -> 0 <= S -> in_int64 S ->
  (forall p, existing !! k = Some p -> PartFile.Size p = planned_length S cs t k) ->
  1 <= k <= t ->
  plan_inv S cs t k st ->
  chunk_step d net fileName S uploadID cs t existing k st = inr st' ->
  plan_inv S cs t (k + 1) st'.
Proof.
  intros Hreg HS HSr Hmatch Hk [HU HL HP] Hstep.
  assert (Hnext := next_total S cs t Hreg HSr k Hk).
  assert (Hlim := limit_planned S cs t Hreg HS HSr k Hk).
  destruct (existing !! k) as [p|] eqn:Ek.
  - rewrite (step_existing _ _ _ _ _ _ _ _ k st p Ek) in Hstep.
    inversion Hstep; subst st'; clear Hstep.
    rewrite (Hmatch p eq_refl), HU, Hnext.
    constructor; simpl.
    + f_equal. lia.
    + unfold chunk_lengths in *. rewrite omap_app, HL, seqZ_snoc, map_app by lia.
      reflexivity.
    + unfold progress_values in *. rewrite omap_app, HP, seqZ_snoc, map_app by lia.
      reflexivity.
  - destruct (step_missing d net fileName S uploadID cs t existing k st Ek)
      as [(err & _ & Hs)|(part & _ & Hs)]; rewrite Hs in Hstep; [discriminate|].
    inversion Hstep; subst st'; clear Hstep Hs.
    rewrite HU, Hlim, Hnext.
    constructor; simpl.
    + f_equal. lia.
    + unfold chunk_lengths in *. rewrite !omap_app, HL, seqZ_snoc, map_app by lia.
      simpl. now rewrite app_nil_r.
    + unfold progress_values in *. rewrite !omap_app, HP, seqZ_snoc, map_app by lia.
      simpl. now rewrite app_nil_r.
Qed.

(** The upload that stops a run on the plan has the planned length. *)
Lemma step_stops_on_plan d net fileName uploadID S cs t existing k st err st' :
  plan_regular S cs t -> 0 <= S -> in_int64 S ->
  1 <= k <= t ->
  plan_inv S cs t k st ->
  chunk_step d net fileName S uploadID cs t existing k st = inl (err, st') ->
  exists sent,
    trace st' = trace st ++ [EvPostUpload k (uploadURL d uploadID)
                                         (query_of d net fileName t k)
                                         (planned_length S cs t k) sent].
Proof.
  intros Hreg HS HSr Hk [HU HL HP] Hstep.
  assert (Hlim := limit_planned S cs t Hreg HS HSr k Hk).
  destruct (existing !! k) as [p|] eqn:Ek.
  - rewrite (step_existing _ _ _ _ _ _ _ _ k st p Ek) in Hstep. discriminate.
  - destruct (step_missing d net fileName S uploadID cs t existing k st Ek)
      as [(err' & _ & Hs)|(part & _ & Hs)]; rewrite Hs in Hstep; [|discriminate].
    inversion Hstep; subst. simpl. rewrite HU, Hlim. eauto.
Qed.

(** A run whose reused parts have the planned lengths: it has followed the
    plan for [m] chunks when it commits ([m] is then the whole plan) or when
    the upload of chunk [m + 1] stops it. *)
Lemma Put_follows_plan d net dstDir f t :
  planned_chunks d f = Some t ->
  0 <= FileStreamer.Size f -> in_int64 (FileStreamer.Size f) ->
  registry_matches_plan d net dstDir f t ->
  exists m st,
    0 <= m <= Z.max 0 t /\
    plan_inv (FileStreamer.Size f) (chunkSize_of d) t (m + 1) st /\
    inv_of d net dstDir f t (m + 1) st /\
    ((m = Z.max 0 t /\
      (Put d net dstDir f).2
      = trace st ++ [EvPostFiles (createFileReq_of d dstDir f (partsToCommit st))])
     \/
     (m + 1 <= t /\
      exists u q sent,
        (Put d net dstDir f).2
        = trace st ++ [EvPostUpload (m + 1) u q
                         (planned_length (FileStreamer.Size f) (chunkSize_of d) t (m + 1))
                         sent])).
Proof.
  intros Hp HS HSr Hmatch.
  pose proof (planning_regular d _ t HS HSr Hp) as Hreg.
  set (I := fun k st => inv_of d net dstDir f t k st /\
                        plan_inv (FileStreamer.Size f) (chunkSize_of d) t k st).
  assert (Hinit : I 1 (initial_state d dstDir f)).
  { split; [apply initial_inv|]. constructor; simpl; try reflexivity.
    unfold planned_total. simpl. lia. }
  assert (Hkeep : forall k st st',
             1 <= k < 1 + Z.of_nat (Z.to_nat t) ->
             I k st -> step_of d net dstDir f t k st = inr st' -> I (k + 1) st').
  { intros k st st' Hk [H1 H2] Hstep. split.
    - eapply step_keeps_inv; eauto.
    - eapply step_keeps_plan; eauto; [|lia].
      intros p Hk'. apply Hmatch; [lia|exact Hk']. }
  unfold Put. unfold planned_chunks in Hp. rewrite Hp.
  assert (E : (FileStreamer.Size f <? 0) = false) by (apply Z.ltb_ge; lia).
  rewrite E. fold (registry_of d net dstDir f).
  destruct (run_loop d net dstDir f (registry_of d net dstDir f) t) as [[err st]|st] eqn:Hl;
    unfold run_loop in Hl.
  - eapply (loop_failure _ _ _ _ _ _ _ _ I) in Hl
      as (j & stj & Hj & [HI HP] & _ & Hstep);
      [|exact Hkeep|exact Hinit].
    assert (Hj' : 1 <= j <= t) by lia.
    destruct (step_stops_on_plan _ _ _ _ _ _ _ _ _ _ _ _ Hreg HS HSr Hj' HP Hstep)
      as (sent & Htr).
    exists (j - 1), stj. replace (j - 1 + 1) with j by lia.
    split; [lia|]. split; [exact HP|]. split; [exact HI|].
    right. split; [lia|]. simpl. rewrite Htr. eauto.
  - eapply (loop_invariant _ _ _ _ _ _ _ _ I) in Hl as [HI HP];
      [|exact Hkeep|exact Hinit].
    exists (Z.max 0 t), st.
    replace (1 + Z.of_nat (Z.to_nat t)) with (Z.max 0 t + 1) in * by lia.
    split; [lia|]. split; [exact HP|]. split; [exact HI|].
    left. split; reflexivity.
Qed.

(** Lines 291-292 when nothing overflows: the chunk size in bytes and the
    rounded-up quotient. *)
Lemma chunkSize_regular d :
  0 < TelDrive.ChunkSize d -> TelDrive.ChunkSize d * 1048576 <= max_int64 ->
  chunkSize_of d = TelDrive.ChunkSize d * 1048576.
Proof.
  intros Hpos Hfit. unfold chunkSize_of, mul64, max_int64 in *.
  rewrite (wrap64_id (TelDrive.ChunkSize d * 1024))
    by (unfold in_int64, min_int64, max_int64; lia).
  rewrite wrap64_id by (unfold in_int64, min_int64, max_int64; lia). lia.
Qed.

Lemma totalChunks_regular S C :
  0 <= S -> 0 < C <= max_int64 -> S + C - 1 <= max_int64 ->
  totalChunks_of S C = Some ((S + C - 1) / C).
Proof.
  intros HS HC Hfit. unfold totalChunks_of, div64, sub64, add64.
  destruct (C =? 0) eqn:E; [apply Z.eqb_eq in E; lia|]. f_equal.
  destruct (wrap64_spec (S + C)) as (q1 & H1 & R1).
  destruct (wrap64_spec (wrap64 (S + C) - 1)) as (q2 & H2 & R2).
  assert (Hx : wrap64 (wrap64 (S + C) - 1) = S + C - 1).
  { unfold in_int64, min_int64, max_int64 in *. lia. }
  rewrite Hx, Z.quot_div_nonneg by lia.
  apply wrap64_id. unfold in_int64, min_int64, max_int64 in *.
  pose proof (Z.div_pos (S + C - 1) C).
  assert ((S + C - 1) / C <= S + C - 1) by (apply Z.div_le_upper_bound; nia).
  lia.
Qed.

(** The rounded-up quotient: the least number of chunks that hold the file. *)
Lemma ceiling_bounds S C :
  0 <= S -> 0 < C ->
  ((S + C - 1) / C - 1) * C < S <= (S + C - 1) / C * C /\ 0 <= (S + C - 1) / C.
Proof.
  intros HS HC.
  pose proof (Z.mul_div_le (S + C - 1) C HC).
  pose proof (Z.mul_succ_div_gt (S + C - 1) C HC).
  pose proof (Z.div_pos (S + C - 1) C). nia.
Qed.

Lemma total_app l1 l2 : total (l1 ++ l2) = total l1 + total l2.
Proof. unfold total. induction l1 as [|x l1 IH]; simpl; lia. Qed.

(** The lengths of the plan: the chunk size for every chunk before the
    last, and their sum with the last length is the size of the file. *)
Lemma plan_before_last S C t j :
  0 <= j < t ->
  map (planned_length S C t) (seqZ 1 j) = replicate (Z.to_nat j) C.
Proof.
  intros Hj. rewrite <- (Z2Nat.id j) at 1 by lia.
  assert (Hn : Z.of_nat (Z.to_nat j) < t) by lia. clear Hj.
  induction (Z.to_nat j) as [|n IH]; [reflexivity|].
  rewrite seqZ_S, map_app, IH by lia. simpl.
  unfold planned_length.
  destruct (Z.eqb_spec (1 + Z.of_nat n) t); [lia|].
  change (C :: replicate n C) with (replicate (Datatypes.S n) C).
  now rewrite replicate_S_end.
Qed.

Lemma total_replicate n C : total (replicate n C) = Z.of_nat n * C.
Proof. unfold total. induction n as [|n IH]; simpl; lia. Qed.

Lemma plan_lengths S C t :
  1 <= t ->
  map (planned_length S C t) (seqZ 1 t)
  = replicate (Z.to_nat (t - 1)) C ++ [S - C * (t - 1)].
Proof.
  intros Ht. replace t with ((t - 1) + 1) at 2 by lia.
  rewrite seqZ_app, map_app, plan_before_last by lia. f_equal.
  replace (1 + (t - 1)) with t by lia. simpl.
  unfold planned_length. now rewrite Z.eqb_refl.
Qed.

Lemma ceil_div_rounding S C : 0 < C -> (S + C - 1) / C = ceil_div S C.
Proof.
  intros HC. unfold ceil_div.
  pose proof (Z.mul_div_le (S + C - 1) C HC).
  pose proof (Z.mul_succ_div_gt (S + C - 1) C HC).
  pose proof (Z.mul_div_le (- S) C HC).
  pose proof (Z.mul_succ_div_gt (- S) C HC).
  nia.
Qed.

(** C3, as the code has it. For a file of [S >= 0] bytes and a chunk
    size setting of [M > 0] MiB, [C = M * 1048576] bytes, such that [C]
    and [S + C - 1] fit [int64], [Put] plans [ceil(S / C)] chunks, the least
    number of chunks of [C] bytes that hold the file. A run that reaches the
    create-file request and whose reused parts, if any, have the planned
    lengths has handled that many chunks, each but the last of length [C],
    the last of length [S - C * (ceil(S / C) - 1)], which is positive and at
    most [C]; the lengths add up to [S]. With [S = 0] there is no chunk. *)
Theorem chunk_plan d net dstDir f :
  0 <= FileStreamer.Size f ->
  0 < TelDrive.ChunkSize d ->
  chunk_bytes d <= max_int64 ->
  FileStreamer.Size f + chunk_bytes d - 1 <= max_int64 ->
  planned_chunks d f = Some (ceil_div (FileStreamer.Size f) (chunk_bytes d)) /\
  (ceil_div (FileStreamer.Size f) (chunk_bytes d) - 1) * chunk_bytes d
    < FileStreamer.Size f
    <= ceil_div (FileStreamer.Size f) (chunk_bytes d) * chunk_bytes d /\
  (registry_matches_plan d net dstDir f (ceil_div (FileStreamer.Size f) (chunk_bytes d)) ->
   forall req,
     EvPostFiles req ∈ (Put d net dstDir f).2 ->
     Z.of_nat (length (chunk_lengths (Put d net dstDir f).2))
     = ceil_div (FileStreamer.Size f) (chunk_bytes d) /\
     total (chunk_lengths (Put d net dstDir f).2) = FileStreamer.Size f /\
     (forall i, (i + 1 < length (chunk_lengths (Put d net dstDir f).2))%nat ->
                chunk_lengths (Put d net dstDir f).2 !! i = Some (chunk_bytes d)) /\
     (forall x, last (chunk_lengths (Put d net dstDir f).2) = Some x ->
                x = FileStreamer.Size f
                    - chunk_bytes d * (ceil_div (FileStreamer.Size f) (chunk_bytes d) - 1) /\
                0 < x <= chunk_bytes d)).
Proof.
  intros HS HM HC Hfit.
  set (S := FileStreamer.Size f) in *. set (C := chunk_bytes d) in *.
  assert (HCpos : 0 < C) by (unfold C, chunk_bytes; lia).
  rewrite <- (ceil_div_rounding S C HCpos) in *.
  set (t := (S + C - 1) / C) in *.
  assert (Hcs : chunkSize_of d = C) by (apply chunkSize_regular; assumption).
  assert (Hp : planned_chunks d f = Some t).
  { unfold planned_chunks. rewrite Hcs. apply totalChunks_regular; fold S; lia. }
  destruct (ceiling_bounds S C HS HCpos) as [Hceil Ht]. fold t in Hceil, Ht.
  split; [exact Hp|]. split; [exact Hceil|].
  intros Hmatch req Hin.
  assert (HSr : in_int64 S) by (unfold in_int64, min_int64, max_int64 in *; lia).
  destruct (Put_follows_plan d net dstDir f t Hp HS HSr Hmatch)
    as (m & st & Hm & HP & HI & [[-> Htr]|[Hm' (u & q & sent & Htr)]]).
  2:{ exfalso. rewrite Htr in Hin. apply elem_of_app in Hin as [Hin|Hin].
      - destruct HI as [_ _ He _ _ _ _]. rewrite Forall_forall in He. exact (He _ Hin).
      - apply list_elem_of_singleton in Hin. discriminate. }
  assert (Hlens : chunk_lengths (Put d net dstDir f).2
                  = map (planned_length S C t) (seqZ 1 t)).
  { rewrite Htr. unfold chunk_lengths. rewrite omap_app. simpl. rewrite app_nil_r.
    destruct HP as [_ HL _]. unfold chunk_lengths in HL. rewrite HL, Hcs.
    now replace (Z.max 0 t + 1 - 1) with t by lia. }
  rewrite Hlens.
  destruct (Z.eq_dec t 0) as [Ht0|Ht0].
  - assert (HS0 : S = 0) by lia.
    rewrite Ht0. change (seqZ 1 0) with (@nil Z). simpl.
    split; [reflexivity|]. split; [unfold total; simpl; lia|].
    split; [intros i Hi; lia|]. intros x Hx. discriminate.
  - rewrite plan_lengths by lia.
    split; [|split; [|split]].
    + rewrite length_app, length_replicate. simpl. lia.
    + rewrite total_app, total_replicate, Z2Nat.id by lia. unfold total. simpl. lia.
    + intros i Hi. rewrite length_app, length_replicate in Hi. simpl in Hi.
      rewrite lookup_app_l by (rewrite length_replicate; lia).
      apply lookup_replicate. split; [reflexivity|lia].
    + intros x Hx. rewrite last_snoc in Hx. inversion Hx; subst x.
      split; [reflexivity|nia].
Qed.

Lemma chunk_plan_witness :
  planned_chunks (sample_drive 500 true) (sample_file 1200000000) = Some 3 /\
  Z.of_nat (length (chunk_lengths
     (Put (sample_drive 500 true) fresh_remote root_dir (sample_file 1200000000)).2)) = 3 /\
  total (chunk_lengths
     (Put (sample_drive 500 true) fresh_remote root_dir (sample_file 1200000000)).2)
  = 1200000000 /\
  chunk_lengths
    (Put (sample_drive 500 true) fresh_remote root_dir (sample_file 1200000000)).2
  = [524288000; 524288000; 151424000].
Proof.
  destruct (chunk_plan (sample_drive 500 true) fresh_remote root_dir
                       (sample_file 1200000000)) as (H1 & _ & Hrun).
  - vm_compute. discriminate.
  - reflexivity.
  - vm_compute. discriminate.
  - vm_compute. discriminate.
  - edestruct Hrun as (H3 & H4 & _).
    + intros k p Hk Hreg. exfalso. unfold registry_of in Hreg.
      rewrite unavailable_no_parts in Hreg by (simpl; left; discriminate).
      rewrite lookup_empty in Hreg. discriminate.
    + vm_compute. find_event.
    + split; [exact H1|]. split; [exact H3|]. split; [exact H4|].
      vm_compute. reflexivity.
Defined.

(** C3, the parts that fail. The chunk size is counted in MiB: a file of
    1,200,000,000 bytes with the setting 500 is cut in chunks of 524,288,000,
    524,288,000 and 151,424,000 bytes, and the last is not 200 MB, whether a
    MB is 1,048,576 or 1,000,000 bytes. And the number of chunks is computed
    in [int64]: for a file of [2^63 - 1] bytes the sum [S + C - 1] wraps
    around, no chunk is handled and the file is committed with an empty
    manifest, whereas [ceil(S / C)] is 17,592,186,045. *)
Lemma chunk_plan_counterexample :
  chunk_lengths
    (Put (sample_drive 500 true) fresh_remote root_dir (sample_file 1200000000)).2
  = [500 * 1048576; 500 * 1048576; 151424000] /\
  151424000 <> 200 * 1048576 /\ 151424000 <> 200 * 1000000 /\
  500 * 1048576 <> 500 * 1000000 /\
  ceil_div max_int64 (chunk_bytes (sample_drive 500 true)) = 17592186045 /\
  chunk_lengths
    (Put (sample_drive 500 true) fresh_remote root_dir (sample_file max_int64)).2 = [] /\
  committed_ids
    (Put (sample_drive 500 true) fresh_remote root_dir (sample_file max_int64)).2 = [[]].
Proof. vm_compute. repeat split; discriminate. Qed.

(** ** Progress *)

Lemma percent_of_le S a b :
  0 <= S -> a <= b -> (percent_of a S <= percent_of b S)%Q.
Proof.
  intros HS Hab. unfold percent_of, Qdiv.
  apply Qmult_le_compat_r; [|discriminate].
  apply Qmult_le_compat_r; [now rewrite <- Zle_Qle|].
  apply Qinv_le_0_compat. change (inject_Z 0 <= inject_Z S)%Q.
  now rewrite <- Zle_Qle.
Qed.

Lemma percent_of_full S : 0 < S -> (percent_of S S == 100)%Q.
Proof.
  intros HS. unfold percent_of, Qdiv.
  rewrite Qmult_inv_r; [apply Qmult_1_l|].
  unfold Qeq. simpl. lia.
Qed.

Lemma sorted_map_seqZ (g : Z -> Q) n :
  forall a,
    (forall i j, a <= i <= j -> j < a + Z.of_nat n -> (g i <= g j)%Q) ->
    StronglySorted Qle (map g (seqZ a (Z.of_nat n))).
Proof.
  induction n as [|n IH]; intros a Hmono; [constructor|].
  rewrite seqZ_cons by lia.
  replace (Z.pred (Z.of_nat (Datatypes.S n))) with (Z.of_nat n) by lia.
  simpl. constructor.
  - apply IH. intros i j Hi Hj. apply Hmono; lia.
  - rewrite Forall_forall. intros q Hq.
    apply list_elem_of_In, in_map_iff in Hq as (j & <- & Hj).
    apply list_elem_of_In, elem_of_seqZ in Hj. apply Hmono; lia.
Qed.

Lemma last_map_seqZ (g : Z -> Q) t :
  1 <= t -> last (map g (seqZ 1 t)) = Some (g t).
Proof.
  intros Ht. replace t with ((t - 1) + 1) at 1 by lia.
  rewrite seqZ_app, map_app by lia.
  replace (1 + (t - 1)) with t by lia. apply last_snoc.
Qed.

(** Every chunk the loop completes is followed by its report. *)
Lemma loop_marks d net fileName fileSize uploadID chunkSize totalChunks existing n :
  forall k st st',
    chunk_loop d net fileName fileSize uploadID chunkSize totalChunks existing n k st
    = inr st' ->
    marks (trace st') = marks (trace st) ++ reported n.
Proof.
  induction n as [|n IH]; intros k st st' Hloop; simpl in Hloop.
  - inversion Hloop; subst. unfold reported. simpl. now rewrite app_nil_r.
  - destruct (chunk_step d net fileName fileSize uploadID chunkSize totalChunks
                         existing k st) as [stop|st1] eqn:E; [discriminate|].
    rewrite (IH _ _ _ Hloop).
    assert (Hstep : marks (trace st1) = marks (trace st) ++ [Chunk; Report]).
    { destruct (existing !! k) as [p|] eqn:Ek.
      - rewrite (step_existing _ _ _ _ _ _ _ _ k st p Ek) in E.
        inversion E; subst. unfold marks. simpl. now rewrite omap_app.
      - destruct (step_missing d net fileName fileSize uploadID chunkSize totalChunks
                               existing k st Ek)
          as [(err & _ & Hs)|(part & _ & Hs)]; rewrite Hs in E; [discriminate|].
        inversion E; subst. unfold marks. simpl. rewrite !omap_app. simpl.
        now rewrite <- app_assoc. }
    rewrite Hstep, <- app_assoc. reflexivity.
Qed.

(** The reports of a run: one after each chunk handled, but for the upload
    that stops the run; one for each chunk of the plan when the run commits. *)
Lemma Put_marks d net dstDir f :
  (exists n, marks (Put d net dstDir f).2 = reported n \/
             marks (Put d net dstDir f).2 = reported n ++ [Chunk]) /\
  (forall t req, planned_chunks d f = Some t ->
                 EvPostFiles req ∈ (Put d net dstDir f).2 ->
                 marks (Put d net dstDir f).2 = reported (Z.to_nat t)).
Proof.
  destruct (Put_run d net dstDir f)
    as [Hs|Hs Hp|t j stj err st Hs Hp Hj HI Hreach Hstep|t st Hs Hp Hl HI].
  - split; [exists 0%nat; now left|]. intros t req _ Hin. inversion Hin.
  - split; [exists 0%nat; now left|]. intros t req _ Hin. inversion Hin.
  - destruct (step_stops _ _ _ _ _ _ _ _ _ _ _ _ HI Hstep) as (n & sent & Htr & _ & _).
    apply loop_marks in Hreach. simpl in Hreach.
    assert (Hm : marks (trace st) = reported (Z.to_nat (j - 1)) ++ [Chunk]).
    { rewrite Htr. unfold marks in *. now rewrite omap_app, Hreach. }
    split; [eexists; right; exact Hm|].
    intros t' req _ Hin. exfalso. rewrite Htr in Hin.
    apply elem_of_app in Hin as [Hin|Hin].
    + destruct HI as [_ _ He _ _ _ _]. rewrite Forall_forall in He. exact (He _ Hin).
    + apply list_elem_of_singleton in Hin. discriminate.
  - unfold run_loop in Hl. apply loop_marks in Hl. simpl in Hl.
    assert (Hm : marks (trace st ++ [EvPostFiles (createFileReq_of d dstDir f
                                                    (partsToCommit st))])
                 = reported (Z.to_nat t)).
    { unfold marks in *. rewrite omap_app, Hl. simpl. now rewrite app_nil_r. }
    split; [eexists; left; exact Hm|].
    intros t' req Hp' _. assert (t' = t) by congruence. now subst t'.
Qed.

(** C5, as the code has it. The callback is called once after each chunk
    skipped or sent, and only then (the upload that stops a run has no
    report). In a run whose reused parts, if any, have the planned lengths,
    the values passed to the callback never decrease. When such a run makes
    the create-file request, the callback has been called once for each
    planned chunk, every call came before the request, which is the last
    event, and, if at least one chunk was planned for a file that is not
    empty, the last value reported is 100. *)
Theorem progress_is_monotone d net dstDir f t :
  planned_chunks d f = Some t ->
  in_int64 (FileStreamer.Size f) ->
  registry_matches_plan d net dstDir f t ->
  (exists n, marks (Put d net dstDir f).2 = reported n \/
             marks (Put d net dstDir f).2 = reported n ++ [Chunk]) /\
  StronglySorted Qle (progress_values (Put d net dstDir f).2) /\
  (forall req,
      EvPostFiles req ∈ (Put d net dstDir f).2 ->
      marks (Put d net dstDir f).2 = reported (Z.to_nat t) /\
      length (progress_values (Put d net dstDir f).2) = Z.to_nat t /\
      (exists before,
          (Put d net dstDir f).2 = before ++ [EvPostFiles req] /\
          progress_values before = progress_values (Put d net dstDir f).2) /\
      (0 < t -> 0 < FileStreamer.Size f ->
       exists q, last (progress_values (Put d net dstDir f).2) = Some q /\
                 (q == 100)%Q)).
Proof.
  intros Hp HSr Hmatch.
  destruct (Put_marks d net dstDir f) as [Hmarks Hmarks_commit].
  split; [exact Hmarks|].
  assert (Hmc : forall req, EvPostFiles req ∈ (Put d net dstDir f).2 ->
                            marks (Put d net dstDir f).2 = reported (Z.to_nat t)).
  { intros req Hin. eapply Hmarks_commit; eauto. }
  clear Hmarks Hmarks_commit.
  destruct (Z_lt_le_dec (FileStreamer.Size f) 0) as [Hneg|HS].
  { destruct (Put_run d net dstDir f)
      as [Hs|Hs Hp'|t' j stj err st Hs Hp' Hj HI Hreach Hstep|t' st Hs Hp' Hl HI];
      try lia.
    split; [constructor|]. intros req Hin. inversion Hin. }
  pose proof (planning_regular d _ t HS HSr Hp) as Hreg.
  destruct (Put_follows_plan d net dstDir f t Hp HS HSr Hmatch)
    as (m & st & Hm & [_ _ HP] & HI & Hend).
  replace (m + 1 - 1) with m in HP by lia.
  assert (Hvalues : progress_values (Put d net dstDir f).2 = progress_values (trace st)).
  { unfold progress_values.
    destruct Hend as [[_ ->]|[_ (u & q & sent & ->)]];
      rewrite omap_app; simpl; now rewrite app_nil_r. }
  rewrite Hvalues, HP.
  split.
  - rewrite <- (Z2Nat.id m) by lia. apply sorted_map_seqZ.
    intros i j Hi Hj. apply percent_of_le; [assumption|].
    apply planned_total_mono; [assumption|lia|lia].
  - intros req Hin. split; [now apply (Hmc req)|].
    destruct Hend as [[-> Htr]|[Hm' (u & q & sent & Htr)]].
    2:{ exfalso. rewrite Htr in Hin. apply elem_of_app in Hin as [Hin|Hin].
        - destruct HI as [_ _ He _ _ _ _]. rewrite Forall_forall in He. exact (He _ Hin).
        - apply list_elem_of_singleton in Hin. discriminate. }
    assert (Hreq : req = createFileReq_of d dstDir f (partsToCommit st)).
    { rewrite Htr in Hin. apply elem_of_app in Hin as [Hin|Hin].
      - exfalso. destruct HI as [_ _ He _ _ _ _]. rewrite Forall_forall in He.
        exact (He _ Hin).
      - apply list_elem_of_singleton in Hin. now inversion Hin. }
    split; [|split].
    + rewrite length_map, length_seqZ. lia.
    + exists (trace st). rewrite Htr, Hreq. split; [reflexivity|exact HP].
    + intros Ht HSpos. replace (Z.max 0 t) with t by lia.
      rewrite last_map_seqZ by lia. eexists. split; [reflexivity|].
      unfold planned_total.
      assert (E : (0 <? t) = true) by (apply Z.ltb_lt; lia).
      rewrite E, Z.eqb_refl. simpl. now apply percent_of_full.
Qed.

Lemma progress_is_monotone_witness :
  StronglySorted Qle
    (progress_values
       (Put (sample_drive 1 false) (resumed_remote [held_part 1 MiB]) root_dir
            (sample_file (3 * MiB - 5))).2) /\
  length (progress_values
       (Put (sample_drive 1 false) (resumed_remote [held_part 1 MiB]) root_dir
            (sample_file (3 * MiB - 5))).2) = 3%nat /\
  exists q,
    last (progress_values
       (Put (sample_drive 1 false) (resumed_remote [held_part 1 MiB]) root_dir
            (sample_file (3 * MiB - 5))).2) = Some q /\ (q == 100)%Q.
Proof.
  edestruct (progress_is_monotone
               (sample_drive 1 false) (resumed_remote [held_part 1 MiB]) root_dir
               (sample_file (3 * MiB - 5)) 3) as (_ & Hsorted & Hcommit).
  - reflexivity.
  - vm_compute. split; discriminate.
  - intros k p Hk Hreg. assert (Hc : k = 1 \/ k = 2 \/ k = 3) by lia.
    destruct Hc as [->|[->| ->]]; vm_compute in Hreg; inversion Hreg; reflexivity.
  - edestruct Hcommit as (_ & Hlen & _ & Hlast); [vm_compute; find_event|].
    split; [exact Hsorted|]. split; [exact Hlen|].
    apply Hlast; reflexivity.
Defined.

(** C5, the parts that fail. The progress follows the sizes the registry
    records: a file of five MiB sent in chunks of two MiB, when the registry
    holds a first part of four MiB (left by a run with chunks of four MiB:
    the session does not depend on the chunk size), is reported at 80, then
    120, then 100 percent; the limits of the three chunks are four MiB, two
    MiB and minus one MiB. And a run on an empty file commits without having
    reported any value. *)
Lemma progress_can_decrease :
  registry_path (sample_drive 2 false) root_dir (sample_file (5 * MiB))
  = registry_path (sample_drive 4 false) root_dir (sample_file (5 * MiB)) /\
  chunk_lengths
    (Put (sample_drive 2 false) stale_remote root_dir (sample_file (5 * MiB))).2
  = [4 * MiB; 2 * MiB; - MiB] /\
  map Qred (progress_values
    (Put (sample_drive 2 false) stale_remote root_dir (sample_file (5 * MiB))).2)
  = [80; 120; 100]%Q /\
  (100 < 120)%Q /\
  progress_values
    (Put (sample_drive 2 false) fresh_remote root_dir (sample_file 0)).2 = [] /\
  committed_ids
    (Put (sample_drive 2 false) fresh_remote root_dir (sample_file 0)).2 = [[]].
Proof. vm_compute. repeat split. Qed.

(** ** Planning that divides by zero *)

Lemma wrap64_zero z : wrap64 z = 0 <-> z mod 2 ^ 64 = 0.
Proof.
  unfold wrap64. split; intros H.
  - assert (E : (z + 2 ^ 63) mod 2 ^ 64 = 2 ^ 63) by lia.
    rewrite Z.mod_eq in E by lia.
    assert (z = 2 ^ 64 * ((z + 2 ^ 63) / 2 ^ 64)) by lia.
    rewrite H0. rewrite Z.mul_comm. apply Z.mod_mul. lia.
  - apply Z.mod_divide in H; [|lia]. destruct H as [r Hr]. subst z.
    replace (r * 2 ^ 64 + 2 ^ 63) with (2 ^ 63 + r * 2 ^ 64) by lia.
    rewrite Z.mod_add by lia. rewrite Z.mod_small; lia.
Qed.

Lemma chunkSize_zero d : chunkSize_of d = 0 <-> TelDrive.ChunkSize d mod 2 ^ 44 = 0.
Proof.
  unfold chunkSize_of, mul64. rewrite wrap64_zero.
  destruct (wrap64_spec (TelDrive.ChunkSize d * 1024)) as (q & Hq & _).
  rewrite Hq. set (M := TelDrive.ChunkSize d). clearbody M. clear Hq.
  split; intros H.
  - apply Z.mod_divide in H; [|lia]. destruct H as [r Hr].
    assert (M = (r + 1024 * q) * 2 ^ 44) by lia.
    rewrite H. apply Z.mod_mul. lia.
  - apply Z.mod_divide in H; [|lia]. destruct H as [r Hr]. subst M.
    replace ((r * 2 ^ 44 * 1024 - 2 ^ 64 * q) * 1024) with ((r - 1024 * q) * 2 ^ 64) by lia.
    apply Z.mod_mul. lia.
Qed.

Lemma commit_not_panic net dstDir f req : commit net dstDir f req <> Panicked.
Proof.
  unfold commit. destruct (post_files net req) as [e|s b [e|i]]; try discriminate;
    destruct (negb (s =? 200)); discriminate.
Qed.

(** X1. [Put] ends in the division-by-zero panic of line 292 exactly when
    the size is not negative and the chunk size setting is a multiple of
    2^44, 0 included: the settings whose product with 1024 * 1024 wraps to 0
    in [int64]. It has made no call by then. *)
Theorem Put_panics_on_zero_chunk_size d net dstDir f :
  ((Put d net dstDir f).1 = Panicked
   <-> 0 <= FileStreamer.Size f /\ TelDrive.ChunkSize d mod 2 ^ 44 = 0) /\
  ((Put d net dstDir f).1 = Panicked -> (Put d net dstDir f).2 = []).
Proof.
  rewrite <- chunkSize_zero. unfold Put, totalChunks_of, div64.
  destruct (Z.ltb_spec (FileStreamer.Size f) 0) as [Hs|Hs].
  { simpl. split; [split|]; [discriminate|lia|discriminate]. }
  destruct (Z.eqb_spec (chunkSize_of d) 0) as [Hc|Hc].
  { simpl. split; [split|]; auto. }
  match goal with |- context [run_loop ?a ?b ?c ?d ?e ?g] =>
    destruct (run_loop a b c d e g) as [[err st]|st] end; simpl.
  - split; [split|]; [discriminate|tauto|discriminate].
  - split; [split|]; intros H; try tauto; exfalso; eapply commit_not_panic; eauto.
Qed.

Lemma Put_panics_on_zero_chunk_size_witness :
  Put (sample_drive 0 true) fresh_remote root_dir (sample_file (3 * MiB)) = (Panicked, []).
Proof.
  destruct (Put_panics_on_zero_chunk_size (sample_drive 0 true) fresh_remote root_dir
              (sample_file (3 * MiB))) as [[_ Hp] Htr].
  assert (H1 : (Put (sample_drive 0 true) fresh_remote root_dir (sample_file (3 * MiB))).1
               = Panicked) by (apply Hp; split; [vm_compute; discriminate|reflexivity]).
  specialize (Htr H1).
  destruct (Put (sample_drive 0 true) fresh_remote root_dir (sample_file (3 * MiB)))
    as [o tr]. simpl in *. now subst.
Defined.

(** ** Runs without a chunk *)

Lemma no_chunk_run d net dstDir f t :
  0 <= FileStreamer.Size f ->
  planned_chunks d f = Some t -> t <= 0 ->
  Put d net dstDir f
  = (commit net dstDir f (createFileReq_of d dstDir f []),
     [EvGetUploads (registry_path d dstDir f);
      EvPostFiles (createFileReq_of d dstDir f [])]).
Proof.
  intros HS Hp Ht. unfold Put. unfold planned_chunks in Hp. rewrite Hp.
  assert (E : (FileStreamer.Size f <? 0) = false) by (apply Z.ltb_ge; lia).
  rewrite E. unfold run_loop.
  replace (Z.to_nat t) with 0%nat by lia. reflexivity.
Qed.

Lemma chunkSize_in_range d :
  in_int64 (TelDrive.ChunkSize d * 1048576) ->
  chunkSize_of d = TelDrive.ChunkSize d * 1048576.
Proof.
  intros H. unfold chunkSize_of, mul64.
  rewrite (wrap64_id (TelDrive.ChunkSize d * 1024))
    by (unfold in_int64, min_int64, max_int64 in *; lia).
  rewrite wrap64_id; [lia|].
  unfold in_int64, min_int64, max_int64 in *; lia.
Qed.

Lemma negative_chunk_plan S cs :
  cs < 0 -> in_int64 cs -> 2 <= S -> in_int64 S ->
  exists t, totalChunks_of S cs = Some t /\ t <= 0.
Proof.
  intros Hc Hcr HS HSr. unfold totalChunks_of, div64, sub64, add64.
  destruct (Z.eqb_spec cs 0) as [E|E]; [lia|].
  eexists. split; [reflexivity|].
  unfold in_int64, min_int64, max_int64 in *.
  rewrite (wrap64_id (S + cs)) by (unfold in_int64, min_int64, max_int64; lia).
  rewrite (wrap64_id (S + cs - 1)) by (unfold in_int64, min_int64, max_int64; lia).
  set (x := S + cs - 1).
  destruct (Z_lt_le_dec x 0) as [Hx|Hx].
  - assert (Hq : Z.quot x cs = 0).
    { replace x with (- (- x)) by lia. replace cs with (- (- cs)) by lia.
      rewrite Z.quot_opp_opp by lia. apply Z.quot_small. lia. }
    rewrite Hq. rewrite wrap64_id; [lia|]. unfold in_int64, min_int64, max_int64; lia.
  - assert (Hq : Z.quot x cs <= 0 /\ - x <= Z.quot x cs).
    { replace cs with (- (- cs)) by lia. rewrite Z.quot_opp_r by lia.
      rewrite Z.quot_div_nonneg by lia.
      pose proof (Z.div_pos x (- cs)).
      assert (x / - cs <= x) by (apply Z.div_le_upper_bound; nia). lia. }
    rewrite wrap64_id by (unfold in_int64, min_int64, max_int64; lia). lia.
Qed.

(** X2. An empty file, with a positive chunk size whose bytes fit
    [int64]: no chunk is planned, so [Put] asks the registry, sends nothing,
    reports no progress and commits a manifest without parts; what it
    returns is its reading of the answer to that create-file request. *)
Theorem empty_file_commits_without_chunks d net dstDir f :
  FileStreamer.Size f = 0 ->
  0 < TelDrive.ChunkSize d -> chunk_bytes d <= max_int64 ->
  Put d net dstDir f
  = (commit net dstDir f (createFileReq_of d dstDir f []),
     [EvGetUploads (registry_path d dstDir f);
      EvPostFiles (createFileReq_of d dstDir f [])]) /\
  CreateFileRequest.Parts (createFileReq_of d dstDir f []) = [] /\
  CreateFileRequest.Size (createFileReq_of d dstDir f []) = 0 /\
  progress_values (Put d net dstDir f).2 = [].
Proof.
  intros HS HM HC. unfold chunk_bytes in HC.
  assert (Hrun : Put d net dstDir f
    = (commit net dstDir f (createFileReq_of d dstDir f []),
       [EvGetUploads (registry_path d dstDir f);
        EvPostFiles (createFileReq_of d dstDir f [])])).
  { apply no_chunk_run with (t := 0); [lia| |lia].
    unfold planned_chunks. rewrite HS, chunkSize_regular by assumption.
    rewrite totalChunks_regular by (unfold max_int64 in *; lia).
    f_equal. apply Z.div_small. lia. }
  split; [exact Hrun|]. rewrite Hrun. simpl. auto.
Qed.

Lemma empty_file_commits_without_chunks_witness :
  Put (sample_drive 500 true) fresh_remote root_dir (sample_file 0)
  = (commit fresh_remote root_dir (sample_file 0)
            (createFileReq_of (sample_drive 500 true) root_dir (sample_file 0) []),
     [EvGetUploads (registry_path (sample_drive 500 true) root_dir (sample_file 0));
      EvPostFiles (createFileReq_of (sample_drive 500 true) root_dir (sample_file 0) [])]).
Proof.
  apply (empty_file_commits_without_chunks (sample_drive 500 true) fresh_remote root_dir
           (sample_file 0)); [reflexivity|simpl; lia|vm_compute; discriminate].
Defined.

(** X3. A negative chunk size setting, whose bytes fit [int64], and a
    file of two bytes or more: the quotient of line 292 is not positive, so
    the loop does not run. [Put] commits the file with its full size and a
    manifest without parts, having sent none of its bytes. *)
Theorem negative_chunk_size_commits_nothing d net dstDir f :
  TelDrive.ChunkSize d < 0 -> min_int64 <= chunk_bytes d ->
  2 <= FileStreamer.Size f <= max_int64 ->
  Put d net dstDir f
  = (commit net dstDir f (createFileReq_of d dstDir f []),
     [EvGetUploads (registry_path d dstDir f);
      EvPostFiles (createFileReq_of d dstDir f [])]) /\
  CreateFileRequest.Parts (createFileReq_of d dstDir f []) = [] /\
  CreateFileRequest.Size (createFileReq_of d dstDir f []) = FileStreamer.Size f.
Proof.
  intros HM HC HS. unfold chunk_bytes in HC. split; [|split; reflexivity].
  assert (Hcs : chunkSize_of d = TelDrive.ChunkSize d * 1048576).
  { apply chunkSize_in_range. unfold in_int64, min_int64, max_int64 in *. lia. }
  destruct (negative_chunk_plan (FileStreamer.Size f) (chunkSize_of d))
    as (t & Ht & Hle).
  - lia.
  - rewrite Hcs. unfold in_int64, min_int64, max_int64 in *. lia.
  - lia.
  - unfold in_int64, min_int64, max_int64 in *. lia.
  - apply no_chunk_run with (t := t); [lia|exact Ht|exact Hle].
Qed.

Lemma negative_chunk_size_commits_nothing_witness :
  Put (sample_drive (-1) false) fresh_remote root_dir (sample_file (3 * MiB))
  = (commit fresh_remote root_dir (sample_file (3 * MiB))
       (createFileReq_of (sample_drive (-1) false) root_dir (sample_file (3 * MiB)) []),
     [EvGetUploads (registry_path (sample_drive (-1) false) root_dir (sample_file (3 * MiB)));
      EvPostFiles
        (createFileReq_of (sample_drive (-1) false) root_dir (sample_file (3 * MiB)) [])]).
Proof.
  apply (negative_chunk_size_commits_nothing (sample_drive (-1) false) fresh_remote
           root_dir (sample_file (3 * MiB)));
    [simpl; lia|vm_compute; discriminate|vm_compute; split; discriminate].
Defined.

(** ** Outcomes and their causes *)

(** X4. When [Put] returns an object, every chunk of the plan had been
    handled and every upload accepted, and the last call is the create-file
    request, with one part per chunk, answered with status 200 and a body
    that decodes. The object takes its id, its parent and its time from that
    answer, its name and its size from the source file and its path from the
    request; it is not a folder. *)
Theorem Put_returned_object d net dstDir f obj :
  (Put d net dstDir f).1 = Returned obj ->
  exists t before req body info,
    0 <= FileStreamer.Size f /\
    planned_chunks d f = Some t /\
    (Put d net dstDir f).2 = before ++ [EvPostFiles req] /\
    handled_chunks before = seqZ 1 t /\
    Forall (upload_accepted net) before /\
    length (CreateFileRequest.Parts req) = Z.to_nat t /\
    CreateFileRequest.Name req = FileStreamer.Name f /\
    CreateFileRequest.Size req = FileStreamer.Size f /\
    post_files net req = Response 200 body (inr info) /\
    obj = Object.Make (FileInfo.Id info) (FileStreamer.Name f) (FileStreamer.Size f)
            (FileInfo.ModTime info) false (CreateFileRequest.Path req)
            (FileInfo.ParentId info).
Proof.
  intros Hout.
  destruct (Put_run d net dstDir f)
    as [Hs|Hs Hp|t j stj err st Hs Hp Hj HI Hreach Hstep|t st Hs Hp Hl HI];
    try discriminate.
  destruct (committed_handled _ _ _ _ _ _ HI) as [Hh Ha].
  destruct (commit_outcome net dstDir f (createFileReq_of d dstDir f (partsToCommit st)))
    as [(body & info & Hr & Hc)|(err & _ & Hc)]; rewrite Hc in Hout; [|discriminate].
  inversion Hout; subst obj.
  exists t, (trace st), (createFileReq_of d dstDir f (partsToCommit st)), body, info.
  repeat split; auto.
  simpl. rewrite length_map.
  rewrite (Permutation_length (sort_Slice_perm _)).
  pose proof (inv_parts _ _ _ _ _ _ _ _ _ HI) as Hparts.
  apply Forall2_length in Hparts. rewrite <- Hparts, length_seqZ. lia.
Qed.

Lemma Put_returned_object_witness :
  (Put (sample_drive 1 false) fresh_remote root_dir (sample_file (3 * MiB))).1
  = Returned (Object.Make "file-1" "f.bin" (3 * MiB) 1700000000 false "f.bin" "root") /\
  exists before req,
    (Put (sample_drive 1 false) fresh_remote root_dir (sample_file (3 * MiB))).2
    = before ++ [EvPostFiles req] /\
    handled_chunks before = [1; 2; 3] /\
    CreateFileRequest.Size req = 3 * MiB.
Proof.
  assert (Hout : (Put (sample_drive 1 false) fresh_remote root_dir (sample_file (3 * MiB))).1
                 = Returned (Object.Make "file-1" "f.bin" (3 * MiB) 1700000000 false
                               "f.bin" "root")) by (vm_compute; reflexivity).
  split; [exact Hout|].
  destruct (Put_returned_object _ _ _ _ _ Hout)
    as (t & before & req & body & info & _ & Hp & Htr & Hh & _ & _ & _ & Hsize & _).
  assert (Ht : t = 3) by (vm_compute in Hp; congruence). subst t.
  exists before, req. split; [exact Htr|]. split; [exact Hh|exact Hsize].
Defined.

(** X5. Every error of [Put] comes from its last call. The
    unsupported-size error: the size is negative and no call was made. An
    upload error: the last call is the upload of a chunk the registry lacks,
    rejected with this error, after the chunks before it were handled and
    every earlier upload accepted; nothing was committed. A create-file
    error: the last call is the create-file request, rejected with this
    error, after every chunk of the plan was handled and every upload
    accepted. *)
Theorem Put_failure_cause d net dstDir f err :
  (Put d net dstDir f).1 = Failed err ->
  (err = ErrUnknownSize /\ FileStreamer.Size f < 0 /\ (Put d net dstDir f).2 = []) \/
  (exists before k u q n sent,
      (Put d net dstDir f).2 = before ++ [EvPostUpload k u q n sent] /\
      rejected (post_upload net u q sent) err /\
      registry_of d net dstDir f !! k = None /\
      handled_chunks before = seqZ 1 (k - 1) /\
      Forall (upload_accepted net) before /\
      (forall req, EvPostFiles req ∉ (Put d net dstDir f).2)) \/
  (exists t before req,
      planned_chunks d f = Some t /\
      (Put d net dstDir f).2 = before ++ [EvPostFiles req] /\
      create_rejected (post_files net req) err /\
      handled_chunks before = seqZ 1 t /\
      Forall (upload_accepted net) before).
Proof.
  intros Hout.
  destruct (Put_run d net dstDir f)
    as [Hs|Hs Hp|t j stj err' st Hs Hp Hj HI Hreach Hstep|t st Hs Hp Hl HI];
    try discriminate.
  - left. inversion Hout. auto.
  - right. left. inversion Hout; subst err'.
    destruct (step_stops _ _ _ _ _ _ _ _ _ _ _ _ HI Hstep) as (n & sent & Htr & Hrej & Hk).
    eexists (trace stj), j, _, _, n, sent.
    split; [exact Htr|]. split; [exact Hrej|]. split; [exact Hk|].
    pose proof (inv_events _ _ _ _ _ _ _ _ _ HI) as He.
    destruct HI as [_ Hh _ Ha _ _ _].
    split; [exact Hh|]. split; [exact Ha|].
    intros req Hin. rewrite Htr in Hin. apply elem_of_app in Hin as [Hin|Hin].
    + rewrite Forall_forall in He. exact (He _ Hin).
    + apply list_elem_of_singleton in Hin. discriminate.
  - right. right.
    destruct (committed_handled _ _ _ _ _ _ HI) as [Hh Ha].
    destruct (commit_outcome net dstDir f (createFileReq_of d dstDir f (partsToCommit st)))
      as [(body & info & Hr & Hc)|(err' & Hrej & Hc)]; rewrite Hc in Hout; [discriminate|].
    inversion Hout; subst err'.
    eexists t, (trace st), _. repeat split; eauto.
Qed.

Lemma Put_failure_cause_witness :
  exists before k u q n sent,
    (Put (sample_drive 1 false) (no_part_id_from 2) root_dir (sample_file (3 * MiB))).2
    = before ++ [EvPostUpload k u q n sent] /\
    rejected (post_upload (no_part_id_from 2) u q sent) ErrUploadNoPartId /\
    handled_chunks before = seqZ 1 (k - 1).
Proof.
  assert (Hout : (Put (sample_drive 1 false) (no_part_id_from 2) root_dir
                      (sample_file (3 * MiB))).1 = Failed ErrUploadNoPartId)
    by (vm_compute; reflexivity).
  destruct (Put_failure_cause _ _ _ _ _ Hout)
    as [(Herr & _)|[(before & k & u & q & n & sent & Htr & Hrej & _ & Hh & _)
                   |(t & before & req & _ & _ & Hrej & _)]].
  - discriminate.
  - exists before, k, u, q, n, sent. auto.
  - inversion Hrej.
Defined.

(** ** The order of the calls *)

Lemma step_trace d net fileName fileSize uploadID chunkSize totalChunks existing k st :
  exists more, Forall chunk_event more /\
    match chunk_step d net fileName fileSize uploadID chunkSize totalChunks existing k st with
    | inr st' => trace st' = trace st ++ more
    | inl (_, st') => trace st' = trace st ++ more
    end.
Proof.
  assert (Hlim : forall src n, 0 <= limited src n <= Z.max 0 n)
    by (intros; unfold limited; lia).
  destruct (existing !! k) as [p|] eqn:Ek.
  - rewrite (step_existing _ _ _ _ _ _ _ _ k st p Ek). simpl.
    eexists. split; [|reflexivity]. repeat constructor; apply CopyN_Discard_bounds.
  - destruct (step_missing d net fileName fileSize uploadID chunkSize totalChunks existing
                k st Ek) as [(err & _ & Hs)|(part & _ & Hs)]; rewrite Hs; simpl.
    + eexists. split; [|reflexivity]. repeat constructor; apply Hlim.
    + rewrite <- app_assoc. eexists. split; [|reflexivity].
      repeat constructor; apply Hlim.
Qed.

Lemma loop_trace d net fileName fileSize uploadID chunkSize totalChunks existing n :
  forall k st,
    exists more, Forall chunk_event more /\
      match chunk_loop d net fileName fileSize uploadID chunkSize totalChunks existing
                       n k st with
      | inr st' => trace st' = trace st ++ more
      | inl (_, st') => trace st' = trace st ++ more
      end.
Proof.
  induction n as [|n IH]; intros k st.
  - exists []. split; [constructor|]. simpl. now rewrite app_nil_r.
  - simpl.
    destruct (step_trace d net fileName fileSize uploadID chunkSize totalChunks existing k st)
      as (m1 & H1 & Hs).
    destruct (chunk_step d net fileName fileSize uploadID chunkSize totalChunks existing k st)
      as [[err st1]|st1].
    + exists m1. split; assumption.
    + destruct (IH (k + 1) st1) as (m2 & H2 & Hl).
      exists (m1 ++ m2). split; [now apply Forall_app|].
      destruct (chunk_loop _ _ _ _ _ _ _ _ n (k + 1) st1) as [[err st2]|st2];
        rewrite Hl, Hs, app_assoc; reflexivity.
Qed.

(** X6. The calls of a run, in order. There is no call at all exactly
    when the size is negative or the chunk size is 0. Otherwise the registry
    request comes first; then the calls of the loop (discards, uploads,
    progress reports), for the chunks 1, 2, ... without gap, none taking
    more bytes than the length it names; then nothing more when [Put] fails
    in the loop, or the create-file request, last, whose answer decides what
    [Put] returns. *)
Theorem Put_call_order d net dstDir f :
  ((Put d net dstDir f).2 = [] <-> FileStreamer.Size f < 0 \/ chunkSize_of d = 0) /\
  ((Put d net dstDir f).2 <> [] ->
   exists body tail,
     (Put d net dstDir f).2 = EvGetUploads (registry_path d dstDir f) :: body ++ tail /\
     Forall chunk_event body /\
     (exists j, handled_chunks body = seqZ 1 j) /\
     ((tail = [] /\ exists err, (Put d net dstDir f).1 = Failed err) \/
      (exists req, tail = [EvPostFiles req] /\
                   (Put d net dstDir f).1 = commit net dstDir f req))).
Proof.
  destruct (Put_handled d net dstDir f) as (j & Hj & _). revert Hj.
  unfold Put, totalChunks_of, div64.
  destruct (Z.ltb_spec (FileStreamer.Size f) 0) as [Hs|Hs].
  { simpl. intros _. split; [tauto|congruence]. }
  destruct (Z.eqb_spec (chunkSize_of d) 0) as [Hc|Hc].
  { simpl. intros _. split; [tauto|congruence]. }
  unfold run_loop.
  match goal with |- context [chunk_loop ?a ?b ?c ?d0 ?e ?g ?h ?i ?n ?k ?s] =>
    destruct (loop_trace a b c d0 e g h i n k s) as (more & Hm & Hl);
    destruct (chunk_loop a b c d0 e g h i n k s) as [[err st]|st] end;
    simpl in *; rewrite Hl; simpl; intros Hj.
  - split; [split; [discriminate|lia]|]. intros _.
    exists more, []. rewrite app_nil_r. repeat split; eauto.
  - split; [split; [discriminate|lia]|]. intros _.
    exists more, [EvPostFiles (createFileReq_of d dstDir f (partsToCommit st))].
    split; [reflexivity|]. split; [assumption|]. split; [|right; eauto].
    exists j. unfold handled_chunks in *. rewrite omap_app in Hj. simpl in Hj.
    now rewrite app_nil_r in Hj.
Qed.

(** ** The bytes taken from the source *)

Lemma planned_step S cs t k :
  plan_regular S cs t -> 0 <= S -> 1 <= k <= t ->
  planned_total S cs t k = planned_total S cs t (k - 1) + planned_length S cs t k /\
  0 <= planned_length S cs t k /\
  planned_total S cs t k <= S.
Proof.
  intros Hreg HS Hk. rewrite (planned_total_before S cs t) by lia.
  unfold planned_length, planned_total.
  assert (E0 : (0 <? k) = true) by (apply Z.ltb_lt; lia). rewrite E0. simpl.
  destruct (Z.eqb_spec k t) as [E|E].
  - subst k. pose proof (last_start S cs t Hreg ltac:(lia)). lia.
  - destruct (before_last S cs t Hreg k) as [Hcs Hlt]; [lia|]. nia.
Qed.

Lemma limited_exact src n : 0 <= n <= avail src -> limited src n = n.
Proof. unfold limited. lia. Qed.

Lemma step_keeps_source d net fileName uploadID A S cs t existing k st :
  plan_regular S cs t -> 0 <= S -> in_int64 S -> S <= A ->
  (forall p, existing !! k = Some p -> PartFile.Size p = planned_length S cs t k) ->
  1 <= k <= t ->
  plan_inv S cs t k st -> source_inv A S cs t k st ->
  forall st',
    chunk_step d net fileName S uploadID cs t existing k st = inr st' ->
    source_inv A S cs t (k + 1) st'.
Proof.
  intros Hreg HS HSr HA Hmatch Hk [HU _ _] [Hav Hex] st'.
  destruct (planned_step S cs t k Hreg HS Hk) as (Hstep & Hlen & Hle).
  assert (Hlim := limit_planned S cs t Hreg HS HSr k Hk).
  set (n := planned_length S cs t k) in *.
  unfold source_inv. replace (k + 1 - 1) with k by lia.
  destruct (existing !! k) as [p|] eqn:Ek.
  - rewrite (step_existing _ _ _ _ _ _ _ _ k st p Ek).
    rewrite (Hmatch p eq_refl). simpl. intros E. inversion E; subst st'; clear E.
    unfold CopyN_Discard. destruct (Z.leb_spec n 0) as [Hn|Hn]; simpl.
    + split; [lia|]. apply Forall_app. split; [assumption|].
      repeat constructor. unfold exact_event. simpl. f_equal. lia.
    + rewrite limited_exact by lia. simpl. split; [lia|].
      apply Forall_app. split; [assumption|]. repeat constructor.
  - destruct (step_missing d net fileName S uploadID cs t existing k st Ek)
      as [(err & _ & Hs)|(part & _ & Hs)]; rewrite Hs; clear Hs; [discriminate|].
    intros E. inversion E; subst st'; clear E.
    rewrite HU, Hlim; fold n; rewrite limited_exact by lia; simpl.
    split; [lia|].
    rewrite !Forall_app. repeat split; [assumption| |]; repeat constructor.
Qed.

Lemma exact_taken tr : Forall exact_event tr -> taken_bytes tr = chunk_lengths tr.
Proof.
  unfold taken_bytes, chunk_lengths. induction 1 as [|e tr He _ IH]; [reflexivity|].
  unfold exact_event in He. cbn. now rewrite He, IH.
Qed.

(** X7. A source that holds the announced size, and a registry whose
    parts have the planned lengths: every discard takes from the source
    exactly the length of the part it skips, and every upload that is
    accepted has taken exactly the length of its chunk. Nothing is said of
    the bytes an upload has taken when its answer is rejected. A run that
    reaches the create-file request, where every upload was accepted, has
    taken for each chunk its length, and for a plan of one chunk or more
    the size of the file in all. *)
Theorem source_read_as_planned d net dstDir f t :
  planned_chunks d f = Some t ->
  0 <= FileStreamer.Size f -> in_int64 (FileStreamer.Size f) ->
  registry_matches_plan d net dstDir f t ->
  FileStreamer.Size f <= avail (FileStreamer.reader f) ->
  (forall k n w, EvDiscard k n w ∈ (Put d net dstDir f).2 -> w = n) /\
  (forall k u q n sent part,
      EvPostUpload k u q n sent ∈ (Put d net dstDir f).2 ->
      accepted (post_upload net u q sent) part -> sent = n) /\
  (forall req, EvPostFiles req ∈ (Put d net dstDir f).2 ->
               Forall (upload_accepted net) (Put d net dstDir f).2 /\
               taken_bytes (Put d net dstDir f).2 = chunk_lengths (Put d net dstDir f).2 /\
               (0 < t -> total (taken_bytes (Put d net dstDir f).2) = FileStreamer.Size f)).
Proof.
  intros Hp HS HSr Hmatch HA.
  pose proof (planning_regular d _ t HS HSr Hp) as Hreg.
  set (S := FileStreamer.Size f) in *. set (cs := chunkSize_of d) in *.
  set (A := avail (FileStreamer.reader f)) in *.
  assert (Hrun :
    (exists before req,
        (Put d net dstDir f).2 = before ++ [EvPostFiles req] /\
        Forall exact_event before /\ Forall (upload_accepted net) before) \/
    (exists before k u q n sent err,
        (Put d net dstDir f).2 = before ++ [EvPostUpload k u q n sent] /\
        Forall exact_event before /\
        (forall req, EvPostFiles req ∉ before) /\
        rejected (post_upload net u q sent) err)).
  { set (I := fun k st => inv_of d net dstDir f t k st /\
                          plan_inv S cs t k st /\ source_inv A S cs t k st).
    assert (Hinit : I 1 (initial_state d dstDir f)).
    { split; [apply initial_inv|].
      split; [constructor; simpl; try reflexivity; unfold planned_total; simpl; lia|].
      split; simpl; [unfold planned_total; simpl; fold A; lia|].
      repeat constructor. }
    assert (Hkeep : forall k st st',
               1 <= k < 1 + Z.of_nat (Z.to_nat t) ->
               I k st -> step_of d net dstDir f t k st = inr st' -> I (k + 1) st').
    { intros k st st' Hk (H0 & H1 & H2) Hstep.
      assert (Hk' : 1 <= k <= t) by lia.
      split; [eapply step_keeps_inv; eassumption|]. split.
      - apply (step_keeps_plan d net (FileStreamer.Name f) (session_of d dstDir f)
                 S cs t (registry_of d net dstDir f) k st st' Hreg HS HSr
                 (fun p Hq => Hmatch k p Hk' Hq) Hk' H1).
        exact Hstep.
      - apply (step_keeps_source d net (FileStreamer.Name f) (session_of d dstDir f)
                 A S cs t (registry_of d net dstDir f) k st Hreg HS HSr HA
                 (fun p Hq => Hmatch k p Hk' Hq) Hk' H1 H2 st').
        exact Hstep. }
    unfold Put. unfold planned_chunks in Hp. fold S cs. fold S cs in Hp. rewrite Hp.
    assert (E : (S <? 0) = false) by (apply Z.ltb_ge; lia).
    rewrite E. fold (registry_of d net dstDir f).
    destruct (run_loop d net dstDir f (registry_of d net dstDir f) t)
      as [[err st]|st] eqn:Hl; unfold run_loop in Hl; simpl.
    - right.
      eapply (loop_failure _ _ _ _ _ _ _ _ I) in Hl
        as (j & stj & Hj & (H0 & _ & [_ HJ]) & _ & Hstep); [|exact Hkeep|exact Hinit].
      destruct (step_stops _ _ _ _ _ _ _ _ _ _ _ _ H0 Hstep) as (n & sent & Htr & Hrej & _).
      eexists (trace stj), j, _, _, n, sent, err.
      split; [exact Htr|]. split; [exact HJ|]. split; [|exact Hrej].
      intros req Hin. pose proof (inv_events _ _ _ _ _ _ _ _ _ H0) as He.
      rewrite Forall_forall in He. exact (He _ Hin).
    - left.
      eapply (loop_invariant _ _ _ _ _ _ _ _ I) in Hl as (H0 & _ & [_ HJ]);
        [|exact Hkeep|exact Hinit].
      eexists (trace st), _. split; [reflexivity|]. split; [exact HJ|].
      exact (inv_accepted _ _ _ _ _ _ _ _ _ H0). }
  split; [|split].
  - intros k n w Hin.
    assert (Hex : exact_event (EvDiscard k n w)).
    { destruct Hrun as [(before & req & Htr & Hex & _)
                       |(before & k' & u & q & n' & sent & err & Htr & Hex & _)];
        rewrite Htr in Hin; apply elem_of_app in Hin as [Hin|Hin];
        try (apply list_elem_of_singleton in Hin; discriminate);
        rewrite Forall_forall in Hex; exact (Hex _ Hin). }
    unfold exact_event in Hex. simpl in Hex. congruence.
  - intros k u q n sent part Hin Hacc.
    assert (Hex : exact_event (EvPostUpload k u q n sent)).
    { destruct Hrun as [(before & req & Htr & Hex & _)
                       |(before & k' & u' & q' & n' & sent' & err & Htr & Hex & _ & Hrej)];
        rewrite Htr in Hin; apply elem_of_app in Hin as [Hin|Hin];
        try (rewrite Forall_forall in Hex; exact (Hex _ Hin));
        apply list_elem_of_singleton in Hin; [discriminate|].
      inversion Hin; subst. exfalso. eapply rejected_not_accepted; eassumption. }
    unfold exact_event in Hex. simpl in Hex. congruence.
  - intros req Hin.
    destruct Hrun as [(before & req' & Htr & Hex & Hacc)
                     |(before & k' & u' & q' & n' & sent' & err & Htr & _ & Hnone & _)].
    2:{ exfalso. rewrite Htr in Hin. apply elem_of_app in Hin as [Hin|Hin].
        - exact (Hnone _ Hin).
        - apply list_elem_of_singleton in Hin. discriminate. }
    assert (Hall : Forall exact_event (Put d net dstDir f).2).
    { rewrite Htr. apply Forall_app. split; [exact Hex|]. repeat constructor. }
    split; [rewrite Htr; apply Forall_app; split; [exact Hacc|repeat constructor]|].
    split; [now apply exact_taken|].
    intros Ht. rewrite (exact_taken _ Hall).
    destruct (Put_follows_plan d net dstDir f t Hp HS HSr Hmatch)
      as (m & st & Hm & HP & HI & [[Hmt Htr']|(Hlt & u & q & sent & Htr')]).
    + rewrite Htr'. unfold chunk_lengths. rewrite omap_app. simpl. rewrite app_nil_r.
      destruct HP as [_ HL _]. unfold chunk_lengths in HL. rewrite HL.
      replace (m + 1 - 1) with t by lia.
      rewrite plan_lengths, total_app, total_replicate by lia.
      unfold total. simpl. rewrite Z2Nat.id by lia. fold S cs. lia.
    + exfalso. rewrite Htr' in Htr.
      apply (f_equal (@last event)) in Htr. rewrite !last_snoc in Htr. discriminate.
Qed.

Lemma source_read_as_planned_witness :
  (exists u q,
      EvPostUpload 2 u q MiB MiB
        ∈ (Put (sample_drive 1 false) (resumed_remote [held_part 1 MiB]) root_dir
               (sample_file (3 * MiB - 5))).2) /\
  taken_bytes
    (Put (sample_drive 1 false) (resumed_remote [held_part 1 MiB]) root_dir
         (sample_file (3 * MiB - 5))).2
  = chunk_lengths
      (Put (sample_drive 1 false) (resumed_remote [held_part 1 MiB]) root_dir
           (sample_file (3 * MiB - 5))).2 /\
  total (taken_bytes
    (Put (sample_drive 1 false) (resumed_remote [held_part 1 MiB]) root_dir
         (sample_file (3 * MiB - 5))).2) = 3 * MiB - 5.
Proof.
  edestruct (source_read_as_planned
               (sample_drive 1 false) (resumed_remote [held_part 1 MiB]) root_dir
               (sample_file (3 * MiB - 5)) 3) as (_ & _ & Hcommit).
  - reflexivity.
  - vm_compute. discriminate.
  - vm_compute. split; discriminate.
  - intros k p Hk Hreg. assert (Hc : k = 1 \/ k = 2 \/ k = 3) by lia.
    destruct Hc as [->|[->| ->]]; vm_compute in Hreg; inversion Hreg; reflexivity.
  - vm_compute. discriminate.
  - split; [eexists _, _; vm_compute; find_event|].
    edestruct Hcommit as (_ & Htaken & Htotal); [vm_compute; find_event|].
    split; [exact Htaken|]. apply Htotal. lia.
Defined.

(** ** Decimal numerals *)

Lemma uint_value_acc u : forall p, Z.pos (Pos.of_uint_acc u p) = uint_value u (Z.pos p).
Proof.
  induction u; intros p; simpl; try reflexivity; rewrite IHu; f_equal; lia.
Qed.

Lemma uint_value_of_uint u : Z.of_N (Pos.of_uint u) = uint_value u 0.
Proof.
  induction u; simpl; try reflexivity; try exact IHu;
    rewrite uint_value_acc; reflexivity.
Qed.

Lemma uint_value_ge u : forall acc, 0 <= acc -> acc <= uint_value u acc.
Proof.
  induction u; intros acc H; simpl; try lia;
    match goal with |- _ <= uint_value _ ?a => specialize (IHu a) end; lia.
Qed.

(** One step of the digit loop on a digit that fits. *)
Lemma parse_uint_step c s acc a :
  is_digit c = true -> a = 10 * acc + (byte_of_ascii c - 48) ->
  0 <= acc -> a <= 2 ^ 64 - 1 -> 48 <= byte_of_ascii c ->
  parse_uint (String c s) acc = parse_uint s a.
Proof.
  intros Hc Ha Hacc Hfit Hlow. simpl. rewrite Hc.
  destruct (Z.geb_spec acc ((2 ^ 64 - 1) / 10 + 1)) as [Hbig|_].
  { change ((2 ^ 64 - 1) / 10 + 1) with 1844674407370955162 in Hbig. lia. }
  replace (acc * 10 + (byte_of_ascii c - 48)) with a by lia.
  destruct (Z.gtb_spec a (2 ^ 64 - 1)); [lia|reflexivity].
Qed.

Ltac digit_code :=
  match goal with
  | |- context [byte_of_ascii ?c] =>
      let v := eval vm_compute in (byte_of_ascii c) in
      change (byte_of_ascii c) with v
  end.

Lemma parse_uint_digits u :
  forall acc, 0 <= acc -> uint_value u acc <= 2 ^ 64 - 1 ->
              parse_uint (NilEmpty.string_of_uint u) acc = UintOk (uint_value u acc).
Proof.
  induction u; intros acc H Hfit; cbn [NilEmpty.string_of_uint uint_value] in *;
    [reflexivity|..];
    match type of Hfit with uint_value _ ?a <= _ =>
      pose proof (uint_value_ge u a ltac:(lia)) as Hge;
      rewrite (parse_uint_step _ _ acc a);
      [ apply IHu; [lia|exact Hfit] | reflexivity | digit_code; lia | lia | lia
      | digit_code; lia ]
    end.
Qed.

Lemma N_to_uint_nonnil n : N.to_uint n <> Decimal.Nil.
Proof. destruct n; simpl; [discriminate|apply DecimalPos.Unsigned.to_uint_nonnil]. Qed.

Lemma NilZero_nonnil u :
  u <> Decimal.Nil -> NilZero.string_of_uint u = NilEmpty.string_of_uint u.
Proof. destruct u; [congruence|reflexivity..]. Qed.

Lemma uint_string_starts_with_digit u :
  u <> Decimal.Nil ->
  exists c s, NilEmpty.string_of_uint u = String c s /\ is_digit c = true.
Proof. destruct u; [congruence|simpl; eexists _, _; split; reflexivity..]. Qed.

(** The digits of [z]: a digit first, and they parse back to [|z|]. *)
Lemma dec_digits_parse z :
  Z.abs z <= 2 ^ 64 - 1 ->
  parse_uint (dec_digits z) 0 = UintOk (Z.abs z) /\
  exists c s, dec_digits z = String c s /\ is_digit c = true.
Proof.
  intros Hfit. unfold dec_digits.
  rewrite NilZero_nonnil by apply N_to_uint_nonnil.
  assert (Hv : uint_value (N.to_uint (Z.abs_N z)) 0 = Z.abs z).
  { rewrite <- uint_value_of_uint.
    change (Pos.of_uint (N.to_uint (Z.abs_N z))) with (N.of_uint (N.to_uint (Z.abs_N z))).
    rewrite DecimalN.Unsigned.of_to. apply N2Z.inj_abs_N. }
  split.
  - rewrite parse_uint_digits by lia. now rewrite Hv.
  - apply uint_string_starts_with_digit, N_to_uint_nonnil.
Qed.

Lemma ParseInt_unsigned c s :
  is_digit c = true ->
  ParseInt (String c s)
  = match parse_uint (String c s) 0 with
    | UintSyntax => 0
    | UintRange => max_int64
    | UintOk un => if un >=? 2 ^ 63 then max_int64 else un
    end.
Proof.
  intros Hc. unfold ParseInt.
  assert (E1 : Ascii.eqb c "-" = false).
  { destruct (Ascii.eqb_spec c "-") as [E|E]; [|reflexivity]. subst c. discriminate. }
  assert (E2 : Ascii.eqb c "+" = false).
  { destruct (Ascii.eqb_spec c "+") as [E|E]; [|reflexivity]. subst c. discriminate. }
  rewrite E1, E2. simpl.
  destruct (parse_uint (String c s) 0) as [un| |]; try reflexivity.
Qed.

(** [strconv.ParseInt] reads back what [strconv.Itoa] writes. *)
Lemma ParseInt_Itoa z : in_int64 z -> ParseInt (Itoa z) = z.
Proof.
  unfold in_int64, min_int64, max_int64. intros Hz.
  destruct (dec_digits_parse z) as (Hparse & c & s & Hd & Hc); [lia|].
  unfold Itoa. destruct (Z.ltb_spec z 0) as [Hneg|Hpos].
  - unfold ParseInt. change (Ascii.eqb "-" "-") with true.
    change (Ascii.eqb "-" "+" || true) with true. cbv iota.
    rewrite Hd. rewrite <- Hd, Hparse. simpl negb. simpl andb.
    destruct (Z.gtb_spec (Z.abs z) (2 ^ 63)); lia.
  - rewrite Hd, ParseInt_unsigned by assumption. rewrite <- Hd, Hparse.
    destruct (Z.geb_spec (Z.abs z) (2 ^ 63)); lia.
Qed.

Lemma parse_uint_zeros n s :
  parse_uint (String.append (string_of_chars (repeat "0"%char n)) s) 0 = parse_uint s 0.
Proof. induction n as [|n IH]; [reflexivity|]. simpl. exact IH. Qed.

(** The verb [%03d] pads with zeros, which [strconv.ParseInt] reads over. *)
Lemma ParseInt_Sprintf_03d k : 0 <= k <= max_int64 -> ParseInt (Sprintf_03d k) = k.
Proof.
  unfold max_int64. intros Hk.
  destruct (dec_digits_parse k) as (Hparse & c & s & Hd & Hc); [lia|].
  unfold Sprintf_03d. destruct (Z.ltb_spec k 0) as [Hneg|_]; [lia|].
  unfold zero_pad.
  assert (Hstart : exists c' s',
             String.append (string_of_chars (repeat "0"%char (3 - String.length (dec_digits k))))
                           (dec_digits k) = String c' s' /\ is_digit c' = true).
  { destruct (3 - String.length (dec_digits k))%nat as [|n].
    - simpl. eauto.
    - simpl. eexists _, _. split; reflexivity. }
  destruct Hstart as (c' & s' & Hs & Hc').
  rewrite Hs, ParseInt_unsigned by assumption. rewrite <- Hs, parse_uint_zeros, Hparse.
  destruct (Z.geb_spec (Z.abs k) (2 ^ 63)); lia.
Qed.

(** ** The request of a chunk upload *)

Lemma planned_in_int64 d f t : planned_chunks d f = Some t -> in_int64 t.
Proof.
  unfold planned_chunks, totalChunks_of, div64.
  destruct (chunkSize_of d =? 0); [discriminate|].
  intros H. inversion H. apply wrap64_range.
Qed.

(** The chunks a run handles are the first [j] chunks of the plan. *)
Lemma handled_prefix d net dstDir f t :
  planned_chunks d f = Some t ->
  exists j,
    0 <= j <= Z.max 0 t /\
    handled_chunks (Put d net dstDir f).2 = seqZ 1 j /\
    (forall req, EvPostFiles req ∈ (Put d net dstDir f).2 -> j = Z.max 0 t).
Proof.
  intros Hp.
  destruct (Put_run d net dstDir f)
    as [Hs|Hs Hp'|t' j stj err st Hs Hp' Hj HI Hreach Hstep|t' st Hs Hp' Hl HI].
  - exists 0. split; [lia|]. split; [reflexivity|]. intros req Hin. inversion Hin.
  - congruence.
  - assert (t' = t) by congruence. subst t'. exists j.
    destruct (step_stops _ _ _ _ _ _ _ _ _ _ _ _ HI Hstep) as (n & sent & Htr & _ & Hk).
    pose proof (inv_events _ _ _ _ _ _ _ _ _ HI) as He.
    destruct HI as [Hpos Hh _ _ _ _ _].
    split; [lia|]. split.
    + rewrite Htr. unfold handled_chunks in *. rewrite omap_app, Hh. simpl.
      replace j with ((j - 1) + 1) at 3 by lia. rewrite seqZ_app by lia.
      now replace (1 + (j - 1)) with j by lia.
    + intros req Hin. exfalso. rewrite Htr in Hin.
      apply elem_of_app in Hin as [Hin|Hin].
      * rewrite Forall_forall in He. exact (He _ Hin).
      * apply list_elem_of_singleton in Hin. discriminate.
  - assert (t' = t) by congruence. subst t'. exists (Z.max 0 t).
    destruct (committed_handled _ _ _ _ _ _ HI) as [Hh _].
    split; [lia|]. split; [|reflexivity].
    unfold handled_chunks in *. rewrite omap_app, Hh. simpl. rewrite app_nil_r.
    unfold seqZ. f_equal. f_equal. lia.
Qed.

Lemma upload_in_plan d net dstDir f t k u q n sent :
  planned_chunks d f = Some t ->
  EvPostUpload k u q n sent ∈ (Put d net dstDir f).2 -> 1 <= k <= t.
Proof.
  intros Hp Hin. destruct (handled_prefix d net dstDir f t Hp) as (j & Hj & Hh & _).
  apply upload_is_handled in Hin. rewrite Hh in Hin.
  apply elem_of_seqZ in Hin. lia.
Qed.

(** X8. Every chunk upload is for a chunk of the plan; it goes to the
    upload host when one is set and to the API host otherwise, under the
    session the registry was asked about; its query carries the file name,
    the chunk number in decimal, which [strconv.ParseInt] reads back, the
    channel id as configured and the encryption flag. *)
Theorem upload_request_shape d net dstDir f t k u q n sent :
  planned_chunks d f = Some t ->
  EvPostUpload k u q n sent ∈ (Put d net dstDir f).2 ->
  1 <= k <= t /\
  u = String.append
        (if String.eqb (TelDrive.UploadHost d) "" then TelDrive.ApiHost d
         else TelDrive.UploadHost d)
        (String.append "/api/uploads/" (session_of d dstDir f)) /\
  EvGetUploads (String.append "/api/uploads/" (session_of d dstDir f))
    ∈ (Put d net dstDir f).2 /\
  q_fileName q = FileStreamer.Name f /\
  q_partNo q = Itoa k /\
  ParseInt (q_partNo q) = k /\
  q_channelId q = TelDrive.ChannelID d /\
  q_encrypted q = FormatBool (TelDrive.EncryptFiles d).
Proof.
  intros Hp Hin.
  pose proof (upload_in_plan _ _ _ _ _ _ _ _ _ _ Hp Hin) as Hk.
  pose proof (planned_in_int64 _ _ _ Hp) as Ht.
  destruct (Put_events _ _ _ _ _ Hin) as (t' & Hp' & [[req Hreq]|(_ & Hu & Hq)]);
    [discriminate|].
  subst u q. simpl.
  split; [exact Hk|]. split.
  { unfold uploadURL. destruct (String.eqb (TelDrive.UploadHost d) ""); reflexivity. }
  split.
  { assert (Hne : (Put d net dstDir f).2 <> []) by (intros E; rewrite E in Hin; inversion Hin).
    revert Hne. clear. unfold Put.
    destruct (FileStreamer.Size f <? 0); [simpl; congruence|].
    destruct (totalChunks_of _ _) as [t|]; [|simpl; congruence]. intros _.
    unfold run_loop.
    match goal with |- context [chunk_loop ?a ?b ?c ?d0 ?e ?g ?h ?i ?n ?k ?s] =>
      destruct (loop_trace a b c d0 e g h i n k s) as (more & _ & Hl);
      destruct (chunk_loop a b c d0 e g h i n k s) as [[err st]|st] end;
      simpl in *; rewrite Hl; apply list_elem_of_here. }
  repeat split; try reflexivity.
  apply ParseInt_Itoa. unfold in_int64, min_int64, max_int64 in *. lia.
Qed.

Lemma upload_request_shape_witness :
  exists u q n sent,
    EvPostUpload 2 u q n sent
      ∈ (Put (sample_drive 1 false) fresh_remote root_dir (sample_file (3 * MiB))).2 /\
    u = "https://td.example/api/uploads/f73870b4e829f481ae252741a2aab187"%string /\
    q_partNo q = "2"%string.
Proof.
  assert (Hp : planned_chunks (sample_drive 1 false) (sample_file (3 * MiB)) = Some 3)
    by reflexivity.
  assert (Hin : EvPostUpload 2
            "https://td.example/api/uploads/f73870b4e829f481ae252741a2aab187"
            (MkQuery "f.bin.part.002" "f.bin" "2" "100123" "false") MiB MiB
            ∈ (Put (sample_drive 1 false) fresh_remote root_dir (sample_file (3 * MiB))).2)
    by (vm_compute; find_event).
  destruct (upload_request_shape _ _ _ _ _ _ _ _ _ _ Hp Hin) as (_ & Hu & _ & _ & Hn & _).
  eexists _, _, _, _. split; [exact Hin|]. split; [reflexivity|exact Hn].
Defined.

(** ** Names of the chunks without the random flag *)

Lemma append_empty_r s : String.append s "" = s.
Proof.
  induction s as [|c s IH]; [reflexivity|].
  change (String c (String.append s "") = String c s). now rewrite IH.
Qed.

Lemma append_inj_r s a b : String.append s a = String.append s b -> a = b.
Proof.
  induction s as [|c s IH]; intros H; [exact H|].
  change (String c (String.append s a) = String c (String.append s b)) in H.
  inversion H. auto.
Qed.

(** X9. Without the random flag, two uploads of one run for different
    chunks carry different part names. *)
Theorem sequential_chunk_names_distinct d net dstDir f t k1 u1 q1 n1 s1 k2 u2 q2 n2 s2 :
  planned_chunks d f = Some t ->
  TelDrive.RandomChunkName d = false ->
  EvPostUpload k1 u1 q1 n1 s1 ∈ (Put d net dstDir f).2 ->
  EvPostUpload k2 u2 q2 n2 s2 ∈ (Put d net dstDir f).2 ->
  k1 <> k2 ->
  q_partName q1 <> q_partName q2.
Proof.
  intros Hp Hflag H1 H2 Hne Heq.
  pose proof (upload_in_plan _ _ _ _ _ _ _ _ _ _ Hp H1) as Hk1.
  pose proof (upload_in_plan _ _ _ _ _ _ _ _ _ _ Hp H2) as Hk2.
  pose proof (planned_in_int64 _ _ _ Hp) as Ht.
  destruct (Put_events _ _ _ _ _ H1) as (t1 & Hp1 & [[req Hreq]|(_ & _ & Hq1)]);
    [discriminate|].
  destruct (Put_events _ _ _ _ _ H2) as (t2 & Hp2 & [[req Hreq]|(_ & _ & Hq2)]);
    [discriminate|].
  assert (t1 = t) by congruence. assert (t2 = t) by congruence. subst t1 t2 q1 q2.
  simpl in Heq. unfold chunkName_of in Heq. rewrite Hflag in Heq.
  destruct (Z.gtb_spec t 1) as [Hgt|Hle]; [|lia].
  simpl in Heq. apply append_inj_r in Heq.
  apply (append_inj_r ".part.") in Heq. rewrite !append_empty_r in Heq.
  apply Hne.
  rewrite <- (ParseInt_Sprintf_03d k1), <- (ParseInt_Sprintf_03d k2)
    by (unfold in_int64, min_int64, max_int64 in *; lia).
  now rewrite Heq.
Qed.

Lemma sequential_chunk_names_distinct_witness :
  exists u1 q1 n1 s1 u2 q2 n2 s2,
    EvPostUpload 1 u1 q1 n1 s1
      ∈ (Put (sample_drive 1 false) fresh_remote root_dir (sample_file (3 * MiB))).2 /\
    EvPostUpload 3 u2 q2 n2 s2
      ∈ (Put (sample_drive 1 false) fresh_remote root_dir (sample_file (3 * MiB))).2 /\
    q_partName q1 = "f.bin.part.001"%string /\
    q_partName q2 = "f.bin.part.003"%string /\
    q_partName q1 <> q_partName q2.
Proof.
  assert (H1 : EvPostUpload 1
            "https://td.example/api/uploads/f73870b4e829f481ae252741a2aab187"
            (MkQuery "f.bin.part.001" "f.bin" "1" "100123" "false") MiB MiB
            ∈ (Put (sample_drive 1 false) fresh_remote root_dir (sample_file (3 * MiB))).2)
    by (vm_compute; find_event).
  assert (H3 : EvPostUpload 3
            "https://td.example/api/uploads/f73870b4e829f481ae252741a2aab187"
            (MkQuery "f.bin.part.003" "f.bin" "3" "100123" "false") MiB MiB
            ∈ (Put (sample_drive 1 false) fresh_remote root_dir (sample_file (3 * MiB))).2)
    by (vm_compute; find_event).
  eexists _, _, _, _, _, _, _, _.
  split; [exact H1|]. split; [exact H3|]. split; [reflexivity|]. split; [reflexivity|].
  apply (sequential_chunk_names_distinct (sample_drive 1 false) fresh_remote root_dir
           (sample_file (3 * MiB)) 3 1 _ _ _ _ 3 _ _ _ _ eq_refl eq_refl H1 H3). lia.
Defined.

(** ** The channel id *)

(** X10. A channel id configured as the decimal text of an [int64]: the
    create-file request carries that number, and every upload carries the
    text, which parses to the same number. *)
Theorem channel_id_round_trip d net dstDir f c :
  TelDrive.ChannelID d = Itoa c -> in_int64 c ->
  (forall req, EvPostFiles req ∈ (Put d net dstDir f).2 ->
               CreateFileRequest.ChannelID req = c) /\
  (forall k u q n sent, EvPostUpload k u q n sent ∈ (Put d net dstDir f).2 ->
                        q_channelId q = Itoa c /\ ParseInt (q_channelId q) = c).
Proof.
  intros Hc Hr. split.
  - intros req Hin.
    destruct (Put_events _ _ _ _ _ Hin) as (t & Hp & _).
    destruct (Put_committed _ _ _ _ _ _ Hp Hin) as (st & _ & _ & Hreq & _).
    rewrite Hreq. simpl. rewrite Hc. now apply ParseInt_Itoa.
  - intros k u q n sent Hin.
    destruct (Put_events _ _ _ _ _ Hin) as (t & Hp & [[req Hreq]|(_ & _ & Hq)]);
      [discriminate|].
    subst q. simpl. rewrite Hc. split; [reflexivity|now apply ParseInt_Itoa].
Qed.

Lemma channel_id_round_trip_witness :
  exists req,
    EvPostFiles req ∈ (Put channel_drive fresh_remote root_dir (sample_file (3 * MiB))).2 /\
    CreateFileRequest.ChannelID req = -1001234567890.
Proof.
  assert (Hin : exists req,
             EvPostFiles req
               ∈ (Put channel_drive fresh_remote root_dir (sample_file (3 * MiB))).2).
  { vm_compute. eexists. find_event. }
  destruct Hin as [req Hin]. exists req. split; [exact Hin|].
  apply (channel_id_round_trip channel_drive fresh_remote root_dir (sample_file (3 * MiB))
           (-1001234567890));
    [reflexivity|vm_compute; split; discriminate|exact Hin].
Defined.

(** ** The registry map *)

(** X11. The registry map of lines 304-306: the part found under a number
    is the last record of the answer that has this part number, and none
    when no record has it. *)
Theorem registry_last_record_wins body parts k :
  existingChunks_of (Response 200 body (inr parts)) !! k
  = last (filter (fun p => PartFile.PartNo p = k) parts).
Proof.
  unfold existingChunks_of. simpl.
  induction parts as [|p parts IH] using rev_ind.
  - simpl. apply lookup_empty.
  - rewrite fold_left_app, filter_app. simpl.
    destruct (decide (PartFile.PartNo p = k)) as [E|E].
    + rewrite E, lookup_insert_eq. rewrite filter_cons_True by assumption.
      rewrite filter_nil. now rewrite last_snoc.
    + rewrite lookup_insert_ne by assumption. rewrite filter_cons_False by assumption.
      rewrite filter_nil, app_nil_r. exact IH.
Qed.

(** ** The manifest, whatever the part numbers *)

(** X12. The manifest of a committed run, whatever part numbers the
    service reports: the parts of the chunks of the plan, rearranged in
    ascending order of their part numbers. *)
Theorem manifest_sorted_by_reported_number d net dstDir f t req :
  planned_chunks d f = Some t ->
  EvPostFiles req ∈ (Put d net dstDir f).2 ->
  exists parts sorted,
    Forall2 (part_of_chunk net (registry_of d net dstDir f) (Put d net dstDir f).2)
            (seqZ 1 t) parts /\
    Permutation sorted parts /\
    StronglySorted by_number sorted /\
    CreateFileRequest.Parts req = map FilePart_of sorted.
Proof.
  intros Hp Hin.
  destruct (commit_manifest _ _ _ _ _ _ Hp Hin) as (parts & Hparts & Hreq & _).
  exists parts, (sort_Slice parts).
  split; [exact Hparts|]. split; [apply sort_Slice_perm|].
  split; [apply sort_Slice_sorted|exact Hreq].
Qed.

Lemma manifest_sorted_by_reported_number_witness :
  exists req sorted,
    EvPostFiles req
      ∈ (Put (sample_drive 1 false) (silent_remote [held_part 2 MiB]) root_dir
             (sample_file (3 * MiB))).2 /\
    StronglySorted by_number sorted /\
    CreateFileRequest.Parts req = map FilePart_of sorted /\
    map FilePart.ID (CreateFileRequest.Parts req) = [1001; 1003; 1002].
Proof.
  assert (Hp : planned_chunks (sample_drive 1 false) (sample_file (3 * MiB)) = Some 3)
    by reflexivity.
  set (tr := (Put (sample_drive 1 false) (silent_remote [held_part 2 MiB]) root_dir
                  (sample_file (3 * MiB))).2).
  assert (Hlast : exists req, last tr = Some (EvPostFiles req) /\
                    map FilePart.ID (CreateFileRequest.Parts req) = [1001; 1003; 1002]).
  { vm_compute. eexists. split; reflexivity. }
  destruct Hlast as (req & Hlast & Hids).
  assert (Hin : EvPostFiles req ∈ tr).
  { apply last_Some in Hlast as [l' ->]. apply elem_of_app. right. apply list_elem_of_here. }
  destruct (manifest_sorted_by_reported_number _ _ _ _ _ _ Hp Hin)
    as (parts & sorted & _ & _ & Hs & Hreq).
  exists req, sorted. auto.
Defined.

(** ** Resuming after the first chunks *)

Lemma skipped_filter d net dstDir f :
  skipped_chunks (Put d net dstDir f).2
  = filter (fun k => is_Some (registry_of d net dstDir f !! k))
           (handled_chunks (Put d net dstDir f).2).
Proof.
  assert (Hev : forall e, e ∈ (Put d net dstDir f).2 ->
                match e with
                | EvDiscard k _ _ => is_Some (registry_of d net dstDir f !! k)
                | EvPostUpload k _ _ _ _ => registry_of d net dstDir f !! k = None
                | _ => True
                end).
  { intros e Hin.
    destruct (Put_events _ _ _ _ _ Hin) as (t & _ & [[req ->]|Hev]); [exact I|].
    destruct e; simpl in *; auto.
    - destruct Hev as (p & Hp & _). now exists p.
    - tauto. }
  unfold skipped_chunks, handled_chunks.
  induction (Put d net dstDir f).2 as [|e tr IH]; [reflexivity|].
  assert (He := Hev e (list_elem_of_here _ _)).
  assert (IH' := IH (fun e' H => Hev e' (list_elem_of_further _ _ _ H))).
  destruct e as [p|k n w|q|k u q n sent|req]; cbn; auto.
  - case_decide as Hd; [now f_equal|contradiction].
  - case_decide as Hd; [|exact IH'].
    rewrite He in Hd. destruct Hd as [x Hx]. discriminate.
Qed.

Lemma filter_all {A} (P : A -> Prop) `{forall x, Decision (P x)} l :
  Forall P l -> filter P l = l.
Proof.
  induction 1 as [|x l Hx _ IH]; [reflexivity|].
  rewrite filter_cons_True by assumption. now rewrite IH.
Qed.

Lemma filter_none {A} (P : A -> Prop) `{forall x, Decision (P x)} l :
  Forall (fun x => ~ P x) l -> filter P l = [].
Proof.
  induction 1 as [|x l Hx _ IH]; [reflexivity|].
  now rewrite filter_cons_False by assumption.
Qed.

(** X13. Resuming. When the registry holds the first [m] chunks of the
    plan and none of the others, a run that handles [j] chunks has skipped
    the chunks 1 to [m] it came to and sent the chunks from [m + 1] on; a
    run that commits has skipped exactly the first [m] chunks and sent
    exactly the rest. *)
Theorem resume_after_prefix d net dstDir f t m :
  planned_chunks d f = Some t ->
  0 <= m <= t ->
  (forall k, 1 <= k <= t -> is_Some (registry_of d net dstDir f !! k) <-> k <= m) ->
  exists j,
    0 <= j <= t /\
    handled_chunks (Put d net dstDir f).2 = seqZ 1 j /\
    skipped_chunks (Put d net dstDir f).2 = seqZ 1 (Z.min m j) /\
    transferred_chunks (Put d net dstDir f).2 = seqZ (m + 1) (j - m) /\
    (forall req, EvPostFiles req ∈ (Put d net dstDir f).2 -> j = t).
Proof.
  intros Hp Hm Hreg.
  destruct (handled_prefix d net dstDir f t Hp) as (j & Hj & Hh & Hc).
  exists j. split; [lia|]. split; [exact Hh|].
  assert (Hsplit : seqZ 1 j = seqZ 1 (Z.min m j) ++ seqZ (m + 1) (j - m)).
  { destruct (Z_le_gt_dec j m) as [Hle|Hgt].
    - rewrite Z.min_r by lia. unfold seqZ at 3.
      replace (Z.to_nat (j - m)) with 0%nat by lia. simpl. now rewrite app_nil_r.
    - rewrite Z.min_l by lia. replace j with (m + (j - m)) at 1 by lia.
      rewrite seqZ_app by lia. now replace (1 + m) with (m + 1) by lia. }
  split; [|split].
  - rewrite skipped_filter, Hh, Hsplit, filter_app.
    rewrite filter_all, filter_none; [now rewrite app_nil_r| |].
    + apply Forall_forall. intros k Hk. apply elem_of_seqZ in Hk.
      rewrite Hreg by lia. lia.
    + apply Forall_forall. intros k Hk. apply elem_of_seqZ in Hk.
      rewrite Hreg by lia. lia.
  - rewrite transferred_filter, Hh, Hsplit, filter_app.
    rewrite filter_none, filter_all; [reflexivity| |].
    + apply Forall_forall. intros k Hk. apply elem_of_seqZ in Hk.
      rewrite eq_None_not_Some, Hreg by lia. lia.
    + apply Forall_forall. intros k Hk. apply elem_of_seqZ in Hk.
      intros Hn. rewrite eq_None_not_Some in Hn. apply Hn. rewrite Hreg by lia. lia.
  - intros req Hin. rewrite (Hc req Hin). lia.
Qed.

Lemma resume_after_prefix_witness :
  skipped_chunks
    (Put (sample_drive 1 false) (resumed_remote [held_part 1 MiB; held_part 2 MiB]) root_dir
         (sample_file (4 * MiB))).2 = [1; 2] /\
  transferred_chunks
    (Put (sample_drive 1 false) (resumed_remote [held_part 1 MiB; held_part 2 MiB]) root_dir
         (sample_file (4 * MiB))).2 = [3; 4].
Proof.
  destruct (resume_after_prefix (sample_drive 1 false)
              (resumed_remote [held_part 1 MiB; held_part 2 MiB]) root_dir
              (sample_file (4 * MiB)) 4 2) as (j & Hj & _ & Hs & Ht & Hc).
  - reflexivity.
  - lia.
  - intros k Hk.
    assert (Hcases : k = 1 \/ k = 2 \/ k = 3 \/ k = 4) by lia.
    set (reg := registry_of (sample_drive 1 false)
                  (resumed_remote [held_part 1 MiB; held_part 2 MiB]) root_dir
                  (sample_file (4 * MiB))).
    assert (H1 : reg !! 1 = Some (held_part 1 MiB)) by (vm_compute; reflexivity).
    assert (H2 : reg !! 2 = Some (held_part 2 MiB)) by (vm_compute; reflexivity).
    assert (H3 : reg !! 3 = None) by (vm_compute; reflexivity).
    assert (H4 : reg !! 4 = None) by (vm_compute; reflexivity).
    destruct Hcases as [-> | [-> | [-> | ->]]];
      rewrite ?H1, ?H2, ?H3, ?H4; split; intros H;
      try lia; try (eexists; reflexivity); destruct H as [x Hx]; discriminate.
  - assert (Hin : exists req, EvPostFiles req ∈
        (Put (sample_drive 1 false) (resumed_remote [held_part 1 MiB; held_part 2 MiB])
             root_dir (sample_file (4 * MiB))).2).
    { vm_compute. eexists. find_event. }
    destruct Hin as [req Hin]. rewrite (Hc req Hin) in Hs, Ht.
    split; [exact Hs|exact Ht].
Defined.

(** ** The digest *)

Lemma le_bytes_spec n z : length (MD5.le_bytes n z) = n /\ Forall is_byte (MD5.le_bytes n z).
Proof.
  unfold MD5.le_bytes. split.
  - now rewrite length_map, length_seq.
  - apply Forall_forall. intros b Hb. apply list_elem_of_In, in_map_iff in Hb.
    destruct Hb as (i & <- & _). apply Z.mod_pos_bound. lia.
Qed.

Lemma Sum_spec msg : length (MD5.Sum msg) = 16%nat /\ Forall is_byte (MD5.Sum msg).
Proof.
  unfold MD5.Sum. split.
  - rewrite !length_app. now rewrite !(proj1 (le_bytes_spec _ _)).
  - rewrite !Forall_app. repeat split; apply le_bytes_spec.
Qed.

Lemma hex_digit_lower z : 0 <= z < 16 -> is_lower_hex (hex_digit z) = true.
Proof.
  intros Hz.
  assert (Hc : z = 0 \/ z = 1 \/ z = 2 \/ z = 3 \/ z = 4 \/ z = 5 \/ z = 6 \/ z = 7 \/
               z = 8 \/ z = 9 \/ z = 10 \/ z = 11 \/ z = 12 \/ z = 13 \/ z = 14 \/ z = 15)
    by lia.
  repeat (destruct Hc as [->|Hc]; [reflexivity|]). subst z. reflexivity.
Qed.

Lemma EncodeToString_spec bytes :
  Forall is_byte bytes ->
  String.length (EncodeToString bytes) = (2 * length bytes)%nat /\
  forallb is_lower_hex (list_ascii_of_string (EncodeToString bytes)) = true.
Proof.
  induction 1 as [|b bytes Hb _ [IH1 IH2]]; [split; reflexivity|].
  unfold is_byte in Hb. simpl. split; [rewrite IH1; lia|].
  rewrite IH2, !hex_digit_lower; [reflexivity| |].
  - apply Z.mod_pos_bound. lia.
  - split; [apply Z.div_pos; lia|apply Z.div_lt_upper_bound; lia].
Qed.

(** X14. [getMD5Hash] gives 32 characters, each a digit or a letter from
    a to f. *)
Theorem getMD5Hash_is_hex text :
  String.length (getMD5Hash text) = 32%nat /\
  forallb is_lower_hex (list_ascii_of_string (getMD5Hash text)) = true.
Proof.
  unfold getMD5Hash.
  destruct (Sum_spec (bytes_of_string text)) as [Hlen Hbytes].
  destruct (EncodeToString_spec _ Hbytes) as [H1 H2].
  split; [rewrite H1, Hlen; reflexivity|exact H2].
Qed.

(** ** The names of the chunks *)

Lemma Sprintf_03d_three_digits k :
  1 <= k <= 999 ->
  String.length (Sprintf_03d k) = 3%nat /\ ParseInt (Sprintf_03d k) = k.
Proof.
  intros Hk.
  assert (Hall : forallb (fun i => Nat.eqb (String.length (Sprintf_03d i)) 3
                                   && (ParseInt (Sprintf_03d i) =? i))
                         (seqZ 1 999) = true) by (vm_compute; reflexivity).
  rewrite forallb_forall in Hall.
  assert (Hin : In k (seqZ 1 999)).
  { apply list_elem_of_In, elem_of_seqZ. lia. }
  specialize (Hall k Hin). apply andb_true_iff in Hall as [H1 H2].
  apply Nat.eqb_eq in H1. apply Z.eqb_eq in H2. now split.
Qed.

(** X25. The name under which the chunk [k] of a run is sent. With the
    random flag on it is the MD5 digest of the UUID drawn for that chunk:
    32 characters, each a digit or a letter from a to f, and nothing of the
    file name. With the flag off and more than one chunk planned it is the
    file name followed by [.part.] and the chunk number in decimal, which
    [strconv.ParseInt] reads back, padded with zeros to three digits up to
    chunk 999. With the flag off and one chunk planned it is the file
    name. *)
Theorem chunk_name_of_upload d net dstDir f t k u q n sent :
  planned_chunks d f = Some t ->
  EvPostUpload k u q n sent ∈ (Put d net dstDir f).2 ->
  (TelDrive.RandomChunkName d = true ->
   q_partName q = getMD5Hash (new_uuid net k) /\
   String.length (q_partName q) = 32%nat /\
   forallb is_lower_hex (list_ascii_of_string (q_partName q)) = true) /\
  (TelDrive.RandomChunkName d = false -> 1 < t ->
   q_partName q = concat_strings [FileStreamer.Name f; ".part."; Sprintf_03d k]%string /\
   ParseInt (Sprintf_03d k) = k /\
   (k <= 999 -> String.length (Sprintf_03d k) = 3%nat)) /\
  (TelDrive.RandomChunkName d = false -> t = 1 ->
   q_partName q = FileStreamer.Name f).
Proof.
  intros Hp Hin.
  pose proof (upload_in_plan _ _ _ _ _ _ _ _ _ _ Hp Hin) as Hk.
  pose proof (planned_in_int64 _ _ _ Hp) as Ht.
  destruct (Put_events _ _ _ _ _ Hin) as (t' & Hp' & [[req Hreq]|(_ & _ & Hq)]);
    [discriminate|].
  assert (t' = t) by congruence. subst t' q. simpl. unfold chunkName_of.
  split; [|split]; intros Hr; rewrite Hr.
  - split; [reflexivity|]. unfold getMD5Hash.
    destruct (Sum_spec (bytes_of_string (new_uuid net k))) as [Hlen Hbytes].
    destruct (EncodeToString_spec _ Hbytes) as [H1 H2].
    split; [rewrite H1, Hlen; reflexivity|exact H2].
  - intros Hgt. assert (E : (t >? 1) = true) by (apply Z.gtb_lt; lia).
    rewrite E. split; [reflexivity|]. split.
    + apply ParseInt_Sprintf_03d. unfold in_int64, min_int64, max_int64 in *. lia.
    + intros Hk'. apply Sprintf_03d_three_digits. lia.
  - intros ->. reflexivity.
Qed.

Lemma chunk_name_of_upload_witness :
  (exists u q n sent,
      EvPostUpload 2 u q n sent
        ∈ (Put (sample_drive 1 true) fresh_remote root_dir (sample_file (3 * MiB))).2 /\
      q_partName q = getMD5Hash (sample_uuid 2) /\
      String.length (q_partName q) = 32%nat) /\
  (exists u q n sent,
      EvPostUpload 2 u q n sent
        ∈ (Put (sample_drive 1 false) fresh_remote root_dir (sample_file (3 * MiB))).2 /\
      q_partName q = "f.bin.part.002"%string /\
      String.length (Sprintf_03d 2) = 3%nat) /\
  (exists u q n sent,
      EvPostUpload 1 u q n sent
        ∈ (Put (sample_drive 500 false) fresh_remote root_dir (sample_file (3 * MiB))).2 /\
      q_partName q = "f.bin"%string).
Proof.
  assert (H1 : EvPostUpload 2
            "https://td.example/api/uploads/f73870b4e829f481ae252741a2aab187"
            (MkQuery (getMD5Hash (sample_uuid 2)) "f.bin" "2" "100123" "false") MiB MiB
            ∈ (Put (sample_drive 1 true) fresh_remote root_dir (sample_file (3 * MiB))).2)
    by (vm_compute; find_event).
  assert (H2 : EvPostUpload 2
            "https://td.example/api/uploads/f73870b4e829f481ae252741a2aab187"
            (MkQuery "f.bin.part.002" "f.bin" "2" "100123" "false") MiB MiB
            ∈ (Put (sample_drive 1 false) fresh_remote root_dir (sample_file (3 * MiB))).2)
    by (vm_compute; find_event).
  assert (H3 : EvPostUpload 1
            "https://td.example/api/uploads/f73870b4e829f481ae252741a2aab187"
            (MkQuery "f.bin" "f.bin" "1" "100123" "false") (3 * MiB) (3 * MiB)
            ∈ (Put (sample_drive 500 false) fresh_remote root_dir (sample_file (3 * MiB))).2)
    by (vm_compute; find_event).
  split; [|split].
  - destruct (chunk_name_of_upload (sample_drive 1 true) fresh_remote root_dir
               (sample_file (3 * MiB)) 3 _ _ _ _ _ eq_refl H1) as ((Hn & Hl & _) & _);
      [reflexivity|].
    eexists _, _, _, _. split; [exact H1|]. split; [exact Hn|exact Hl].
  - destruct (chunk_name_of_upload (sample_drive 1 false) fresh_remote root_dir
               (sample_file (3 * MiB)) 3 _ _ _ _ _ eq_refl H2) as (_ & Hseq & _).
    destruct Hseq as (Hn & _ & Hl); [reflexivity|lia|].
    eexists _, _, _, _. split; [exact H2|]. split; [exact Hn|]. apply Hl. lia.
  - destruct (chunk_name_of_upload (sample_drive 500 false) fresh_remote root_dir
               (sample_file (3 * MiB)) 1 _ _ _ _ _ eq_refl H3) as (_ & _ & Hone).
    eexists _, _, _, _. split; [exact H3|]. apply Hone; reflexivity.
Defined.

(** ** The range of the progress *)

Lemma planned_total_bounds S cs t k :
  plan_regular S cs t -> 0 <= S -> 1 <= k <= t -> 0 <= planned_total S cs t k <= S.
Proof.
  intros Hreg HS Hk. unfold planned_total.
  assert (E0 : (0 <? k) = true) by (apply Z.ltb_lt; lia). rewrite E0. simpl.
  destruct (Z.eqb_spec k t) as [E|E]; [lia|].
  destruct (before_last S cs t Hreg k) as [Hcs Hlt]; [lia|]. nia.
Qed.

Lemma percent_of_zero S : (percent_of 0 S == 0)%Q.
Proof.
  unfold percent_of, Qdiv. change (inject_Z 0) with 0%Q. now rewrite !Qmult_0_l.
Qed.

(** X15. With a registry whose parts have the planned lengths, every
    value reported for a non-empty file lies between 0 and 100: it is the
    share of the file the plan accounts for after some chunk. *)
Theorem progress_within_bounds d net dstDir f t q :
  planned_chunks d f = Some t ->
  0 < FileStreamer.Size f -> in_int64 (FileStreamer.Size f) ->
  registry_matches_plan d net dstDir f t ->
  q ∈ progress_values (Put d net dstDir f).2 ->
  (0 <= q)%Q /\ (q <= 100)%Q /\
  exists k, 1 <= k <= t /\
            q = percent_of (planned_total (FileStreamer.Size f) (chunkSize_of d) t k)
                           (FileStreamer.Size f).
Proof.
  intros Hp HS HSr Hmatch Hq.
  assert (HS' : 0 <= FileStreamer.Size f) by lia.
  pose proof (planning_regular d _ t HS' HSr Hp) as Hreg.
  destruct (Put_follows_plan d net dstDir f t Hp HS' HSr Hmatch)
    as (m & st & Hm & HP & _ & Htr).
  assert (Hvals : progress_values (Put d net dstDir f).2 = progress_values (trace st)).
  { destruct Htr as [[_ Htr]|(_ & u & q' & sent & Htr)]; rewrite Htr;
      unfold progress_values; rewrite omap_app; simpl; now rewrite app_nil_r. }
  rewrite Hvals in Hq. destruct HP as [_ _ HV]. rewrite HV in Hq.
  replace (m + 1 - 1) with m in Hq by lia.
  apply list_elem_of_fmap in Hq as (k & -> & Hk). apply elem_of_seqZ in Hk.
  assert (Hk' : 1 <= k <= t) by lia.
  pose proof (planned_total_bounds _ _ _ k Hreg HS' Hk') as Hb.
  split; [|split].
  - rewrite <- (percent_of_zero (FileStreamer.Size f)). apply percent_of_le; lia.
  - rewrite <- (percent_of_full (FileStreamer.Size f)) by lia. apply percent_of_le; lia.
  - exists k. split; [exact Hk'|reflexivity].
Qed.

Lemma progress_within_bounds_witness :
  exists q,
    q ∈ progress_values
          (Put (sample_drive 1 false) (resumed_remote [held_part 1 MiB]) root_dir
               (sample_file (3 * MiB - 5))).2 /\
    (0 <= q)%Q /\ (q <= 100)%Q.
Proof.
  assert (Hin : exists q,
      q ∈ progress_values
            (Put (sample_drive 1 false) (resumed_remote [held_part 1 MiB]) root_dir
                 (sample_file (3 * MiB - 5))).2).
  { vm_compute. eexists. apply list_elem_of_here. }
  destruct Hin as [q Hin]. exists q. split; [exact Hin|].
  edestruct (progress_within_bounds
               (sample_drive 1 false) (resumed_remote [held_part 1 MiB]) root_dir
               (sample_file (3 * MiB - 5)) 3 q) as (H0 & H100 & _).
  - reflexivity.
  - vm_compute. reflexivity.
  - vm_compute. split; discriminate.
  - intros k p Hk Hreg. assert (Hc : k = 1 \/ k = 2 \/ k = 3) by lia.
    destruct Hc as [->|[->| ->]]; vm_compute in Hreg; inversion Hreg; reflexivity.
  - exact Hin.
  - split; assumption.
Defined.

(** ** What a run depends on *)

Lemma chunk_step_agree d net fileName fileSize uploadID chunkSize totalChunks e1 e2 k st :
  e1 !! k = e2 !! k ->
  chunk_step d net fileName fileSize uploadID chunkSize totalChunks e1 k st
  = chunk_step d net fileName fileSize uploadID chunkSize totalChunks e2 k st.
Proof. intros H. unfold chunk_step. now rewrite H. Qed.

(** The loop looks the registry up under the numbers of its chunks only. *)
Lemma chunk_loop_agree d net fileName fileSize uploadID chunkSize totalChunks e1 e2 n :
  forall k st,
    (forall i, k <= i < k + Z.of_nat n -> e1 !! i = e2 !! i) ->
    chunk_loop d net fileName fileSize uploadID chunkSize totalChunks e1 n k st
    = chunk_loop d net fileName fileSize uploadID chunkSize totalChunks e2 n k st.
Proof.
  induction n as [|n IH]; intros k st H; [reflexivity|].
  simpl. rewrite (chunk_step_agree _ _ _ _ _ _ _ e1 e2 k st) by (apply H; lia).
  destruct (chunk_step d net fileName fileSize uploadID chunkSize totalChunks e2 k st)
    as [stop|st']; [reflexivity|].
  apply IH. intros i Hi. apply H. lia.
Qed.

(** X17. A run depends on the registry through the parts it holds for
    the chunks of the plan: two registry answers that give the same part, or
    none, for each chunk from 1 to the number of chunks lead to the same
    run. A part recorded under any other number is never skipped to, never
    committed. *)
Theorem registry_outside_plan_is_ignored d net dstDir f t r1 r2 :
  planned_chunks d f = Some t ->
  (forall k, 1 <= k <= t -> existingChunks_of r1 !! k = existingChunks_of r2 !! k) ->
  Put d (with_registry net r1) dstDir f = Put d (with_registry net r2) dstDir f.
Proof.
  intros Hp H. unfold Put. unfold planned_chunks in Hp. rewrite Hp.
  destruct (FileStreamer.Size f <? 0); [reflexivity|].
  unfold run_loop. simpl get_uploads.
  rewrite (chunk_loop_agree d (with_registry net r1) _ _ _ _ _
             (existingChunks_of r1) (existingChunks_of r2)) by (intros i Hi; apply H; lia).
  reflexivity.
Qed.

Lemma registry_outside_plan_is_ignored_witness :
  Put (sample_drive 1 false) (with_registry fresh_remote stray_registry) root_dir
      (sample_file (3 * MiB))
  = Put (sample_drive 1 false)
        (with_registry fresh_remote (Response 200 "" (inr [held_part 1 MiB]))) root_dir
        (sample_file (3 * MiB)).
Proof.
  apply (registry_outside_plan_is_ignored (sample_drive 1 false) fresh_remote root_dir
           (sample_file (3 * MiB)) 3); [reflexivity|].
  intros k Hk. assert (Hc : k = 1 \/ k = 2 \/ k = 3) by lia.
  destruct Hc as [->|[->| ->]]; vm_compute; reflexivity.
Defined.

(** ** Clean paths *)

Lemma append_cons c s r : String.append (String c s) r = String c (String.append s r).
Proof. reflexivity. Qed.

Lemma append_nil_l s : String.append "" s = s.
Proof. reflexivity. Qed.

Lemma append_assoc a b c :
  String.append (String.append a b) c = String.append a (String.append b c).
Proof.
  induction a as [|x a IH]; [reflexivity|]. now rewrite !append_cons, IH.
Qed.

Lemma split_slash_plain s : forall cur,
  has_slash s = false -> split_slash s cur = [String.append cur s].
Proof.
  induction s as [|c s IH]; intros cur H; simpl in *.
  - now rewrite append_empty_r.
  - apply orb_false_iff in H as [Hc Hs]. rewrite Hc, IH by assumption.
    now rewrite append_assoc.
Qed.

Lemma split_slash_app s r : forall cur,
  has_slash s = false ->
  split_slash (String.append s (String "/" r)) cur
  = String.append cur s :: split_slash r "".
Proof.
  induction s as [|c s IH]; intros cur H.
  - rewrite append_nil_l, append_empty_r. reflexivity.
  - simpl in H. apply orb_false_iff in H as [Hc Hs].
    rewrite append_cons. simpl. rewrite Hc, IH by assumption.
    now rewrite append_assoc.
Qed.

Lemma join_slash_cons c comps :
  comps <> [] -> join_slash (c :: comps) = String.append c (String "/" (join_slash comps)).
Proof. destruct comps; [congruence|reflexivity]. Qed.

Lemma join_slash_snoc comps n :
  comps <> [] ->
  join_slash (comps ++ [n]) = String.append (join_slash comps) (String "/" n).
Proof.
  induction comps as [|c comps IH]; intros H; [congruence|].
  destruct comps as [|c' comps].
  - reflexivity.
  - change ((c :: c' :: comps) ++ [n]) with (c :: ((c' :: comps) ++ [n])).
    rewrite join_slash_cons by (destruct comps; discriminate).
    rewrite IH by discriminate.
    rewrite (join_slash_cons c (c' :: comps)) by discriminate.
    rewrite append_assoc. rewrite append_cons. reflexivity.
Qed.

Lemma split_join comps :
  Forall (fun c => has_slash c = false) comps -> comps <> [] ->
  split_slash (join_slash comps) "" = comps.
Proof.
  induction 1 as [|c comps Hc Hcs IH]; intros Hne; [congruence|].
  destruct comps as [|c' comps].
  - simpl. now rewrite split_slash_plain.
  - rewrite join_slash_cons by discriminate.
    rewrite split_slash_app by assumption. rewrite IH by discriminate. reflexivity.
Qed.

Lemma split_join_app comps r :
  Forall (fun c => has_slash c = false) comps -> comps <> [] ->
  split_slash (String.append (join_slash comps) (String "/" r)) ""
  = comps ++ split_slash r "".
Proof.
  induction 1 as [|c comps Hc Hcs IH]; intros Hne; [congruence|].
  destruct comps as [|c' comps].
  - simpl join_slash. now rewrite split_slash_app.
  - rewrite join_slash_cons by discriminate.
    rewrite append_assoc, append_cons.
    rewrite split_slash_app by assumption. rewrite IH by discriminate. reflexivity.
Qed.

Lemma clean_plain rooted kept c :
  plain_name c -> clean_component rooted kept c = c :: kept.
Proof.
  intros (H1 & H2 & H3 & _). unfold clean_component.
  apply String.eqb_neq in H1, H2, H3. now rewrite H1, H2, H3.
Qed.

Lemma fold_clean_plain rooted comps : forall kept,
  Forall plain_name comps ->
  fold_left (clean_component rooted) comps kept = rev comps ++ kept.
Proof.
  induction comps as [|c comps IH]; intros kept H; [reflexivity|].
  inversion H; subst. simpl. rewrite clean_plain by assumption.
  rewrite IH by assumption. now rewrite <- app_assoc.
Qed.

Lemma fold_left_cons {A B} (f : A -> B -> A) a l k :
  fold_left f (a :: l) k = fold_left f l (f k a).
Proof. reflexivity. Qed.

Lemma plain_no_slash comps :
  Forall plain_name comps -> Forall (fun c => has_slash c = false) comps.
Proof. intros H. eapply Forall_impl; [exact H|]. now intros c (_ & _ & _ & Hc). Qed.

(** An absolute path of plain components is clean. *)
Lemma Clean_abs comps : Forall plain_name comps -> Clean (abs_path comps) = abs_path comps.
Proof.
  intros H. unfold abs_path, Clean.
  change (Ascii.eqb "/" "/") with true. cbv iota.
  change (split_slash (String "/" (join_slash comps)) "")
    with ("" :: split_slash (join_slash comps) "")%string.
  destruct comps as [|c comps].
  - reflexivity.
  - rewrite split_join by (try discriminate; now apply plain_no_slash).
    rewrite fold_left_cons. change (clean_component true [] "") with (@nil string).
    rewrite fold_clean_plain by assumption. rewrite app_nil_r, rev_involutive.
    reflexivity.
Qed.

Lemma Clean_abs_slash comps :
  Forall plain_name comps ->
  Clean (String.append (abs_path comps) "/") = abs_path comps.
Proof.
  intros H. destruct comps as [|c comps]; [reflexivity|].
  unfold abs_path. rewrite append_cons. unfold Clean.
  change (Ascii.eqb "/" "/") with true. cbv iota.
  change (split_slash (String "/" ?s) "") with ("" :: split_slash s "")%string.
  rewrite split_join_app by (try discriminate; now apply plain_no_slash).
  rewrite fold_left_cons. change (clean_component true [] "") with (@nil string).
  rewrite fold_left_app. rewrite (fold_clean_plain true (c :: comps)) by assumption.
  change (split_slash "" "") with [""%string]. rewrite fold_left_cons.
  change (clean_component true ?k "") with k.
  change (fold_left (clean_component true) [] ?k) with k.
  rewrite app_nil_r, rev_involutive. reflexivity.
Qed.

(** [path.Join] under an absolute directory, the root included. *)
Lemma Join_abs comps n :
  Forall plain_name comps -> plain_name n ->
  Join (abs_path comps) n = abs_path (comps ++ [n]).
Proof.
  intros H Hn. unfold Join. change (String.eqb (abs_path comps) "") with false.
  simpl andb. cbv iota.
  destruct comps as [|c comps].
  - unfold abs_path. simpl join_slash. rewrite append_cons, append_nil_l.
    unfold Clean. change (Ascii.eqb "/" "/") with true. cbv iota.
    change (split_slash (String "/" (String "/" n)) "")
      with ("" :: "" :: split_slash n "")%string.
    destruct Hn as (H1 & H2 & H3 & H4). rewrite split_slash_plain by assumption.
    rewrite append_nil_l. rewrite !fold_left_cons.
    change (clean_component true [] "") with (@nil string).
    rewrite clean_plain by (repeat split; assumption). reflexivity.
  - rewrite <- (Clean_abs ((c :: comps) ++ [n])) by (apply Forall_app; auto).
    f_equal. unfold abs_path. rewrite append_cons.
    now rewrite join_slash_snoc by discriminate.
Qed.

Lemma plain_not_rooted n : plain_name n -> exists c s, n = String c s /\ Ascii.eqb c "/" = false.
Proof.
  intros (H1 & _ & _ & H4). destruct n as [|c s]; [congruence|].
  simpl in H4. apply orb_false_iff in H4 as [Hc _]. eauto.
Qed.

Lemma Clean_plain n : plain_name n -> Clean n = n.
Proof.
  intros Hn. destruct (plain_not_rooted n Hn) as (c & s & -> & Hc).
  unfold Clean. rewrite Hc.
  rewrite split_slash_plain by apply Hn. rewrite append_nil_l.
  rewrite fold_left_cons. rewrite clean_plain by assumption. reflexivity.
Qed.

(** [path.Join] under the empty parent path. *)
Lemma Join_empty n : plain_name n -> Join "" n = n.
Proof.
  intros Hn. unfold Join. simpl.
  destruct Hn as (H1 & H'). pose proof H1 as H1'. apply String.eqb_neq in H1'.
  rewrite H1'. apply Clean_plain. now split.
Qed.

Lemma has_slash_app s r : has_slash (String.append s (String "/" r)) = true.
Proof.
  induction s as [|c s IH]; [reflexivity|].
  rewrite append_cons. simpl. rewrite IH. apply orb_true_r.
Qed.

Lemma dir_part_app s x :
  has_slash x = false ->
  dir_part (String.append s (String "/" x)) = String.append s "/".
Proof.
  intros Hx. induction s as [|c s IH].
  - rewrite append_nil_l. simpl. now rewrite Hx.
  - rewrite !append_cons. simpl. rewrite has_slash_app. now rewrite IH.
Qed.

(** [path.Dir] of an absolute path takes its last component off. *)
Lemma Dir_abs comps x :
  Forall plain_name comps -> plain_name x ->
  Dir (abs_path (comps ++ [x])) = abs_path comps.
Proof.
  intros H Hx. unfold Dir. destruct comps as [|c comps].
  - unfold abs_path. simpl join_slash.
    rewrite <- (append_nil_l (String "/" x)). rewrite dir_part_app by apply Hx.
    reflexivity.
  - unfold abs_path at 1. rewrite join_slash_snoc by discriminate.
    rewrite <- append_cons. rewrite dir_part_app by apply Hx.
    now apply Clean_abs_slash.
Qed.

Lemma plain_join_nonempty c comps : plain_name c -> join_slash (c :: comps) <> ""%string.
Proof.
  intros (H1 & _). destruct c as [|x s]; [congruence|].
  destruct comps; [discriminate|]. rewrite join_slash_cons by discriminate.
  rewrite append_cons. discriminate.
Qed.

Lemma abs_path_not_root comps :
  comps <> [] -> Forall plain_name comps -> String.eqb (abs_path comps) "/" = false.
Proof.
  intros Hne H. destruct comps as [|c comps]; [congruence|]. inversion H; subst.
  apply String.eqb_neq. unfold abs_path. intros E. inversion E.
  eapply plain_join_nonempty; eauto.
Qed.

(** ** The paths of the objects the operations return *)

(** The path sent for a directory, and the path of an entry listed in it. *)
Lemma dir_path_abs dir comps :
  GetPath dir = abs_path comps -> Forall plain_name comps ->
  Ops.dir_path dir = match comps with [] => ""%string | _ => abs_path comps end.
Proof.
  intros Hp H. unfold Ops.dir_path. rewrite Hp. destruct comps as [|c comps]; [reflexivity|].
  now rewrite abs_path_not_root.
Qed.

Lemma entry_path dir comps n :
  GetPath dir = abs_path comps -> Forall plain_name comps ->
  String.append (Ops.dir_path dir) (String.append "/" n) = abs_path (comps ++ [n]).
Proof.
  intros Hp H. rewrite (dir_path_abs dir comps Hp H). destruct comps as [|c comps].
  - reflexivity.
  - unfold abs_path. rewrite append_cons. f_equal.
    now rewrite join_slash_snoc by discriminate.
Qed.

(** X18. [List] of a clean absolute directory, the root included, makes
    one request, for the first page of 1000 entries of that directory. An
    entry with a plain name gets the path of the directory extended by its
    name: a clean path, whose directory is the listed one; listing the entry
    asks for this path. *)
Theorem listing_extends_directory_path svc dir comps objs calls :
  GetPath dir = abs_path comps -> Forall plain_name comps ->
  Ops.List svc dir = (inr objs, calls) ->
  calls = [GetFiles (Ops.dir_path dir) "1" "1000"] /\
  forall o, o ∈ objs -> plain_name (Object.Name o) ->
    Object.Path o = abs_path (comps ++ [Object.Name o]) /\
    Clean (Object.Path o) = Object.Path o /\
    Dir (Object.Path o) = abs_path comps /\
    (Ops.List svc (Own o)).2 = [GetFiles (Object.Path o) "1" "1000"].
Proof.
  intros Hp H Hl. unfold Ops.List in Hl.
  destruct (get_files svc (Ops.dir_path dir) "1" "1000") as [err|status text files];
    inversion Hl; subst; clear Hl.
  split; [reflexivity|]. intros o Hin Hn.
  apply list_elem_of_fmap in Hin as (file & -> & _). simpl in *.
  assert (Hall : Forall plain_name (comps ++ [FileInfo.Name file]))
    by (apply Forall_app; auto).
  rewrite (entry_path dir comps _ Hp H).
  split; [reflexivity|]. split; [now apply Clean_abs|]. split; [now apply Dir_abs|].
  unfold Ops.List, Ops.dir_path. simpl GetPath.
  rewrite (entry_path dir comps _ Hp H).
  rewrite abs_path_not_root by (try assumption; destruct comps; discriminate).
  destruct (get_files svc _ "1" "1000"); reflexivity.
Qed.

Lemma listing_extends_directory_path_witness :
  exists objs,
    Ops.List sample_service (Own (GetRoot 0)) = (inr objs, [GetFiles "" "1" "1000"]) /\
    map Object.Path objs = ["/a"; "/b.txt"]%string /\
    (Ops.List sample_service
       (Own (Object.Make "id-a" "a" 0 1700000000 true "/a" "dir"))).2
    = [GetFiles "/a" "1" "1000"].
Proof.
  eexists. split; [reflexivity|]. split; [reflexivity|].
  destruct (listing_extends_directory_path sample_service (Own (GetRoot 0)) [] _ _
              eq_refl (Forall_nil_2 _) eq_refl) as [_ H].
  destruct (H (Object.Make "id-a" "a" 0 1700000000 true "/a" "dir")) as (_ & _ & _ & Hl).
  - apply list_elem_of_here.
  - repeat split; discriminate || reflexivity.
  - exact Hl.
Defined.

(** The path [path.Join] gives a name under the path sent for a directory. *)
Lemma created_path dir comps n :
  GetPath dir = abs_path comps -> Forall plain_name comps -> plain_name n ->
  Join (Ops.dir_path dir) n
  = match comps with [] => n | _ => abs_path (comps ++ [n]) end.
Proof.
  intros Hp H Hn. rewrite (dir_path_abs dir comps Hp H). destruct comps as [|c comps].
  - now apply Join_empty.
  - now apply Join_abs.
Qed.

Lemma relative_not_absolute n comps : plain_name n -> n <> abs_path comps.
Proof.
  intros Hn E. destruct (plain_not_rooted n Hn) as (c & s & -> & Hc).
  unfold abs_path in E. inversion E; subst. discriminate.
Qed.

(** X19. [MakeDir] with a plain name in a clean absolute directory asks
    for, and returns, the path [path.Join] makes. In a directory other than
    the root it is the path the listing of the directory gives an entry of
    that name; in the root it is the bare name, without the leading slash of
    the listing. *)
Theorem MakeDir_path_and_listing svc parent comps dirName o calls entry :
  GetPath parent = abs_path comps -> Forall plain_name comps -> plain_name dirName ->
  Ops.MakeDir svc parent dirName = (inr o, calls) ->
  FileInfo.Name entry = dirName ->
  Object.Path o = match comps with [] => dirName | _ => abs_path (comps ++ [dirName]) end /\
  calls = [PostFolder (Object.Path o)] /\
  Object.Path (Ops.listed (Ops.dir_path parent) entry) = abs_path (comps ++ [dirName]) /\
  (Object.Path o = Object.Path (Ops.listed (Ops.dir_path parent) entry) <-> comps <> []).
Proof.
  intros Hp H Hn Hm He. unfold Ops.MakeDir in Hm.
  rewrite (created_path parent comps dirName Hp H Hn) in Hm.
  assert (Ho : Object.Path o
               = match comps with [] => dirName | _ => abs_path (comps ++ [dirName]) end /\
               calls = [PostFolder (Object.Path o)]).
  { destruct (post_folder svc _) as [err|status text [err|info]]; try discriminate;
      destruct (negb (status =? 200)); try discriminate.
    inversion Hm; subst. simpl. auto. }
  destruct Ho as [Ho Hc]. split; [exact Ho|]. split; [exact Hc|].
  simpl. rewrite He, (entry_path parent comps _ Hp H). split; [reflexivity|].
  rewrite Ho. destruct comps as [|c comps].
  - split; [|congruence]. intros E. exfalso. eapply relative_not_absolute; eauto.
  - split; [discriminate|reflexivity].
Qed.

Lemma MakeDir_path_and_listing_witness :
  Ops.MakeDir sample_service (Own (GetRoot 0)) "a"
  = (inr (Object.Make "id-new" "a" 0 1700000002 true "a" "dir"), [PostFolder "a"]) /\
  Object.Path (Ops.listed (Ops.dir_path (Own (GetRoot 0)))
                 (FileInfo.Make "id-a" "a" "" 0 "dir" "folder" 1700000000))
  = "/a"%string.
Proof.
  split; [reflexivity|].
  destruct (MakeDir_path_and_listing sample_service (Own (GetRoot 0)) [] "a"
              (Object.Make "id-new" "a" 0 1700000002 true "a" "dir") [PostFolder "a"]
              (FileInfo.Make "id-a" "a" "" 0 "dir" "folder" 1700000000)
              eq_refl (Forall_nil_2 _)) as (_ & _ & Hl & _);
    [repeat split; discriminate || reflexivity|reflexivity|reflexivity|].
  exact Hl.
Defined.

(** X20. The path of the object [Put] returns for a file with a plain
    name, which is also the path of the create-file request: in a clean
    absolute directory other than the root, the path the listing of the
    directory gives an entry of that name; in the root, the bare name,
    without the leading slash of the listing. *)
Theorem Put_path_and_listing d net dstDir f comps obj entry :
  Object.Path dstDir = abs_path comps -> Forall plain_name comps ->
  plain_name (FileStreamer.Name f) ->
  (Put d net dstDir f).1 = Returned obj ->
  FileInfo.Name entry = FileStreamer.Name f ->
  Object.Path obj
  = match comps with
    | [] => FileStreamer.Name f
    | _ => abs_path (comps ++ [FileStreamer.Name f])
    end /\
  (forall req, EvPostFiles req ∈ (Put d net dstDir f).2 ->
               CreateFileRequest.Path req = Object.Path obj) /\
  Object.Path (Ops.listed (Ops.dir_path (Own dstDir)) entry)
  = abs_path (comps ++ [FileStreamer.Name f]) /\
  (Object.Path obj = Object.Path (Ops.listed (Ops.dir_path (Own dstDir)) entry)
   <-> comps <> []).
Proof.
  intros Hp H Hn Hout He.
  assert (Hjoin : Join (parentPath_of dstDir) (FileStreamer.Name f)
                  = match comps with
                    | [] => FileStreamer.Name f
                    | _ => abs_path (comps ++ [FileStreamer.Name f])
                    end)
    by exact (created_path (Own dstDir) comps _ Hp H Hn).
  assert (Hobj : Object.Path obj = Join (parentPath_of dstDir) (FileStreamer.Name f)).
  { destruct (Put_run d net dstDir f)
      as [Hs|Hs Hq|t j stj err st Hs Hq Hj HI Hreach Hstep|t st Hs Hq Hl HI];
      try discriminate.
    unfold commit in Hout.
    destruct (post_files net _) as [err|status body [err|info]]; try discriminate;
      destruct (negb (status =? 200)); try discriminate.
    inversion Hout; subst. reflexivity. }
  split; [now rewrite Hobj|]. split.
  { intros req Hin. destruct (Put_events _ _ _ _ _ Hin) as (t & Hq & _).
    destruct (Put_committed _ _ _ _ _ _ Hq Hin) as (st & _ & _ & Hreq & _).
    rewrite Hreq, Hobj. reflexivity. }
  simpl. rewrite He, (entry_path (Own dstDir) comps _ Hp H). split; [reflexivity|].
  rewrite Hobj, Hjoin. destruct comps as [|c comps].
  - split; [|congruence]. intros E. exfalso. eapply relative_not_absolute; eauto.
  - split; [discriminate|reflexivity].
Qed.

Lemma Put_path_and_listing_witness :
  exists obj,
    (Put (sample_drive 1 false) fresh_remote root_dir (sample_file (3 * MiB))).1
    = Returned obj /\
    Object.Path obj = "f.bin"%string /\
    Object.Path (Ops.listed (Ops.dir_path (Own root_dir))
                   (FileInfo.Make "file-1" "f.bin" "" (3 * MiB) "root" "file" 1700000000))
    = "/f.bin"%string.
Proof.
  eexists. split; [vm_compute; reflexivity|].
  destruct (Put_path_and_listing (sample_drive 1 false) fresh_remote root_dir
              (sample_file (3 * MiB)) []
              (Object.Make "file-1" "f.bin" (3 * MiB) 1700000000 false "f.bin" "root")
              (FileInfo.Make "file-1" "f.bin" "" (3 * MiB) "root" "file" 1700000000)
              eq_refl (Forall_nil_2 _)) as (Ho & _ & Hl & _);
    [repeat split; discriminate || reflexivity|vm_compute; reflexivity|reflexivity|].
  split; [reflexivity|exact Hl].
Defined.

(** X21. [Move] into a clean absolute directory, the root included: one
    request, naming the destination and the object. The object returned has
    the destination as its parent and the path the listing of the
    destination gives an entry of its name; its id, name, size, time and
    kind are the ones of the source. *)
Theorem Move_path svc src dst comps o calls :
  Object.Path dst = abs_path comps -> Forall plain_name comps ->
  plain_name (Object.Name src) ->
  Ops.Move svc (Own src) (Own dst) = (inr o, calls) ->
  calls = [PostMove (Object.ID dst) [Object.ID src]] /\
  Object.Path o = abs_path (comps ++ [Object.Name src]) /\
  Object.Path o = String.append (Ops.dir_path (Own dst))
                                (String.append "/" (Object.Name src)) /\
  Dir (Object.Path o) = Object.Path dst /\
  Object.ParentID o = Object.ID dst /\
  Object.ID o = Object.ID src /\ Object.Name o = Object.Name src /\
  Object.Size o = Object.Size src /\ Object.ModTime o = Object.ModTime src /\
  Object.IsFolder o = Object.IsFolder src.
Proof.
  intros Hp H Hn Hm. unfold Ops.Move in Hm.
  destruct (post_move svc _ _) as [err|status text []]; try discriminate.
  destruct (negb (status =? 200)); try discriminate.
  inversion Hm; subst; clear Hm. simpl.
  rewrite Hp, Join_abs by assumption.
  rewrite (entry_path (Own dst) comps _ Hp H).
  rewrite Dir_abs by assumption. repeat split; reflexivity.
Qed.

Lemma Move_path_witness :
  Ops.Move sample_service
    (Own (Object.Make "id-b" "b.txt" 12 1700000001 false "/a/b.txt" "id-a"))
    (Own (GetRoot 0))
  = (inr (Object.Make "id-b" "b.txt" 12 1700000001 false "/b.txt" "root"),
     [PostMove "root" ["id-b"%string]]) /\
  Dir "/b.txt" = "/"%string.
Proof.
  split; [reflexivity|].
  destruct (Move_path sample_service
              (Object.Make "id-b" "b.txt" 12 1700000001 false "/a/b.txt" "id-a")
              (GetRoot 0) []
              (Object.Make "id-b" "b.txt" 12 1700000001 false "/b.txt" "root")
              [PostMove "root" ["id-b"%string]] eq_refl (Forall_nil_2 _))
    as (_ & _ & _ & Hd & _);
    [repeat split; discriminate || reflexivity|reflexivity|].
  exact Hd.
Defined.

(** X22. [Rename] of an object at a clean absolute path to a plain name:
    one PATCH request. The object returned has the new name in the same
    directory and is otherwise the source; renaming it back gives the source
    again. *)
Theorem Rename_round_trip svc src comps newName o calls :
  Object.Path src = abs_path (comps ++ [Object.Name src]) ->
  Forall plain_name comps -> plain_name (Object.Name src) -> plain_name newName ->
  Ops.Rename svc (Own src) newName = (inr o, calls) ->
  calls = [PatchFile (String.append "/api/files/" (Object.ID src)) newName] /\
  Object.Name o = newName /\
  Object.Path o = abs_path (comps ++ [newName]) /\
  Dir (Object.Path o) = Dir (Object.Path src) /\
  Object.ID o = Object.ID src /\ Object.Size o = Object.Size src /\
  Object.ModTime o = Object.ModTime src /\ Object.IsFolder o = Object.IsFolder src /\
  Object.ParentID o = Object.ParentID src /\
  (forall back calls',
      Ops.Rename svc (Own o) (Object.Name src) = (inr back, calls') -> back = src).
Proof.
  intros Hp H Hn Hn' Hr. unfold Ops.Rename in Hr.
  destruct (patch_file svc _ newName) as [err|status text []]; try discriminate.
  destruct (negb (status =? 200)); try discriminate.
  inversion Hr; subst; clear Hr. simpl.
  rewrite Hp, !Dir_abs, Join_abs by assumption.
  repeat split; try reflexivity; [now apply Dir_abs|].
  intros back calls'.
  destruct (patch_file svc _ (Object.Name src)) as [err|status' text' []]; try discriminate.
  destruct (negb (status' =? 200)); try discriminate.
  intros Hb. inversion Hb; subst; clear Hb.
  rewrite Dir_abs, Join_abs, <- Hp by assumption. now destruct src.
Qed.

Lemma Rename_round_trip_witness :
  Ops.Rename sample_service
    (Own (Object.Make "id-b" "b.txt" 12 1700000001 false "/a/b.txt" "id-a")) "c.txt"
  = (inr (Object.Make "id-b" "c.txt" 12 1700000001 false "/a/c.txt" "id-a"),
     [PatchFile "/api/files/id-b" "c.txt"]) /\
  forall back calls,
    Ops.Rename sample_service
      (Own (Object.Make "id-b" "c.txt" 12 1700000001 false "/a/c.txt" "id-a")) "b.txt"
    = (inr back, calls) ->
    back = Object.Make "id-b" "b.txt" 12 1700000001 false "/a/b.txt" "id-a".
Proof.
  split; [reflexivity|].
  destruct (Rename_round_trip sample_service
              (Object.Make "id-b" "b.txt" 12 1700000001 false "/a/b.txt" "id-a")
              ["a"%string] "c.txt"
              (Object.Make "id-b" "c.txt" 12 1700000001 false "/a/c.txt" "id-a")
              [PatchFile "/api/files/id-b" "c.txt"] eq_refl)
    as (_ & _ & _ & _ & _ & _ & _ & _ & _ & Hback);
    [repeat constructor; discriminate
    |repeat split; discriminate || reflexivity
    |repeat split; discriminate || reflexivity
    |reflexivity|].
  exact Hback.
Defined.

(** ** Links and objects of another type *)

(** X23. [Link] returns a link only for a file of the driver whose
    download request is answered with status 200 and a [Location] header
    that is not empty, which is the URL of the link. A folder is refused
    with [errs.NotFile] and an object of another type with the
    invalid-object error, both without a call. *)
Theorem Link_result svc file :
  (forall link, (Ops.Link svc file).1 = inr link ->
     exists obj text,
       file = Own obj /\ Object.IsFolder obj = false /\
       get_download svc (Object.ID obj) = Answer 200 text (Link.URL link) /\
       Link.URL link <> ""%string /\
       Link.Header link = [("User-Agent"%string, [user_agent])] /\
       (Ops.Link svc file).2 = [GetDownload (Object.ID obj)]) /\
  (forall obj, file = Own obj -> Object.IsFolder obj = true ->
     Ops.Link svc file = (inl ErrNotFile, [])) /\
  (forall path, file = Foreign path -> Ops.Link svc file = (inl ErrInvalidObject, [])).
Proof.
  split; [|split].
  - intros link Hl. destruct file as [obj|path]; simpl in Hl; [|discriminate].
    unfold Ops.Link in *. destruct (Object.IsFolder obj) eqn:Ef; [discriminate|].
    destruct (get_download svc (Object.ID obj)) as [err|status text location] eqn:Eg;
      [discriminate|].
    destruct (Z.eqb_spec status 200) as [->|Hs]; simpl in Hl; [|discriminate].
    destruct (String.eqb_spec location "") as [->|Hloc]; [discriminate|].
    simpl in *. inversion Hl; subst. simpl. exists obj, text. repeat split; auto.
  - intros obj -> Hf. unfold Ops.Link. now rewrite Hf.
  - intros path ->. reflexivity.
Qed.

Lemma Link_result_witness :
  exists link,
    Ops.Link sample_service
      (Own (Object.Make "id-b" "b.txt" 12 1700000001 false "/b.txt" "root"))
    = (inr link, [GetDownload "id-b"]) /\
    Link.URL link = "https://cdn.example/id-b"%string /\
    Ops.Link sample_service (Own (GetRoot 0)) = (inl ErrNotFile, []).
Proof.
  eexists. split; [reflexivity|]. split; [reflexivity|].
  destruct (Link_result sample_service (Own (GetRoot 0))) as (_ & Hfolder & _).
  apply (Hfolder (GetRoot 0)); reflexivity.
Defined.

(** X24. [Remove] succeeds exactly for an object of the driver whose
    DELETE request, naming the id of the object alone, is answered with
    status 200; folders are removed like files. [Remove], [Rename] and
    [Move] refuse an object that is not of the driver's own type without a
    call; [Move] looks at the source first, then at the destination. *)
Theorem own_objects_only svc :
  (forall obj calls,
      Ops.Remove svc obj = (None, calls) <->
      exists o text,
        obj = Own o /\
        delete_files svc [Object.ID o] = Answer 200 text tt /\
        calls = [DeleteFiles [Object.ID o]]) /\
  (forall path,
      Ops.Remove svc (Foreign path) = (Some ErrInvalidObject, []) /\
      (forall newName, Ops.Rename svc (Foreign path) newName = (inl ErrInvalidObject, [])) /\
      (forall dst, Ops.Move svc (Foreign path) dst = (inl ErrInvalidSource, [])) /\
      (forall src, Ops.Move svc (Own src) (Foreign path) = (inl ErrInvalidDestination, []))).
Proof.
  split; [|repeat split; reflexivity].
  intros obj calls. split.
  - intros Hr. destruct obj as [o|path]; [|discriminate].
    unfold Ops.Remove in Hr.
    destruct (delete_files svc [Object.ID o]) as [err|status text []] eqn:Ed;
      [discriminate|].
    destruct (Z.eqb_spec status 200) as [->|Hs]; simpl in Hr; [|discriminate].
    inversion Hr; subst. exists o, text. auto.
  - intros (o & text & -> & Hd & ->). unfold Ops.Remove. now rewrite Hd.
Qed.

Lemma own_objects_only_witness :
  Ops.Remove sample_service (Own (GetRoot 0)) = (None, [DeleteFiles ["root"%string]]) /\
  Ops.Remove sample_service (Foreign "/a") = (Some ErrInvalidObject, []).
Proof.
  destruct (own_objects_only sample_service) as [Hok Hforeign].
  split.
  - apply Hok. exists (GetRoot 0), ""%string. repeat split; reflexivity.
  - apply (Hforeign "/a"%string).
Defined.
